(** * Portfolio valuation, EWMA/Bollinger bands and mean-reversion trades

    Shallow embedding of [graphing_returns_with_bands.py]: the two portfolio
    valuations, the band estimator, [index_compiler] and the trade simulator
    [track_trades], followed by the properties proved of them.

    Numbers are real numbers ([R]), as in the data model (prices and values
    are positive reals).  Division by a pandas value is the total division
    of [R] (pandas gives an infinity there, and infinities are not
    modelled); division of plain Python numbers raises [ZeroDivisionError]
    on a zero divisor.  Where rounding matters, the arithmetic of a
    rebalance is also given in binary64 ([Binary64]).  A missing float
    (pandas' NaN) is [None] in a [float := option R].  A Python [dict] is an association list in
    insertion order; an exception is an [Err] result.  The pandas operations
    the program calls ([ewm(halflife=...).mean()], [rolling(window=...).std()],
    column assignment, [drop], [loc]) are modelled after the documented
    behaviour of the library with the defaults the program leaves in
    place. *)

From Stdlib Require Import PrimFloat.
From Stdlib Require Import Reals Lra Lia ZArith List String Bool.
From stdpp Require Import base list strings.

Open Scope R_scope.

(** ** Python results and exceptions *)

Module Py.

Inductive error : Type :=
| IndexError
| KeyError (key : string)
| TypeError
| ValueError
| UnboundLocalError
| ZeroDivisionError.

Inductive result (A : Type) : Type :=
| Ok (a : A)
| Err (e : error).

Arguments Ok {A} a.
Arguments Err {A} e.

Definition bind {A B} (m : result A) (k : A -> result B) : result B :=
  match m with
  | Ok a => k a
  | Err e => Err e
  end.

(** A comprehension whose body may raise: left to right, first error wins. *)
Fixpoint mapM {A B} (f : A -> result B) (l : list A) : result (list B) :=
  match l with
  | [] => Ok []
  | x :: l' =>
      bind (f x) (fun y => bind (mapM f l') (fun ys => Ok (y :: ys)))
  end.

(** The builtin [sum]: a left fold that starts from 0. *)
Definition sum (l : list R) : R := fold_left Rplus l 0.

(** [x / y] on plain Python numbers. *)
Definition truediv (x y : R) : result R :=
  if Req_dec_T y 0 then Err ZeroDivisionError else Ok (x / y).

(** [enumerate]. *)
Definition enumerate {A} (l : list A) : list (nat * A) :=
  combine (seq 0 (length l)) l.

End Py.

Import Py.

#[global] Instance result_bind : MBind result := fun A B k m => Py.bind m k.

(** ** Price tables *)

(** The price [DataFrame] read from the CSV file: the column labels, and one
    record per date in file order.  A record is total on the frame's columns;
    [getitem] is [prices[stock]], which raises [KeyError] off the columns. *)
Record PriceFrame : Type := {
  columns : list string;
  rows : list (string * (string -> R))
}.

(** A [dict] from tickers to floats, as its items in insertion order.  The
    keys of a dict are distinct: visiting the items visits each key once,
    with the value [d[key]]. *)
Definition dict : Type := list (string * R).

(** A [pd.Series] of floats with its index. *)
Definition Series : Type := list (string * R).

Definition index (df : PriceFrame) : list string := map fst (rows df).

Definition getitem (df : PriceFrame) (prices : string -> R) (stock : string)
  : result R :=
  if decide (stock ∈ columns df) then Ok (prices stock) else Err (KeyError stock).

(** [df[stock].iloc[0]]. *)
Definition iloc0 (df : PriceFrame) (stock : string) : result R :=
  match rows df with
  | [] => Err IndexError
  | (_, prices) :: _ => getitem df prices stock
  end.

(** ** PortfolioValuator *)

(** [{stock: initial_investment * weight for stock, weight in weights.items()
      if stock in df.columns}] *)
Definition initial_investment_per_stock
    (df : PriceFrame) (weights : dict) (initial_investment : R) : dict :=
  omap (fun '(stock, weight) =>
          if decide (stock ∈ columns df)
          then Some (stock, initial_investment * weight)
          else None) weights.

Definition calculate_portfolio_value_no_rebalancing
    (df : PriceFrame) (weights : dict) (initial_investment : R)
  : result Series :=
  let initial_investment_per_stock :=
    initial_investment_per_stock df weights initial_investment in
  portfolio_values ←
    mapM (fun '(date, prices) =>
            terms ← mapM (fun '(stock, alloc) =>
                             p ← getitem df prices stock;
                             p0 ← iloc0 df stock;
                             Ok (p * (alloc / p0)))
                          initial_investment_per_stock;
            Ok (Py.sum terms))
         (rows df);
  Ok (combine (index df) portfolio_values).

(** [sum(prices[stock] * shares[stock] for stock in shares)] *)
Definition holdings_value
    (df : PriceFrame) (prices : string -> R) (shares : dict) : result R :=
  terms ← mapM (fun '(stock, held) =>
                   p ← getitem df prices stock; Ok (p * held)) shares;
  Ok (Py.sum terms).

(** [rebalance_frequency > 0 and i % rebalance_frequency == 0 and i != 0] *)
Definition rebalance_due (rebalance_frequency : Z) (i : nat) : bool :=
  (0 <? rebalance_frequency)%Z
  && (Z.of_nat i mod rebalance_frequency =? 0)%Z
  && negb (i =? 0)%nat.

(** The two comprehensions of the rebalancing branch: allocations over every
    entry of [weights], then shares at the prices of the current date. *)
Definition rebalance
    (df : PriceFrame) (weights : dict) (prices : string -> R)
    (portfolio_value : R) : result dict :=
  let new_investment_per_stock :=
    map (fun '(stock, weight) => (stock, portfolio_value * weight)) weights in
  mapM (fun '(stock, alloc) =>
          p ← getitem df prices stock; Ok (stock, alloc / p))
       new_investment_per_stock.

(** One iteration of the loop over [enumerate(df.iterrows())]: it returns the
    value appended to [portfolio_values] and the shares held afterwards. *)
Definition rebalancing_step
    (df : PriceFrame) (weights : dict) (rebalance_frequency : Z)
    (shares : dict) (i : nat) (prices : string -> R) : result (R * dict) :=
  portfolio_value ← holdings_value df prices shares;
  if rebalance_due rebalance_frequency i
  then shares' ← rebalance df weights prices portfolio_value;
       Ok (portfolio_value, shares')
  else Ok (portfolio_value, shares).

(** The loop, from the state it has reached ([portfolio_values] and
    [shares]) over the records still to visit. *)
Fixpoint rebalancing_loop
    (df : PriceFrame) (weights : dict) (rebalance_frequency : Z)
    (portfolio_values : list R) (shares : dict)
    (todo : list (nat * (string * (string -> R))))
  : result (list R * dict) :=
  match todo with
  | [] => Ok (portfolio_values, shares)
  | (i, (date, prices)) :: todo' =>
      '(portfolio_value, shares') ←
        rebalancing_step df weights rebalance_frequency shares i prices;
      rebalancing_loop df weights rebalance_frequency
                       (portfolio_values ++ [portfolio_value]) shares' todo'
  end.

(** [{stock: initial_investment_per_stock[stock] / df[stock].iloc[0] ...}] *)
Definition initial_shares
    (df : PriceFrame) (weights : dict) (initial_investment : R)
  : result dict :=
  mapM (fun '(stock, alloc) =>
          p0 ← iloc0 df stock; Ok (stock, alloc / p0))
       (initial_investment_per_stock df weights initial_investment).

Definition calculate_portfolio_value_with_rebalancing
    (df : PriceFrame) (weights : dict) (initial_investment : R)
    (rebalance_frequency : Z) : result Series :=
  shares ← initial_shares df weights initial_investment;
  '(portfolio_values, _) ←
    rebalancing_loop df weights rebalance_frequency [] shares
                     (enumerate (rows df));
  Ok (combine (index df) portfolio_values).

(** ** The arithmetic of a rebalance in binary64

    The program computes in IEEE 754 double precision.  These are the
    initial shares, the sum that values the shares and the two
    comprehensions of the rebalancing branch again, with every operation
    rounded as the program rounds it. *)
Module Binary64.

Definition dict : Type := list (string * PrimFloat.float).

(** The builtin [sum]: a left fold that starts from 0. *)
Definition sum (l : list PrimFloat.float) : PrimFloat.float :=
  fold_left PrimFloat.add l 0%float.

Definition getitem (columns : list string) (prices : string -> PrimFloat.float)
    (stock : string) : result PrimFloat.float :=
  if decide (stock ∈ columns) then Ok (prices stock) else Err (KeyError stock).

(** [{stock: initial_investment * weight ... if stock in df.columns}], then
    [{stock: initial_investment_per_stock[stock] / df[stock].iloc[0] ...}],
    on the prices of the first record. *)
Definition initial_shares
    (columns : list string) (weights : dict)
    (first_prices : string -> PrimFloat.float)
    (initial_investment : PrimFloat.float) : result dict :=
  let initial_investment_per_stock :=
    omap (fun '(stock, weight) =>
            if decide (stock ∈ columns)
            then Some (stock, PrimFloat.mul initial_investment weight)
            else None) weights in
  mapM (fun '(stock, alloc) =>
          p0 ← getitem columns first_prices stock;
          Ok (stock, PrimFloat.div alloc p0))
       initial_investment_per_stock.

(** [sum(prices[stock] * shares[stock] for stock in shares)] *)
Definition holdings_value
    (columns : list string) (prices : string -> PrimFloat.float)
    (shares : dict) : result PrimFloat.float :=
  terms ← mapM (fun '(stock, held) =>
                   p ← getitem columns prices stock;
                   Ok (PrimFloat.mul p held)) shares;
  Ok (sum terms).

(** [{stock: portfolio_value * weight ...}], then
    [{stock: new_investment_per_stock[stock] / prices[stock] ...}]. *)
Definition rebalance
    (columns : list string) (weights : dict)
    (prices : string -> PrimFloat.float) (portfolio_value : PrimFloat.float)
  : result dict :=
  let new_investment_per_stock :=
    map (fun '(stock, weight) => (stock, PrimFloat.mul portfolio_value weight))
        weights in
  mapM (fun '(stock, alloc) =>
          p ← getitem columns prices stock; Ok (stock, PrimFloat.div alloc p))
       new_investment_per_stock.

End Binary64.

(** ** Data frames with named columns *)

(** A pandas float: [None] is NaN.  Arithmetic propagates NaN and every
    comparison with NaN is false.  Infinities are not modelled. *)
Definition float : Type := option R.

Definition NaN : float := None.

Definition fadd (a b : float) : float :=
  match a, b with Some x, Some y => Some (x + y) | _, _ => None end.
Definition fsub (a b : float) : float :=
  match a, b with Some x, Some y => Some (x - y) | _, _ => None end.
Definition fmul (a b : float) : float :=
  match a, b with Some x, Some y => Some (x * y) | _, _ => None end.
Definition fdiv (a b : float) : float :=
  match a, b with Some x, Some y => Some (x / y) | _, _ => None end.

Definition fgt (a b : float) : bool :=
  match a, b with
  | Some x, Some y => if Rgt_dec x y then true else false
  | _, _ => false
  end.
Definition flt (a b : float) : bool :=
  match a, b with
  | Some x, Some y => if Rlt_dec x y then true else false
  | _, _ => false
  end.

(** A column is a float column or an object column (of [None] and strings). *)
Inductive column : Type :=
| Floats (cells : list float)
| Objects (cells : list (option string)).

(** The frame the band estimator builds and the trade simulator works on:
    the index labels (dates) and the columns by name, in column order.
    Positions stand for the labels [df.index[i]], which are distinct dates. *)
Record DataFrame : Type := {
  df_index : list string;
  df_columns : list (string * column)
}.

Fixpoint lookup_column (name : string) (cols : list (string * column))
  : option column :=
  match cols with
  | [] => None
  | (k, c) :: cols' => if decide (k = name) then Some c else lookup_column name cols'
  end.

(** [df[name] = c] on the columns: in place when the column exists, appended
    as the last column otherwise. *)
Fixpoint assign (name : string) (c : column) (cols : list (string * column))
  : list (string * column) :=
  match cols with
  | [] => [(name, c)]
  | (k, c') :: cols' =>
      if decide (k = name) then (name, c) :: cols'
      else (k, c') :: assign name c cols'
  end.

Definition set_column (name : string) (c : column) (df : DataFrame) : DataFrame :=
  {| df_index := df_index df; df_columns := assign name c (df_columns df) |}.

(** [df[name]] read as a float column. *)
Definition get_floats (name : string) (df : DataFrame) : result (list float) :=
  match lookup_column name (df_columns df) with
  | None => Err (KeyError name)
  | Some (Floats cells) => Ok cells
  | Some (Objects _) => Err TypeError
  end.

(** [df.drop(columns=[name], inplace=True)] *)
Definition drop_column (name : string) (df : DataFrame) : result DataFrame :=
  match lookup_column name (df_columns df) with
  | None => Err (KeyError name)
  | Some _ =>
      Ok {| df_index := df_index df;
            df_columns := List.filter (fun kc => negb (bool_decide (fst kc = name)))
                                      (df_columns df) |}
  end.

(** [len(df)] *)
Definition len (df : DataFrame) : nat := length (df_index df).

(** ** BandEstimator *)

(** The smoothing factor pandas derives from [halflife]:
    [alpha = 1 - exp(log(0.5) / halflife)]. *)
Definition alpha_of_halflife (halflife : nat) : R :=
  1 - exp (ln (1 / 2) / INR halflife).

(** [Series.ewm(halflife=h).mean()] with pandas' defaults ([adjust=True],
    [min_periods=0]) on a series without NaN: the running average of the
    values so far in which a value [i] steps back weighs [(1 - alpha)^i].
    pandas carries the average [weighted] and the total weight [old_wt]. *)
Fixpoint ewm_scan (alpha weighted old_wt : R) (vals : list R) : list R :=
  match vals with
  | [] => []
  | cur :: vals' =>
      let old_wt := old_wt * (1 - alpha) in
      let weighted := (old_wt * weighted + 1 * cur) / (old_wt + 1) in
      let old_wt := old_wt + 1 in
      weighted :: ewm_scan alpha weighted old_wt vals'
  end.

Definition ewm_mean (halflife : nat) (vals : list R) : result (list R) :=
  if (halflife =? 0)%nat then Err ValueError
  else
    Ok match vals with
       | [] => []
       | first :: vals' =>
           first :: ewm_scan (alpha_of_halflife halflife) first 1 vals'
       end.

(** The sample standard deviation ([ddof=1]) of one window: NaN unless the
    window holds more than one observation. *)
Definition sample_std (window : list R) : float :=
  let n := length window in
  if (n <=? 1)%nat then NaN
  else
    let mean := Py.sum window / INR n in
    Some (sqrt (Py.sum (map (fun x => (x - mean) ^ 2) window) / INR (n - 1))).

(** [Series.rolling(window=w).std()] with pandas' defaults
    ([min_periods = w]) on a series without NaN: NaN until [w] values are
    available, then the sample standard deviation of the last [w] values. *)
Definition rolling_std (window : nat) (vals : list R) : list float :=
  map (fun t =>
         if (S t <? window)%nat then NaN
         else sample_std (take window (drop (S t - window) vals)))
      (seq 0 (length vals)).

Definition add_ewma_bollinger_bands
    (portfolio_values : Series) (halflife_days : nat) : result DataFrame :=
  let values := map snd portfolio_values in
  let df := {| df_index := map fst portfolio_values;
               df_columns := [("portfolio_value"%string,
                               Floats (map Some values))] |} in
  ewma ← ewm_mean halflife_days values;
  let df := set_column "ewma" (Floats (map Some ewma)) df in
  let df := set_column "std_dev" (Floats (rolling_std halflife_days values)) df in
  ewma ← get_floats "ewma" df;
  std_dev ← get_floats "std_dev" df;
  let df := set_column "bollinger_upper"
              (Floats (zip_with fadd ewma (map (fmul (Some 2)) std_dev))) df in
  ewma ← get_floats "ewma" df;
  std_dev ← get_floats "std_dev" df;
  let df := set_column "bollinger_lower"
              (Floats (zip_with fsub ewma (map (fmul (Some 2)) std_dev))) df in
  drop_column "std_dev" df.

(** ** TradeSimulator *)

(** [df.loc[df.index[i], name]] read as a float.  A column of another type
    is outside the documented input of the simulator; reading a number from
    it is reported as [TypeError]. *)
Definition loc (df : DataFrame) (i : nat) (name : string) : result float :=
  match df_index df !! i with
  | None => Err IndexError
  | Some _ =>
      cells ← get_floats name df;
      match cells !! i with
      | Some x => Ok x
      | None => Err IndexError
      end
  end.

Fixpoint update_column (name : string) (f : column -> column)
    (cols : list (string * column)) : list (string * column) :=
  match cols with
  | [] => []
  | (k, c) :: cols' =>
      if decide (k = name) then (k, f c) :: cols'
      else (k, c) :: update_column name f cols'
  end.

(** [df.loc[df.index[i], name] = x] on a float column of the frame, and
    [df.loc[df.index[i], name] = s] on an object column.  The simulator only
    writes to the columns it has created itself. *)
Definition set_loc (df : DataFrame) (i : nat) (name : string) (x : float)
  : DataFrame :=
  {| df_index := df_index df;
     df_columns :=
       update_column name
         (fun c => match c with
                   | Floats cells => Floats (<[i := x]> cells)
                   | Objects cells => Objects cells
                   end) (df_columns df) |}.

Definition set_loc_object (df : DataFrame) (i : nat) (name : string)
    (s : option string) : DataFrame :=
  {| df_index := df_index df;
     df_columns :=
       update_column name
         (fun c => match c with
                   | Floats cells => Floats cells
                   | Objects cells => Objects (<[i := s]> cells)
                   end) (df_columns df) |}.

(** An entry of [trade_logs]:
    [(trade_date, trade_price, trade_type, total_trade_pnl)]. *)
Record TradeRecord : Type := {
  trade_date : string;
  trade_price : float;
  trade_type : string;
  total_trade_pnl : float
}.

(** What the simulator prints. *)
Inductive message : Type :=
| ShortEntered (price : float)
| LongEntered (price : float)
| ShortExited (price : float)
| LongExited (price : float)
| FramePrinted
| TotalTrades (n : nat)
| FinalRealizedBalance (balance : float)
| PositionStillOpen.

(** The frame (shared with the caller), the local variables of
    [track_trades], and the lines printed so far.  [units_traded] is unbound
    ([None]) until the first entry. *)
Record state : Type := {
  frame : DataFrame;
  current_position : option string;
  entry_price : float;
  realized_balance : float;
  unrealized_pnl : float;
  units_traded : option float;
  trades_tally : nat;
  trade_logs : list TradeRecord;
  stdout : list message
}.

(** [trade_logs[i] = (trade_logs[i][0], trade_logs[i][1], tag, pnl)], where
    [pnl] is [trade_logs[i][3]] when no new value is given. *)
Definition relabel (logs : list TradeRecord) (i : nat) (tag : string)
    (pnl : option float) : result (list TradeRecord) :=
  match logs !! i with
  | None => Err IndexError
  | Some r =>
      Ok (<[i := {| trade_date := trade_date r;
                    trade_price := trade_price r;
                    trade_type := tag;
                    total_trade_pnl := default (total_trade_pnl r) pnl |}]> logs)
  end.

Definition bound (v : option float) : result float :=
  match v with
  | Some x => Ok x
  | None => Err UnboundLocalError
  end.

(** The body of [for i in range(1, len(df))]. *)
Definition trade_step (st : state) (i : nat) : result state :=
  let df := frame st in
  price ← loc df i "portfolio_value";
  ewma ← loc df i "ewma";
  upper ← loc df i "bollinger_upper";
  lower ← loc df i "bollinger_lower";
  df ← (if (0 <? i)%nat
        then carried ← loc df (i - 1) "total_trade_pnl";
             Ok (set_loc df i "total_trade_pnl" carried)
        else Ok (set_loc df i "total_trade_pnl" (Some 0)));
  let unrealized_pnl :=
    if bool_decide (current_position st = Some "short"%string)
    then fdiv (fmul (realized_balance st) (fsub (entry_price st) price))
              (entry_price st)
    else if bool_decide (current_position st = Some "long"%string)
    then fdiv (fmul (realized_balance st) (fsub price (entry_price st)))
              (entry_price st)
    else Some 0 in
  date ← from_option Ok (Err IndexError) (df_index df !! i);
  running ← loc df i "total_trade_pnl";
  let logs := trade_logs st ++
                [{| trade_date := date; trade_price := price;
                    trade_type := "neither";
                    total_trade_pnl := fadd running unrealized_pnl |}] in
  if bool_decide (current_position st = None) && fgt price upper then
    let df := set_loc_object df i "position" (Some "short"%string) in
    logs ← relabel logs i "short_entry" None;
    Ok {| frame := df; current_position := Some "short"%string;
          entry_price := price; realized_balance := realized_balance st;
          unrealized_pnl := unrealized_pnl;
          units_traded := Some (fdiv (realized_balance st) price);
          trades_tally := trades_tally st; trade_logs := logs;
          stdout := stdout st ++ [ShortEntered price] |}
  else if bool_decide (current_position st = None) && flt price lower then
    let df := set_loc_object df i "position" (Some "long"%string) in
    logs ← relabel logs i "long_entry" None;
    Ok {| frame := df; current_position := Some "long"%string;
          entry_price := price; realized_balance := realized_balance st;
          unrealized_pnl := unrealized_pnl;
          units_traded := Some (fdiv (realized_balance st) price);
          trades_tally := trades_tally st; trade_logs := logs;
          stdout := stdout st ++ [LongEntered price] |}
  else if bool_decide (current_position st = Some "short"%string)
          && flt price ewma then
    units ← bound (units_traded st);
    let pnl := fmul units (fsub (entry_price st) price) in
    running ← loc df i "total_trade_pnl";
    let df := set_loc df i "total_trade_pnl" (fadd running pnl) in
    running ← loc df i "total_trade_pnl";
    logs ← relabel logs i "short_exit" (Some running);
    Ok {| frame := df; current_position := None;
          entry_price := entry_price st;
          realized_balance := fadd (realized_balance st) pnl;
          unrealized_pnl := unrealized_pnl;
          units_traded := units_traded st;
          trades_tally := trades_tally st + 1; trade_logs := logs;
          stdout := stdout st ++ [ShortExited price] |}
  else if bool_decide (current_position st = Some "long"%string)
          && fgt price ewma then
    units ← bound (units_traded st);
    let pnl := fmul units (fsub price (entry_price st)) in
    running ← loc df i "total_trade_pnl";
    let df := set_loc df i "total_trade_pnl" (fadd running pnl) in
    running ← loc df i "total_trade_pnl";
    logs ← relabel logs i "long_exit" (Some running);
    Ok {| frame := df; current_position := None;
          entry_price := entry_price st;
          realized_balance := fadd (realized_balance st) pnl;
          unrealized_pnl := unrealized_pnl;
          units_traded := units_traded st;
          trades_tally := trades_tally st + 1; trade_logs := logs;
          stdout := stdout st ++ [LongExited price] |}
  else
    Ok {| frame := df; current_position := current_position st;
          entry_price := entry_price st;
          realized_balance := realized_balance st;
          unrealized_pnl := unrealized_pnl;
          units_traded := units_traded st;
          trades_tally := trades_tally st; trade_logs := logs;
          stdout := stdout st |}.

(** The loop, over the indices still to visit. *)
Fixpoint trade_loop (st : state) (todo : list nat) : result state :=
  match todo with
  | [] => Ok st
  | i :: todo' => st' ← trade_step st i; trade_loop st' todo'
  end.

(** [df['trade_pnl'] = 0.0], [df['total_trade_pnl'] = 0.0] and
    [df['position'] = None], on the frame of the caller. *)
Definition add_trade_columns (df : DataFrame) : DataFrame :=
  let df := set_column "trade_pnl" (Floats (replicate (len df) (Some 0))) df in
  let df := set_column "total_trade_pnl" (Floats (replicate (len df) (Some 0))) df in
  set_column "position" (Objects (replicate (len df) None)) df.

(** Everything before the loop: the three columns, the baseline entry of the
    log. *)
Definition trade_init (df : DataFrame) (initial_investment : R) : result state :=
  let realized_balance : float := Some initial_investment in
  let df := add_trade_columns df in
  first ← from_option Ok (Err IndexError) (df_index df !! 0%nat);
  let df := set_loc df 0 "total_trade_pnl" realized_balance in
  price ← loc df 0 "portfolio_value";
  Ok {| frame := df; current_position := None; entry_price := Some 0;
        realized_balance := realized_balance; unrealized_pnl := Some 0;
        units_traded := None; trades_tally := 0;
        trade_logs := [{| trade_date := first; trade_price := price;
                          trade_type := "neither";
                          total_trade_pnl := realized_balance |}];
        stdout := [] |}.

(** The prints after the loop. *)
Definition trade_report (st : state) : state :=
  {| frame := frame st; current_position := current_position st;
     entry_price := entry_price st; realized_balance := realized_balance st;
     unrealized_pnl := unrealized_pnl st; units_traded := units_traded st;
     trades_tally := trades_tally st; trade_logs := trade_logs st;
     stdout := stdout st
               ++ [FramePrinted; TotalTrades (trades_tally st);
                   FinalRealizedBalance (realized_balance st)]
               ++ (if bool_decide (current_position st = Some "Open"%string)
                   then [PositionStillOpen] else []) |}.

(** A whole call of [track_trades], with what it leaves behind: the frame of
    the caller as mutated, the final locals, the printed lines. *)
Definition track_trades_run (df : DataFrame) (initial_investment : R)
  : result state :=
  st ← trade_init df initial_investment;
  st ← trade_loop st (seq 1 (len df - 1));
  Ok (trade_report st).

(** What [track_trades] returns: [(trade_logs, trades_tally)]. *)
Definition track_trades (df : DataFrame) (initial_investment : R)
  : result (list TradeRecord * nat) :=
  st ← track_trades_run df initial_investment;
  Ok (trade_logs st, trades_tally st).

(** ** Orchestrator *)

(** The validation of the weights in [index_compiler]:
    [total_weight = sum(weights_dict.values())], then, when the total is not
    1, [{ticker: weight / total_weight for ticker, weight in
    weights_dict.items()}].  The weights are plain Python numbers: the first
    division raises [ZeroDivisionError] when the total is 0. *)
Definition normalised_weights (weights_dict : dict) : result dict :=
  let total_weight := Py.sum (map snd weights_dict) in
  if Req_dec_T total_weight 1 then Ok weights_dict
  else mapM (fun '(ticker, weight) =>
               quotient ← truediv weight total_weight;
               Ok (ticker, quotient))
            weights_dict.

(** [index_compiler], on the price table it has read from the CSV file: the
    weights are rescaled when they do not sum to 1, the portfolio is valued
    under the policy selected, and the bands are added. *)
Definition index_compiler
    (df : PriceFrame) (weights_dict : dict) (title : string)
    (halflife_days : nat) (initial_investment : R)
    (rebalance : bool) (rebalance_frequency : Z)
  : result (DataFrame * dict * string) :=
  weights_dict ← normalised_weights weights_dict;
  portfolio_values ←
    (if rebalance
     then calculate_portfolio_value_with_rebalancing
            df weights_dict initial_investment rebalance_frequency
     else calculate_portfolio_value_no_rebalancing
            df weights_dict initial_investment);
  ewma_bollinger_df ← add_ewma_bollinger_bands portfolio_values halflife_days;
  Ok (ewma_bollinger_df, weights_dict, title).

(** ** The weighted mean of the values so far

    The formula the exponentially weighted mean is compared with: at index
    [t] the value [i] steps back weighs [q ^ i]. *)

Definition weighted_total (q : R) (xs : list R) (t : nat) : R :=
  sum_f_R0 (fun i => q ^ i * nth (t - i) xs 0) t.

Definition weight_total (q : R) (t : nat) : R :=
  sum_f_R0 (fun i => q ^ i) t.

Definition weighted_mean (q : R) (xs : list R) (t : nat) : R :=
  weighted_total q xs t / weight_total q t.

(** ** Completed trades in a log *)

Definition is_exit (r : TradeRecord) : bool :=
  bool_decide (trade_type r = "long_exit"%string)
  || bool_decide (trade_type r = "short_exit"%string).

Definition count_exits (logs : list TradeRecord) : nat :=
  length (List.filter is_exit logs).

(** ** Two runs side by side *)

Definition band_columns : list string :=
  ["portfolio_value"; "ewma"; "bollinger_upper"; "bollinger_lower"]%string.

Definition trade_columns : list string :=
  ["trade_pnl"; "total_trade_pnl"; "position"]%string.

(** Two frames with the same index and the same content in the columns
    listed. *)
Definition same_on (names : list string) (df1 df2 : DataFrame) : Prop :=
  df_index df1 = df_index df2
  /\ forall name, name ∈ names ->
       lookup_column name (df_columns df1) = lookup_column name (df_columns df2).




(** ** Frames the simulator can run on *)

(** A frame with [n] index labels in which each of the columns listed is a
    float column with one cell per label. *)
Definition float_columns (n : nat) (names : list string) (df : DataFrame)
  : Prop :=
  length (df_index df) = n
  /\ forall name, name ∈ names ->
       exists cells, lookup_column name (df_columns df) = Some (Floats cells)
                     /\ length cells = n.

(** A frame as the band estimator returns it on a series with at least one
    value: the values, the mean and the two bands, one cell per date. *)
Definition band_frame (df : DataFrame) : Prop :=
  df_index df <> [] /\ float_columns (len df) band_columns df.

(** What the loop of the simulator relies on when it reaches index [i] of a
    frame of [n] dates: the columns it reads are float columns of length [n],
    the log has one record per index visited, and [units_traded] is bound
    while a position is open. *)
Definition trade_ready (n : nat) (st : state) (i : nat) : Prop :=
  float_columns n (band_columns ++ ["total_trade_pnl"%string]) (frame st)
  /\ length (trade_logs st) = i
  /\ (current_position st = None
      \/ ((current_position st = Some "short"%string
           \/ current_position st = Some "long"%string)
          /\ is_Some (units_traded st))).

(** ** Sample inputs *)

(** Price tables and weight maps. *)
Module Samples.

(** No record at all (a CSV file with its header line only). *)
Definition header_only : PriceFrame :=
  {| columns := ["A"%string]; rows := [] |}.

(** One instrument, one record. *)
Definition one_day : PriceFrame :=
  {| columns := ["A"%string];
     rows := [("2024-01-02"%string, fun _ => 100)] |}.

(** One instrument, two records. *)
Definition two_days : PriceFrame :=
  {| columns := ["A"%string];
     rows := [("2024-01-02"%string, fun _ => 100);
              ("2024-01-03"%string, fun _ => 110)] |}.

Definition only_A : dict := [("A"%string, 1)].

(** Half of the weight on an instrument the table has no column for. *)
Definition A_and_missing_B : dict := [("A"%string, 0.5); ("B"%string, 0.5)].

(** Two instruments over three days: [A] doubles on the second day, [B] on
    the third. *)
Definition three_days : PriceFrame :=
  {| columns := ["A"; "B"]%string;
     rows := [("2024-01-02"%string, fun _ => 100);
              ("2024-01-03"%string,
               fun stock => if decide (stock = "A"%string) then 200 else 100);
              ("2024-01-04"%string, fun _ => 200)] |}.

Definition A_and_B : dict := [("A"%string, 0.5); ("B"%string, 0.5)].

End Samples.

(** Value series. *)
Module ValueSamples.

Definition flat_then_up : Series :=
  [("2024-01-02"%string, 0); ("2024-01-03"%string, 3)].

Definition one_two : Series :=
  [("2024-01-02"%string, 1); ("2024-01-03"%string, 2)].

End ValueSamples.

(** Frames of values and bands. *)
Module TradeSamples.

(** Four days: the second value is above the upper band, the third below
    the mean, the fourth inside the bands. *)
Definition short_then_cover : DataFrame :=
  {| df_index := ["2024-01-02"; "2024-01-03"; "2024-01-04"; "2024-01-05"]%string;
     df_columns :=
       [("portfolio_value"%string, Floats [Some 100; Some 160; Some 95; Some 130]);
        ("ewma"%string, Floats [Some 100; Some 130; Some 110; Some 120]);
        ("bollinger_upper"%string, Floats [NaN; Some 150; Some 200; Some 200]);
        ("bollinger_lower"%string, Floats [NaN; Some 50; Some 0; Some 0])] |}.

(** The first two days of the same frame: the series ends on the entry. *)
Definition still_short : DataFrame :=
  {| df_index := ["2024-01-02"; "2024-01-03"]%string;
     df_columns :=
       [("portfolio_value"%string, Floats [Some 100; Some 160]);
        ("ewma"%string, Floats [Some 100; Some 130]);
        ("bollinger_upper"%string, Floats [NaN; Some 150]);
        ("bollinger_lower"%string, Floats [NaN; Some 50])] |}.

(** A frame whose bands start on the third day, where the value is above the
    upper band. *)
Definition warm_up : DataFrame :=
  {| df_index := ["2024-01-02"; "2024-01-03"; "2024-01-04"]%string;
     df_columns :=
       [("portfolio_value"%string, Floats [Some 100; Some 160; Some 170]);
        ("ewma"%string, Floats [Some 100; Some 130; Some 140]);
        ("bollinger_upper"%string, Floats [NaN; NaN; Some 150]);
        ("bollinger_lower"%string, Floats [NaN; NaN; Some 50])] |}.

End TradeSamples.

(** ** Callers of the orchestrator *)

(** [load_data]: the global [tickers] becomes the column labels of the table
    read from [file_path]. *)
Definition load_data (loaded : PriceFrame) : list string := columns loaded.

(** [list.remove(x)]: the first occurrence goes, [ValueError] when there is
    none. *)
Fixpoint list_remove (x : string) (l : list string) : result (list string) :=
  match l with
  | [] => Err ValueError
  | y :: l' =>
      if decide (y = x) then Ok l'
      else l'' ← list_remove x l'; Ok (y :: l'')
  end.

(** [csv_weighted_portfolio], on the table read from [file_path] ([loaded])
    and the table [index_compiler] reads ([df]).  The print is left out. *)
Definition csv_weighted_portfolio
    (loaded df : PriceFrame) (weights : dict)
    (halflife_days : nat) (initial_investment : R)
  : result (list (DataFrame * dict * string)) :=
  let tickers := load_data loaded in
  tickers_adjusted ← list_remove "SPY" tickers;
  let equal_weights := weights in
  equal_portfolio_rebalanced ←
    index_compiler df equal_weights
      "Equally Weighted Portfolio (Rebalanced Daily)"
      halflife_days initial_investment true 1;
  equal_portfolio_no_rebalancing ←
    index_compiler df equal_weights
      "Equally Weighted Portfolio (No Rebalancing)"
      halflife_days initial_investment false 1;
  equal_portfolio_rebalanced_weekly ←
    index_compiler df equal_weights
      "Equally Weighted Portfolio (Rebalanced Weekly)"
      halflife_days initial_investment true 5;
  Ok [equal_portfolio_rebalanced_weekly].

(** [individual_stock_prep_plot]: one portfolio per ticker, all of the
    weight on it, rebalanced at the default frequency of 1. *)
Definition individual_stock_prep_plot
    (df : PriceFrame) (tickers_recieved : list string)
    (halflife_days : nat) (initial_investment : R)
  : result (list (DataFrame * dict * string)) :=
  mapM (fun ticker =>
          let indv_dict := [(ticker, 1)] in
          index_compiler df indv_dict ticker halflife_days initial_investment
                         true 1)
       tickers_recieved.

(** ** Markers and ticks of the PnL chart *)

(** One call of [plt.scatter] in [plot_returns]. *)
Record scatter : Type := {
  sc_x : string;
  sc_y : float;
  sc_color : string;
  sc_marker : string;
  sc_label : string
}.

(** The trade type a marker is drawn for: its colour, its marker and its
    legend label; [None] for any other type. *)
Definition marker_style (trade_type : string) : option (string * string * string) :=
  if decide (trade_type = "long_entry"%string)
  then Some ("blue", "^", "Open Long")%string
  else if decide (trade_type = "long_exit"%string)
  then Some ("orange", "v", "Close Long")%string
  else if decide (trade_type = "short_entry"%string)
  then Some ("green", "^", "Open Short")%string
  else if decide (trade_type = "short_exit"%string)
  then Some ("red", "v", "Close Short")%string
  else None.

(** The loop over [trade_logs] that draws the markers: a label is given to
    the first marker of its kind and the empty string to the later ones;
    [used_labels] is the set of labels given so far. *)
Fixpoint trade_markers (used_labels : list string) (trade_logs : list TradeRecord)
  : list scatter :=
  match trade_logs with
  | [] => []
  | r :: trade_logs' =>
      match marker_style (trade_type r) with
      | Some (color, marker, label) =>
          {| sc_x := trade_date r; sc_y := total_trade_pnl r;
             sc_color := color; sc_marker := marker;
             sc_label := if decide (label ∈ used_labels) then ""%string else label |}
          :: trade_markers (label :: used_labels) trade_logs'
      | None => trade_markers used_labels trade_logs'
      end
  end.

(** [range(0, stop, step)] for a step that is not negative: [ValueError]
    when the step is 0. *)
Definition py_range (stop step : nat) : result (list nat) :=
  if (step =? 0)%nat then Err ValueError
  else Ok (map (fun j => (j * step)%nat) (seq 0 ((stop + step - 1) / step))).

(** The ticks of [plt.xticks]:
    [range(0, len(pnl_dates), max(1, len(pnl_dates) // 10))]. *)
Definition xticks (pnl_dates : list string) : result (list nat) :=
  py_range (length pnl_dates) (Nat.max 1 (length pnl_dates / 10)).

(** ** Counting and scaling *)

(** The records of a log with a given trade type. *)
Definition count_type (tag : string) (logs : list TradeRecord) : nat :=
  length (List.filter (fun r => bool_decide (trade_type r = tag)) logs).

(** A dict with every value multiplied by [k]. *)
Definition scale_dict (k : R) (d : dict) : dict :=
  map (fun '(key, v) => (key, k * v)) d.

(** The weights of the instruments that have a column in the table. *)
Definition retained_weights (df : PriceFrame) (weights : dict) : dict :=
  List.filter (fun '(stock, _) => bool_decide (stock ∈ columns df)) weights.

(** A function applied to what a computation returns; the exception, when
    it raises, stays as it is. *)
Definition on_ok {A B} (f : A -> B) (r : result A) : result B :=
  match r with
  | Ok a => Ok (f a)
  | Err e => Err e
  end.

(** A series with every value multiplied by [k]. *)
Definition scale_series (k : R) (values : Series) : Series :=
  map (fun '(date, v) => (date, k * v)) values.

(** * Verification *)

(** ** The result monad *)

Lemma bind_Ok {A B} (a : A) (k : A -> result B) : (Ok a ≫= k) = k a.
Proof. reflexivity. Qed.


Lemma mapM_Ok {A B} (f : A -> result B) (g : A -> B) (l : list A) :
  (forall x, x ∈ l -> f x = Ok (g x)) -> mapM f l = Ok (map g l).
Proof.
  induction l as [|x l IH]; intros Hf; simpl; [reflexivity|].
  rewrite (Hf x) by apply list_elem_of_here. simpl.
  rewrite IH; [reflexivity|].
  intros y Hy. apply Hf. now apply list_elem_of_further.
Qed.

(** ** The validation of the weights *)

(** The weights are returned, rescaled when their total is not 1, unless
    the total is 0 and there is a weight to divide. *)
Lemma normalised_weights_Ok (weights : dict) :
  weights = [] \/ Py.sum (map snd weights) <> 0 ->
  normalised_weights weights
  = Ok (if Req_dec_T (Py.sum (map snd weights)) 1 then weights
        else map (fun '(ticker, weight) =>
                    (ticker, weight / Py.sum (map snd weights))) weights).
Proof.
  intros H. unfold normalised_weights. cbv zeta.
  destruct (Req_dec_T _ 1) as [|Hone]; [reflexivity|].
  destruct H as [->|Hsum]; [reflexivity|].
  apply mapM_Ok. intros [ticker weight] _. unfold truediv.
  now destruct (Req_dec_T _ 0).
Qed.

Lemma normalised_weights_Err (weights : dict) :
  weights <> [] -> Py.sum (map snd weights) = 0 ->
  normalised_weights weights = Err ZeroDivisionError.
Proof.
  intros Hne Hsum. unfold normalised_weights. cbv zeta. rewrite Hsum.
  destruct (Req_dec_T 0 1) as [|_]; [lra|].
  destruct weights as [|[ticker weight] weights]; [congruence|].
  simpl. unfold truediv. now destruct (Req_dec_T 0 0).
Qed.

(** ** Retained instruments *)

Lemma retained_in_columns df weights inv stock alloc :
  (stock, alloc) ∈ initial_investment_per_stock df weights inv ->
  stock ∈ columns df.
Proof.
  unfold initial_investment_per_stock. rewrite list_elem_of_omap.
  intros [[s w] [_ Hsw]]. destruct (decide (s ∈ columns df)); [|discriminate].
  now injection Hsw as -> _.
Qed.

Lemma getitem_Ok df prices stock :
  stock ∈ columns df -> getitem df prices stock = Ok (prices stock).
Proof. intros H. unfold getitem. now rewrite decide_True. Qed.

(** With a first record, the initial shares are the allocations divided by
    the first prices. *)
Lemma initial_shares_cons df weights inv d0 p0 rest :
  rows df = (d0, p0) :: rest ->
  initial_shares df weights inv =
  Ok (map (fun '(stock, alloc) => (stock, alloc / p0 stock))
          (initial_investment_per_stock df weights inv)).
Proof.
  intros Hrows. unfold initial_shares. apply mapM_Ok.
  intros [stock alloc] Hin. unfold iloc0. rewrite Hrows.
  rewrite getitem_Ok by eauto using retained_in_columns. reflexivity.
Qed.

Lemma holdings_value_retained df prices (held : dict) :
  (forall stock n, (stock, n) ∈ held -> stock ∈ columns df) ->
  holdings_value df prices held =
  Ok (Py.sum (map (fun '(stock, n) => prices stock * n) held)).
Proof.
  intros Hcols. unfold holdings_value.
  rewrite (mapM_Ok _ (fun '(stock, n) => prices stock * n)); [reflexivity|].
  intros [stock n] Hin. rewrite getitem_Ok by eauto. reflexivity.
Qed.

(** The loop with frequency 0 keeps its shares and values every record. *)
Lemma rebalancing_loop_0 df weights (held : dict) todo : forall values,
  (forall stock n, (stock, n) ∈ held -> stock ∈ columns df) ->
  rebalancing_loop df weights 0 values held todo =
  Ok (values ++
      map (fun '(_, (_, prices)) =>
             Py.sum (map (fun '(stock, n) => prices stock * n) held)) todo,
      held).
Proof.
  induction todo as [|[i [date prices]] todo IH]; intros values Hcols; simpl.
  - now rewrite app_nil_r.
  - unfold rebalancing_step.
    rewrite holdings_value_retained by assumption. simpl.
    rewrite IH by assumption. now rewrite <- app_assoc.
Qed.

Lemma no_rebalancing_cons df weights inv d0 p0 rest :
  rows df = (d0, p0) :: rest ->
  calculate_portfolio_value_no_rebalancing df weights inv =
  Ok (combine (index df)
        (map (fun '(_, prices) =>
                Py.sum (map (fun '(stock, alloc) =>
                              prices stock * (alloc / p0 stock))
                            (initial_investment_per_stock df weights inv)))
             (rows df))).
Proof.
  intros Hrows. unfold calculate_portfolio_value_no_rebalancing.
  erewrite mapM_Ok; [reflexivity|].
  intros [date prices] _.
  erewrite (mapM_Ok _ (fun '(stock, alloc) => prices stock * (alloc / p0 stock)));
    [reflexivity|].
  intros [stock alloc] Hin. unfold iloc0. rewrite Hrows.
  rewrite !getitem_Ok by eauto using retained_in_columns. reflexivity.
Qed.

Lemma map_enumerate {A B} (f : A -> B) (l : list A) :
  map (fun '(_, x) => f x) (enumerate l) = map f l.
Proof.
  unfold enumerate. generalize 0%nat.
  induction l as [|x l IH]; intros n; simpl; [reflexivity|].
  now rewrite IH.
Qed.

Lemma with_rebalancing_0_cons df weights inv d0 p0 rest :
  rows df = (d0, p0) :: rest ->
  calculate_portfolio_value_with_rebalancing df weights inv 0 =
  calculate_portfolio_value_no_rebalancing df weights inv.
Proof.
  intros Hrows.
  rewrite (no_rebalancing_cons _ _ _ _ _ _ Hrows).
  unfold calculate_portfolio_value_with_rebalancing.
  rewrite (initial_shares_cons _ _ _ _ _ _ Hrows). simpl.
  rewrite rebalancing_loop_0.
  - simpl. do 2 f_equal.
    rewrite (map_enumerate (fun '(_, prices) => Py.sum _)).
    apply map_ext. intros [date prices]. f_equal.
    rewrite map_map. apply map_ext. now intros [stock alloc].
  - intros stock n. rewrite list_elem_of_fmap.
    intros [[s a] [[= -> ->] Hin]]. eauto using retained_in_columns.
Qed.

(** ** Periodic rebalancing with frequency 0 against no rebalancing *)

(** A table without records is outside the contract of the valuation.  On
    one the two functions part: the initial shares of the rebalancing
    valuation read the first price of every retained instrument before the
    loop starts and raise [IndexError], while the valuation without
    rebalancing reads it inside the loop, never runs the loop, and returns
    the empty series. *)
Lemma frequency_0_differs_without_records :
  calculate_portfolio_value_with_rebalancing
    Samples.header_only Samples.only_A 1000 0 = Err IndexError
  /\ calculate_portfolio_value_no_rebalancing
       Samples.header_only Samples.only_A 1000 = Ok [].
Proof. split; reflexivity. Qed.

(** C2: on every price table the valuation accepts (at least one record;
    also on any table when no instrument is retained), for every weight map
    and initial investment, the valuation with rebalancing frequency 0
    returns the same series, entry for entry and date for date, as the
    valuation without rebalancing; and [index_compiler] returns the same
    under periodic rebalancing with frequency 0 as without rebalancing. *)
Theorem frequency_0_is_no_rebalancing df weights initial_investment :
  rows df <> [] \/ initial_investment_per_stock df weights initial_investment = [] ->
  (exists values : Series,
     calculate_portfolio_value_no_rebalancing df weights initial_investment
       = Ok values
     /\ calculate_portfolio_value_with_rebalancing df weights initial_investment 0
       = Ok values
     /\ map fst values = index df)
  /\ (rows df <> [] ->
      forall title halflife_days frequency,
        index_compiler df weights title halflife_days initial_investment true 0
        = index_compiler df weights title halflife_days initial_investment
                         false frequency).
Proof.
  intros H. split.
  - destruct (rows df) as [|[d0 p0] rest] eqn:Hrows.
    + destruct H as [H|H]; [congruence|].
      exists []. unfold calculate_portfolio_value_with_rebalancing, initial_shares,
        calculate_portfolio_value_no_rebalancing, index, enumerate.
      rewrite H, Hrows. repeat split; reflexivity.
    + rewrite (with_rebalancing_0_cons _ _ _ _ _ _ Hrows).
      rewrite (no_rebalancing_cons _ _ _ _ _ _ Hrows).
      eexists. repeat split.
      apply (fst_zip (index df)). unfold index. now rewrite !length_map.
  - intros Hne title halflife_days frequency.
    destruct (rows df) as [|[d0 p0] rest] eqn:Hrows; [congruence|].
    unfold index_compiler.
    destruct (normalised_weights weights) as [weights'|e]; [|reflexivity].
    rewrite !bind_Ok.
    now rewrite (with_rebalancing_0_cons _ _ _ _ _ _ Hrows).
Qed.

Lemma frequency_0_is_no_rebalancing_witness :
  (exists values : Series,
     calculate_portfolio_value_no_rebalancing
       Samples.two_days Samples.only_A 1000 = Ok values
     /\ calculate_portfolio_value_with_rebalancing
          Samples.two_days Samples.only_A 1000 0 = Ok values
     /\ map fst values = index Samples.two_days)
  /\ (rows Samples.two_days <> [] ->
      forall title halflife_days frequency,
        index_compiler Samples.two_days Samples.only_A title halflife_days
                       1000 true 0
        = index_compiler Samples.two_days Samples.only_A title halflife_days
                         1000 false frequency).
Proof.
  apply frequency_0_is_no_rebalancing. left. discriminate.
Defined.

(** ** Short price tables *)

Lemma rebalance_due_first f : rebalance_due f 0 = false.
Proof. unfold rebalance_due. simpl. now rewrite andb_false_r. Qed.

(** Any table with exactly one record is valued, under either policy. *)
Lemma single_record_value
    df weights initial_investment rebalance_frequency d0 p0 :
  rows df = [(d0, p0)] ->
  exists v : R,
    calculate_portfolio_value_no_rebalancing df weights initial_investment
      = Ok [(d0, v)]
    /\ calculate_portfolio_value_with_rebalancing
         df weights initial_investment rebalance_frequency = Ok [(d0, v)].
Proof.
  intros Hrows.
  rewrite (no_rebalancing_cons _ _ _ _ _ _ Hrows).
  unfold calculate_portfolio_value_with_rebalancing.
  rewrite (initial_shares_cons _ _ _ _ _ _ Hrows).
  unfold index, enumerate. rewrite Hrows. simpl. unfold rebalancing_step.
  rewrite holdings_value_retained.
  - rewrite rebalance_due_first. simpl. eexists. split; [reflexivity|].
    do 4 f_equal. rewrite map_map. apply map_ext. now intros [stock alloc].
  - intros stock n. rewrite list_elem_of_fmap.
    intros [[s a] [[= -> ->] Hin]]. eauto using retained_in_columns.
Qed.

(** ** Rebalancing and instruments without a price column *)

(** C3 at a weight map that names an instrument the table has no column for:
    the initial allocation leaves the instrument out, and so does every run
    that never rebalances, but the first rebalance iterates over the whole
    weight map and raises [KeyError] on that instrument. *)
Theorem rebalance_keeps_missing_instrument :
  initial_investment_per_stock Samples.two_days Samples.A_and_missing_B 1000
    = [("A"%string, 1000 * 0.5)]
  /\ (exists values,
        calculate_portfolio_value_with_rebalancing
          Samples.two_days Samples.A_and_missing_B 1000 0 = Ok values)
  /\ calculate_portfolio_value_with_rebalancing
       Samples.two_days Samples.A_and_missing_B 1000 1
     = Err (KeyError "B").
Proof.
  split; [reflexivity|]. split; [eexists; reflexivity|]. reflexivity.
Qed.

(** ** Value carried through a rebalance *)

Lemma fold_left_Rplus (l : list R) (a : R) :
  fold_left Rplus l a = a + fold_left Rplus l 0.
Proof.
  revert a. induction l as [|x l IH]; intros a; simpl; [lra|].
  rewrite (IH (a + x)), (IH (0 + x)). lra.
Qed.

Lemma sum_cons (x : R) (l : list R) : Py.sum (x :: l) = x + Py.sum l.
Proof. unfold Py.sum. simpl. rewrite fold_left_Rplus. lra. Qed.

Lemma sum_rebalanced (prices : string -> R) (v : R) (weights : dict) :
  (forall stock w, (stock, w) ∈ weights -> prices stock <> 0) ->
  Py.sum (map (fun '(stock, w) => prices stock * (v * w / prices stock)) weights)
  = v * Py.sum (map snd weights).
Proof.
  induction weights as [|[stock w] weights IH]; intros Hp; simpl.
  - unfold Py.sum. simpl. lra.
  - rewrite !sum_cons, IH.
    + assert (prices stock <> 0) by (apply (Hp stock w), list_elem_of_here).
      simpl. field. assumption.
    + intros s w' Hin. apply (Hp s w'). now apply list_elem_of_further.
Qed.

Lemma rebalance_Ok df weights prices v :
  (forall stock w, (stock, w) ∈ weights -> stock ∈ columns df) ->
  rebalance df weights prices v
  = Ok (map (fun '(stock, w) => (stock, v * w / prices stock)) weights).
Proof.
  intros Hcols. unfold rebalance.
  rewrite (mapM_Ok _ (fun '(stock, alloc) => (stock, alloc / prices stock))).
  - rewrite map_map. f_equal. apply map_ext. now intros [stock w].
  - intros [stock alloc]. rewrite list_elem_of_fmap.
    intros [[s w] [[= -> ->] Hin]]. rewrite getitem_Ok by eauto. reflexivity.
Qed.

Lemma rebalancing_step_Ok df weights f (held : dict) i prices :
  (forall stock w, (stock, w) ∈ weights -> stock ∈ columns df) ->
  (forall stock n, (stock, n) ∈ held -> stock ∈ columns df) ->
  let v := Py.sum (map (fun '(stock, n) => prices stock * n) held) in
  let held' := if rebalance_due f i
               then map (fun '(stock, w) => (stock, v * w / prices stock)) weights
               else held in
  rebalancing_step df weights f held i prices = Ok (v, held')
  /\ (forall stock n, (stock, n) ∈ held' -> stock ∈ columns df).
Proof.
  intros Hw Hheld v held'. unfold rebalancing_step.
  rewrite holdings_value_retained by assumption. simpl. fold v.
  subst held'. destruct (rebalance_due f i).
  - rewrite rebalance_Ok by assumption. split; [reflexivity|].
    intros s n. rewrite list_elem_of_fmap.
    intros [[s' w] [[= -> ->] Hin]]. eauto.
  - split; [reflexivity|assumption].
Qed.

Lemma rebalancing_loop_app df weights f todo1 todo2 : forall values held,
  rebalancing_loop df weights f values held (todo1 ++ todo2)
  = ('(values', held') ← rebalancing_loop df weights f values held todo1;
     rebalancing_loop df weights f values' held' todo2).
Proof.
  induction todo1 as [|[i [date prices]] todo1 IH]; intros values held;
    [reflexivity|].
  simpl. destruct (rebalancing_step df weights f held i prices) as [[v h]|e];
    [apply IH|reflexivity].
Qed.

(** With every weighted instrument among the columns the loop never raises:
    it appends one value per record, the first of them the value of the
    shares it starts from. *)
Lemma rebalancing_loop_Ok df weights f todo : forall values (held : dict),
  (forall stock w, (stock, w) ∈ weights -> stock ∈ columns df) ->
  (forall stock n, (stock, n) ∈ held -> stock ∈ columns df) ->
  exists vs held',
    rebalancing_loop df weights f values held todo = Ok (values ++ vs, held')
    /\ length vs = length todo
    /\ (forall i date prices todo',
          todo = (i, (date, prices)) :: todo' ->
          vs !! 0%nat
          = Some (Py.sum (map (fun '(stock, n) => prices stock * n) held))).
Proof.
  induction todo as [|[i [date prices]] todo IH]; intros values held Hw Hheld.
  - exists [], held. rewrite app_nil_r. repeat split. discriminate.
  - destruct (rebalancing_step_Ok df weights f held i prices Hw Hheld)
      as [Hstep Hheld'].
    simpl. rewrite Hstep. simpl.
    destruct (IH (values ++ [Py.sum (map (fun '(stock, n) => prices stock * n) held)])
                 _ Hw Hheld') as (vs & held'' & Hloop & Hlen & _).
    eexists (_ :: vs), held''. rewrite Hloop, <- app_assoc. simpl.
    repeat split; [now rewrite Hlen|].
    now intros ? ? ? ? [= <- <- <- <-].
Qed.

Lemma enumerate_app {A} (l1 l2 : list A) :
  enumerate (l1 ++ l2)
  = enumerate l1 ++ combine (seq (length l1) (length l2)) l2.
Proof.
  unfold enumerate. rewrite length_app, seq_app.
  change (@combine nat A) with (@zip_with nat A _ pair).
  rewrite zip_with_app by now rewrite length_seq. reflexivity.
Qed.


(** The values the two policies give [Samples.three_days]: the rebalance at
    the second record changes the value of the third. *)
Lemma three_days_values :
  exists v0 v1 v2 v2',
    calculate_portfolio_value_with_rebalancing
      Samples.three_days Samples.A_and_B 1000 1
    = Ok [("2024-01-02"%string, v0); ("2024-01-03"%string, v1);
          ("2024-01-04"%string, v2)]
    /\ calculate_portfolio_value_no_rebalancing
         Samples.three_days Samples.A_and_B 1000
       = Ok [("2024-01-02"%string, v0); ("2024-01-03"%string, v1);
             ("2024-01-04"%string, v2')]
    /\ v0 = 1000 /\ v1 = 1500 /\ v2 = 2250 /\ v2' = 2000.
Proof.
  eexists _, _, _, _. split; [reflexivity|]. split.
  - unfold calculate_portfolio_value_no_rebalancing. simpl.
    repeat f_equal; unfold Py.sum; simpl; lra.
  - unfold Py.sum. simpl. repeat split; lra.
Qed.



(** ** The frame of the band estimator *)

Lemma add_ewma_bollinger_bands_Ok portfolio_values halflife_days ewma :
  ewm_mean halflife_days (map snd portfolio_values) = Ok ewma ->
  add_ewma_bollinger_bands portfolio_values halflife_days =
  Ok {| df_index := map fst portfolio_values;
        df_columns :=
          let std_dev := rolling_std halflife_days (map snd portfolio_values) in
          [("portfolio_value"%string, Floats (map Some (map snd portfolio_values)));
           ("ewma"%string, Floats (map Some ewma));
           ("bollinger_upper"%string,
            Floats (zip_with fadd (map Some ewma) (map (fmul (Some 2)) std_dev)));
           ("bollinger_lower"%string,
            Floats (zip_with fsub (map Some ewma) (map (fmul (Some 2)) std_dev)))] |}.
Proof.
  intros Hewma. unfold add_ewma_bollinger_bands. rewrite Hewma. reflexivity.
Qed.

Lemma ewm_scan_length alpha weighted old_wt vals :
  length (ewm_scan alpha weighted old_wt vals) = length vals.
Proof.
  revert weighted old_wt. induction vals as [|cur vals IH]; intros; simpl;
    [reflexivity|now rewrite IH].
Qed.

Lemma ewm_mean_Ok halflife vals :
  (0 < halflife)%nat ->
  exists ewma, ewm_mean halflife vals = Ok ewma /\ length ewma = length vals.
Proof.
  intros Hh. unfold ewm_mean.
  destruct (Nat.eqb_spec halflife 0) as [->|_]; [lia|].
  eexists. split; [reflexivity|].
  destruct vals; simpl; [reflexivity|now rewrite ewm_scan_length].
Qed.

Lemma rolling_std_length window vals :
  length (rolling_std window vals) = length vals.
Proof. unfold rolling_std. now rewrite length_map, length_seq. Qed.

(** C7, as stated, fails: the estimator drops the [std_dev] column before it
    returns, so the frame handed to the caller has no rolling standard
    deviation. *)
Lemma returned_bands_lack_std_dev :
  exists df,
    add_ewma_bollinger_bands ValueSamples.one_two 2 = Ok df
    /\ get_floats "std_dev" df = Err (KeyError "std_dev").
Proof. eexists. split; reflexivity. Qed.

(** C7 (amended): for every value series and positive halflife, the frame
    returned by the band estimator has the dates of the series as its index
    and exactly the float columns [portfolio_value], [ewma],
    [bollinger_upper] and [bollinger_lower], each with one cell per date;
    the rolling standard deviation is not among them. *)
Theorem returned_bands_columns portfolio_values halflife_days :
  (0 < halflife_days)%nat ->
  exists df,
    add_ewma_bollinger_bands portfolio_values halflife_days = Ok df
    /\ df_index df = map fst portfolio_values
    /\ map fst (df_columns df)
       = ["portfolio_value"; "ewma"; "bollinger_upper"; "bollinger_lower"]%string
    /\ (forall name, name ∈ map fst (df_columns df) ->
        exists cells, get_floats name df = Ok cells
                      /\ length cells = length portfolio_values)
    /\ get_floats "std_dev" df = Err (KeyError "std_dev").
Proof.
  intros Hh.
  destruct (ewm_mean_Ok halflife_days (map snd portfolio_values) Hh)
    as (ewma & Hewma & Hlen).
  rewrite length_map in Hlen.
  rewrite (add_ewma_bollinger_bands_Ok _ _ _ Hewma).
  eexists. split; [reflexivity|]. split; [reflexivity|].
  split; [reflexivity|]. split; [|reflexivity].
  intros name Hname. simpl in Hname.
  assert (Hzip : forall f : float -> float -> float,
    length (zip_with f (map Some ewma)
              (map (fmul (Some 2))
                 (rolling_std halflife_days (map snd portfolio_values))))
    = length portfolio_values).
  { intros f. rewrite length_zip_with, !length_map, rolling_std_length,
      length_map. lia. }
  rewrite !elem_of_cons, elem_of_nil in Hname.
  destruct Hname as [->|[->|[->|[->|[]]]]];
    eexists; (split; [reflexivity|]); rewrite ?length_map; auto.
Qed.

Lemma returned_bands_columns_witness :
  exists df,
    add_ewma_bollinger_bands ValueSamples.one_two 2 = Ok df
    /\ df_index df = map fst ValueSamples.one_two
    /\ map fst (df_columns df)
       = ["portfolio_value"; "ewma"; "bollinger_upper"; "bollinger_lower"]%string
    /\ (forall name, name ∈ map fst (df_columns df) ->
        exists cells, get_floats name df = Ok cells
                      /\ length cells = length ValueSamples.one_two)
    /\ get_floats "std_dev" df = Err (KeyError "std_dev").
Proof. apply (returned_bands_columns ValueSamples.one_two 2). lia. Defined.

(** ** Tables with a single record *)

(** C5, as stated, fails: a table with a single record is valued, not
    rejected.  Nothing in the valuation counts the records. *)
Lemma single_record_returns_series :
  exists v : R,
    calculate_portfolio_value_no_rebalancing
      Samples.one_day Samples.only_A 1000 = Ok [("2024-01-02"%string, v)]
    /\ v = 1000.
Proof.
  eexists. split; [reflexivity|]. unfold Py.sum. simpl. lra.
Qed.

(** C5 (amended): on every price table with exactly one record the valuation
    does not fail: without rebalancing and with rebalancing at any frequency
    it returns the same series of exactly one entry, dated at that record.
    [index_compiler] then returns a frame of bands with that one date, for
    every positive halflife, whenever the weight map is empty or does not
    sum to 0; when a weight map that is not empty sums to 0 it raises
    [ZeroDivisionError], from the validation of the weights and not from
    the number of records. *)
Theorem single_record_is_valued
    df weights initial_investment rebalance_frequency d0 p0 :
  rows df = [(d0, p0)] ->
  (exists v : R,
     calculate_portfolio_value_no_rebalancing df weights initial_investment
       = Ok [(d0, v)]
     /\ calculate_portfolio_value_with_rebalancing
          df weights initial_investment rebalance_frequency = Ok [(d0, v)])
  /\ forall title halflife_days rebalance,
       (0 < halflife_days)%nat ->
       (weights = [] \/ Py.sum (map snd weights) <> 0 ->
        exists bands weights',
          index_compiler df weights title halflife_days initial_investment
                         rebalance rebalance_frequency
          = Ok (bands, weights', title)
          /\ df_index bands = [d0])
       /\ (weights <> [] -> Py.sum (map snd weights) = 0 ->
           index_compiler df weights title halflife_days initial_investment
                          rebalance rebalance_frequency
           = Err ZeroDivisionError).
Proof.
  intros Hrows. split; [now apply (single_record_value _ _ _ _ _ p0)|].
  intros title halflife_days rebalance Hh. unfold index_compiler. split.
  - intros Hweights. rewrite (normalised_weights_Ok weights Hweights), bind_Ok.
    set (weights' := if Req_dec_T _ 1 then _ else _).
    destruct (single_record_value df weights' initial_investment
                rebalance_frequency d0 p0 Hrows) as (v & Hno & Hwith).
    assert (Hvalued :
      (if rebalance
       then calculate_portfolio_value_with_rebalancing
              df weights' initial_investment rebalance_frequency
       else calculate_portfolio_value_no_rebalancing
              df weights' initial_investment) = Ok [(d0, v)])
      by now destruct rebalance.
    rewrite Hvalued, bind_Ok.
    destruct (ewm_mean_Ok halflife_days (map snd [(d0, v)]) Hh)
      as (ewma & Hewma & _).
    rewrite (add_ewma_bollinger_bands_Ok _ _ _ Hewma).
    eexists. exists weights'. split; reflexivity.
  - intros Hne Hsum. now rewrite (normalised_weights_Err weights Hne Hsum).
Qed.

Lemma single_record_is_valued_witness :
  (exists v : R,
     calculate_portfolio_value_no_rebalancing
       Samples.one_day Samples.only_A 1000 = Ok [("2024-01-02"%string, v)]
     /\ calculate_portfolio_value_with_rebalancing
          Samples.one_day Samples.only_A 1000 5 = Ok [("2024-01-02"%string, v)])
  /\ forall title halflife_days rebalance,
       (0 < halflife_days)%nat ->
       exists bands weights',
         index_compiler Samples.one_day Samples.only_A title halflife_days
                        1000 rebalance 5
         = Ok (bands, weights', title)
         /\ df_index bands = ["2024-01-02"%string].
Proof.
  destruct (single_record_is_valued Samples.one_day Samples.only_A 1000 5
              "2024-01-02"%string (fun _ => 100) eq_refl) as [Hvalued Hbands].
  split; [exact Hvalued|].
  intros title halflife_days rebalance Hh.
  apply (proj1 (Hbands title halflife_days rebalance Hh)).
  right. unfold Py.sum. simpl. lra.
Defined.

(** ** Rolling standard deviation and bands *)

Lemma rolling_std_lookup window vals t :
  (t < length vals)%nat ->
  rolling_std window vals !! t
  = Some (if (S t <? window)%nat then NaN
          else sample_std (take window (drop (S t - window) vals))).
Proof.
  intros Ht. unfold rolling_std.
  rewrite list_lookup_fmap, lookup_seq_lt by assumption. reflexivity.
Qed.

Lemma sample_std_NaN window : sample_std window = NaN <-> (length window <= 1)%nat.
Proof.
  unfold sample_std. destruct (Nat.leb_spec (length window) 1); split;
    intros; try lia; auto; discriminate.
Qed.

(** The std is NaN exactly before the window fills, or at every index when
    the window is a single value. *)
Lemma rolling_std_NaN window vals t sd :
  (0 < window)%nat -> (t < length vals)%nat ->
  rolling_std window vals !! t = Some sd ->
  sd = NaN <-> (window = 1 \/ t < window - 1)%nat.
Proof.
  intros Hw Ht. rewrite rolling_std_lookup by assumption. intros [= <-].
  destruct (Nat.ltb_spec (S t) window) as [Hlt|Hge].
  - split; [lia|reflexivity].
  - rewrite sample_std_NaN, length_take, length_drop. lia.
Qed.

(** C6, as stated, fails for a halflife of 1: the window then holds a single
    value, whose sample standard deviation does not exist, so the std and
    both bands are NaN at every index, index 0 = halflife - 1 included. *)
Lemma halflife_1_never_defines_std :
  rolling_std 1 (map snd ValueSamples.one_two) = [NaN; NaN]
  /\ exists df,
       add_ewma_bollinger_bands ValueSamples.one_two 1 = Ok df
       /\ loc df 0 "bollinger_upper" = Ok NaN
       /\ loc df 0 "bollinger_lower" = Ok NaN.
Proof. split; [reflexivity|]. eexists. repeat split; reflexivity. Qed.

(** C6 (amended): for every value series, positive halflife and index [t]
    of the series, the rolling standard deviation computed by the estimator
    is NaN (not zero) exactly when [t < halflife - 1] or [halflife = 1], and
    defined otherwise; the upper and lower bands of the returned frame are
    [ewma[t] + 2 * std[t]] and [ewma[t] - 2 * std[t]], NaN exactly when
    the std is NaN. *)
Theorem bands_follow_rolling_std portfolio_values halflife_days t :
  (0 < halflife_days)%nat -> (t < length portfolio_values)%nat ->
  exists df (e : R) (sd : float),
    add_ewma_bollinger_bands portfolio_values halflife_days = Ok df
    /\ rolling_std halflife_days (map snd portfolio_values) !! t = Some sd
    /\ (sd = NaN <-> (halflife_days = 1 \/ t < halflife_days - 1)%nat)
    /\ loc df t "ewma" = Ok (Some e)
    /\ loc df t "bollinger_upper"
       = Ok (match sd with Some s => Some (e + 2 * s) | None => NaN end)
    /\ loc df t "bollinger_lower"
       = Ok (match sd with Some s => Some (e - 2 * s) | None => NaN end).
Proof.
  intros Hh Ht.
  destruct (ewm_mean_Ok halflife_days (map snd portfolio_values) Hh)
    as (ewma & Hewma & Hlen).
  rewrite length_map in Hlen.
  rewrite (add_ewma_bollinger_bands_Ok _ _ _ Hewma).
  destruct (lookup_lt_is_Some_2 ewma t) as [e He]; [lia|].
  assert (Hvals : (t < length (map snd portfolio_values))%nat)
    by now rewrite length_map.
  pose proof (rolling_std_lookup halflife_days _ _ Hvals) as Hsd.
  set (sd := if (S t <? halflife_days)%nat then NaN else _) in Hsd.
  assert (Hidx : is_Some (map fst portfolio_values !! t))
    by (apply lookup_lt_is_Some_2; now rewrite length_map).
  destruct Hidx as [d Hd].
  eexists. exists e, sd. split; [reflexivity|]. split; [exact Hsd|].
  split; [now apply (rolling_std_NaN _ _ _ _ Hh Hvals)|].
  unfold loc, get_floats. simpl. rewrite Hd. simpl.
  rewrite !lookup_zip_with, !list_lookup_fmap, He, Hsd. simpl.
  repeat split; destruct sd; reflexivity.
Qed.

Lemma bands_follow_rolling_std_witness :
  exists df (e : R) (sd : float),
    add_ewma_bollinger_bands ValueSamples.one_two 2 = Ok df
    /\ rolling_std 2 (map snd ValueSamples.one_two) !! 1%nat = Some sd
    /\ (sd = NaN <-> (2 = 1 \/ 1 < 2 - 1)%nat)
    /\ loc df 1 "ewma" = Ok (Some e)
    /\ loc df 1 "bollinger_upper"
       = Ok (match sd with Some s => Some (e + 2 * s) | None => NaN end)
    /\ loc df 1 "bollinger_lower"
       = Ok (match sd with Some s => Some (e - 2 * s) | None => NaN end).
Proof.
  apply (bands_follow_rolling_std ValueSamples.one_two 2 1); simpl; lia.
Defined.

(** ** Exponentially weighted mean *)

Lemma exp_pow_INR (x : R) (n : nat) : exp x ^ n = exp (INR n * x).
Proof.
  induction n as [|n IH].
  - simpl. rewrite Rmult_0_l, exp_0. reflexivity.
  - rewrite S_INR, Rmult_plus_distr_r, Rmult_1_l, exp_plus, <- IH.
    simpl. ring.
Qed.

(** The decay [1 - alpha] halves a weight every [halflife] steps. *)
Lemma halflife_decay (halflife : nat) :
  (0 < halflife)%nat ->
  0 < 1 - alpha_of_halflife halflife
  /\ (1 - alpha_of_halflife halflife) ^ halflife = 1 / 2.
Proof.
  intros Hh. unfold alpha_of_halflife.
  replace (1 - (1 - exp (ln (1 / 2) / INR halflife)))
    with (exp (ln (1 / 2) / INR halflife)) by ring.
  split; [apply exp_pos|].
  rewrite exp_pow_INR.
  replace (INR halflife * (ln (1 / 2) / INR halflife)) with (ln (1 / 2)).
  - apply exp_ln. lra.
  - field. apply not_0_INR. lia.
Qed.

Section WeightedMean.

Variable q : R.
Hypothesis q_pos : 0 < q.
Variable xs : list R.

Lemma weight_total_S t : weight_total q (S t) = 1 + q * weight_total q t.
Proof.
  unfold weight_total. rewrite decomp_sum by lia. simpl.
  rewrite scal_sum. f_equal. apply sum_eq. intros i _. ring.
Qed.

Lemma weight_total_pos t : 0 < weight_total q t.
Proof.
  induction t as [|t IH]; [unfold weight_total; simpl; lra|].
  rewrite weight_total_S. nra.
Qed.

Lemma weighted_total_S t :
  weighted_total q xs (S t) = nth (S t) xs 0 + q * weighted_total q xs t.
Proof.
  unfold weighted_total. rewrite decomp_sum by lia. simpl.
  rewrite scal_sum. f_equal; [ring|].
  apply sum_eq. intros i _. ring.
Qed.

(** The incremental scan of pandas computes the weighted means. *)
Lemma ewm_scan_weighted_mean (rest : list R) (k : nat) :
  drop (S k) xs = rest ->
  ewm_scan (1 - q) (weighted_mean q xs k) (weight_total q k) rest
  = map (weighted_mean q xs) (seq (S k) (length rest)).
Proof.
  revert k. induction rest as [|cur rest IH]; intros k Hdrop;
    [reflexivity|].
  assert (Hcur : nth (S k) xs 0 = cur).
  { rewrite nth_lookup.
    replace (xs !! S k) with (drop (S k) xs !! 0%nat)
      by (rewrite lookup_drop; f_equal; lia).
    now rewrite Hdrop. }
  assert (Hrest : drop (S (S k)) xs = rest).
  { replace (S (S k)) with (S k + 1)%nat by lia.
    rewrite <- drop_drop, Hdrop. reflexivity. }
  pose proof (weight_total_pos k) as Hk.
  pose proof (weight_total_pos (S k)) as HSk.
  assert (Hden : weight_total q k * (1 - (1 - q)) + 1 = weight_total q (S k))
    by (rewrite weight_total_S; ring).
  assert (Hnum : (weight_total q k * (1 - (1 - q)) * weighted_mean q xs k
                  + 1 * cur)
                 / (weight_total q k * (1 - (1 - q)) + 1)
                 = weighted_mean q xs (S k)).
  { rewrite Hden. unfold weighted_mean. rewrite weighted_total_S, Hcur.
    field. lra. }
  simpl. rewrite Hnum, Hden. f_equal. now apply IH.
Qed.

Lemma ewm_first_weighted_mean :
  weighted_mean q xs 0 = nth 0 xs 0 /\ weight_total q 0 = 1.
Proof.
  unfold weighted_mean, weighted_total, weight_total. simpl.
  split; [field|reflexivity].
Qed.

End WeightedMean.

Lemma ewm_mean_weighted_mean halflife vals :
  (0 < halflife)%nat ->
  ewm_mean halflife vals
  = Ok (map (weighted_mean (1 - alpha_of_halflife halflife) vals)
            (seq 0 (length vals))).
Proof.
  intros Hh. unfold ewm_mean.
  destruct (Nat.eqb_spec halflife 0) as [->|_]; [lia|].
  destruct vals as [|first rest]; [reflexivity|].
  destruct (halflife_decay halflife Hh) as [Hq _].
  set (q := 1 - alpha_of_halflife halflife) in *.
  destruct (ewm_first_weighted_mean q (first :: rest)) as [Hfirst Hone].
  simpl in Hfirst. simpl length. simpl seq. simpl map.
  rewrite Hfirst. do 2 f_equal.
  replace (alpha_of_halflife halflife) with (1 - q) by (unfold q; ring).
  rewrite <- Hfirst at 1. rewrite <- Hone.
  now apply ewm_scan_weighted_mean.
Qed.

(** C1, as stated, fails: pandas' default exponentially weighted mean is the
    "adjusted" one.  With halflife 1 (alpha = 1/2) and values 0, 3 the second
    entry is (3 + 0/2) / (1 + 1/2) = 2, not 3/2 = alpha * 3 + (1 - alpha) * 0. *)
Lemma ewma_is_not_the_recursive_mean :
  exists df (e0 e1 : R),
    add_ewma_bollinger_bands ValueSamples.flat_then_up 1 = Ok df
    /\ loc df 0 "ewma" = Ok (Some e0)
    /\ loc df 1 "ewma" = Ok (Some e1)
    /\ e1 <> alpha_of_halflife 1 * 3 + (1 - alpha_of_halflife 1) * e0.
Proof.
  eexists. eexists. eexists. split; [reflexivity|].
  split; [reflexivity|]. split; [reflexivity|].
  destruct (halflife_decay 1) as [_ Hhalf]; [lia|].
  rewrite pow_1 in Hhalf. simpl snd.
  revert Hhalf. generalize (alpha_of_halflife 1). intros a Ha.
  replace a with (1 / 2) by lra. lra.
Qed.

(** C1 (amended): for every value series and positive halflife, with
    [alpha = 1 - exp(ln(1/2) / halflife)], which satisfies
    [(1 - alpha) ^ halflife = 1/2], the [ewma] column of the estimator is
    [ewma[0] = value[0]] and at every index [t] the weighted mean
    [(sum_{i <= t} (1 - alpha)^i * value[t - i]) / (sum_{i <= t} (1 - alpha)^i)]
    of the values so far. *)
Theorem ewma_is_the_weighted_mean portfolio_values halflife_days t :
  (0 < halflife_days)%nat -> (t < length portfolio_values)%nat ->
  let alpha := alpha_of_halflife halflife_days in
  let value := fun i => nth i (map snd portfolio_values) 0 in
  (1 - alpha) ^ halflife_days = 1 / 2
  /\ exists df (e : R),
       add_ewma_bollinger_bands portfolio_values halflife_days = Ok df
       /\ loc df t "ewma" = Ok (Some e)
       /\ e = sum_f_R0 (fun i => (1 - alpha) ^ i * value (t - i)%nat) t
              / sum_f_R0 (fun i => (1 - alpha) ^ i) t
       /\ (t = 0%nat -> e = value 0%nat).
Proof.
  intros Hh Ht alpha value.
  split; [now apply halflife_decay|].
  pose proof (ewm_mean_weighted_mean halflife_days (map snd portfolio_values) Hh)
    as Hewma.
  rewrite (add_ewma_bollinger_bands_Ok _ _ _ Hewma).
  assert (Hidx : is_Some (map fst portfolio_values !! t))
    by (apply lookup_lt_is_Some_2; now rewrite length_map).
  destruct Hidx as [d Hd].
  eexists. exists (weighted_mean (1 - alpha) (map snd portfolio_values) t).
  split; [reflexivity|]. split.
  - unfold loc, get_floats. simpl. rewrite Hd. simpl.
    rewrite !list_lookup_fmap, lookup_seq_lt by (now rewrite length_map).
    reflexivity.
  - split; [reflexivity|]. intros ->.
    apply (ewm_first_weighted_mean (1 - alpha) (map snd portfolio_values)).
Qed.

Lemma ewma_is_the_weighted_mean_witness :
  let alpha := alpha_of_halflife 1 in
  let value := fun i => nth i (map snd ValueSamples.flat_then_up) 0 in
  (1 - alpha) ^ 1 = 1 / 2
  /\ exists df (e : R),
       add_ewma_bollinger_bands ValueSamples.flat_then_up 1 = Ok df
       /\ loc df 1 "ewma" = Ok (Some e)
       /\ e = sum_f_R0 (fun i => (1 - alpha) ^ i * value (1 - i)%nat) 1
              / sum_f_R0 (fun i => (1 - alpha) ^ i) 1
       /\ (1%nat = 0%nat -> e = value 0%nat).
Proof.
  apply (ewma_is_the_weighted_mean ValueSamples.flat_then_up 1 1); simpl; lia.
Defined.

(** ** One step of the trade simulator *)

Lemma bind_Ok_inv {A B} (m : result A) (k : A -> result B) (b : B) :
  m ≫= k = Ok b -> exists a, m = Ok a /\ k a = Ok b.
Proof. destruct m as [a|e]; [eauto|discriminate]. Qed.

Ltac inv_bind H :=
  match type of H with
  | (_ ≫= _) = Ok _ =>
      let a := fresh "a" in
      let Ha := fresh "Ha" in
      apply bind_Ok_inv in H as (a & Ha & H)
  end.

(** Walk through [trade_step]: one goal per branch that returns. *)
Ltac step_cases H :=
  unfold trade_step in H; cbv zeta in H;
  repeat first
    [ inv_bind H
    | match type of H with
      | (if ?c then _ else _) = Ok _ => destruct c eqn:?
      end ];
  injection H as <-.

Lemma relabel_last (logs : list TradeRecord) r i tag pnl logs' :
  length logs = i ->
  relabel (logs ++ [r]) i tag pnl = Ok logs' ->
  logs' = logs ++ [{| trade_date := trade_date r;
                      trade_price := trade_price r;
                      trade_type := tag;
                      total_trade_pnl := default (total_trade_pnl r) pnl |}].
Proof.
  intros <-. unfold relabel.
  rewrite lookup_app_r, Nat.sub_diag by lia. simpl. intros [= <-].
  rewrite insert_app_r_alt, Nat.sub_diag by lia. reflexivity.
Qed.

Lemma count_exits_snoc logs r :
  count_exits (logs ++ [r]) = (count_exits logs + if is_exit r then 1 else 0)%nat.
Proof.
  unfold count_exits. rewrite List.filter_app, length_app. simpl.
  now destruct (is_exit r).
Qed.

(** A step appends one record; the tally grows by one exactly when the
    record is an exit. *)
Lemma trade_step_log st i st' :
  length (trade_logs st) = i ->
  trade_step st i = Ok st' ->
  exists r,
    trade_logs st' = trade_logs st ++ [r]
    /\ trades_tally st' = (trades_tally st + if is_exit r then 1 else 0)%nat.
Proof.
  intros Hlen H. step_cases H; simpl;
    try (match goal with
         | Hr : relabel _ _ _ _ = Ok _ |- _ =>
             apply (relabel_last _ _ _ _ _ _ Hlen) in Hr; subst
         end);
    eexists; (split; [reflexivity|]); simpl; lia.
Qed.

(** ** The scan of the trade simulator *)

Lemma trade_loop_app st todo1 todo2 :
  trade_loop st (todo1 ++ todo2)
  = (st' ← trade_loop st todo1; trade_loop st' todo2).
Proof.
  revert st. induction todo1 as [|i todo1 IH]; intros st; [reflexivity|].
  simpl. destruct (trade_step st i) as [st'|e]; [apply IH|reflexivity].
Qed.

Lemma seq_split (a n : nat) (l1 l2 : list nat) :
  seq a n = l1 ++ l2 ->
  l1 = seq a (length l1) /\ l2 = seq (a + length l1) (n - length l1).
Proof.
  intros H.
  assert (Hlen : (length l1 <= n)%nat).
  { pose proof (f_equal length H) as Hl.
    rewrite length_seq, length_app in Hl. lia. }
  assert (Hseq : seq a n = seq a (length l1) ++ seq (a + length l1) (n - length l1))
    by (rewrite <- seq_app; f_equal; lia).
  rewrite Hseq in H. symmetry in H.
  apply app_inj_1 in H as [H1 H2]; [auto|now rewrite length_seq].
Qed.

(** Over consecutive indices that start at the length of the log, the loop
    appends one record per index and keeps the tally equal to the number of
    exits it has appended; the tally never goes down. *)
Lemma trade_loop_log n : forall st st',
  trade_loop st (seq (length (trade_logs st)) n) = Ok st' ->
  length (trade_logs st') = (length (trade_logs st) + n)%nat
  /\ (trades_tally st' + count_exits (trade_logs st)
      = trades_tally st + count_exits (trade_logs st'))%nat
  /\ (trades_tally st <= trades_tally st')%nat.
Proof.
  induction n as [|n IH]; intros st st' H; simpl in H.
  - injection H as <-. lia.
  - inv_bind H.
    destruct (trade_step_log _ _ _ eq_refl Ha) as (r & Hlogs & Htally).
    assert (Hlen : S (length (trade_logs st)) = length (trade_logs a))
      by (rewrite Hlogs, length_app; simpl; lia).
    rewrite Hlen in H. apply IH in H as (H1 & H2 & H3).
    rewrite Hlogs, count_exits_snoc in *. rewrite length_app in *. simpl in *.
    destruct (is_exit r); lia.
Qed.

Lemma trade_init_log df initial_investment st :
  trade_init df initial_investment = Ok st ->
  length (trade_logs st) = 1%nat /\ count_exits (trade_logs st) = 0%nat
  /\ trades_tally st = 0%nat /\ current_position st = None /\ stdout st = [].
Proof.
  unfold trade_init. cbv zeta. intros H. repeat inv_bind H.
  injection H as <-. repeat split.
Qed.

(** ** Runs on the sample frames *)

Lemma fgt_true x y : x > y -> fgt (Some x) (Some y) = true.
Proof. intros H. unfold fgt. now destruct (Rgt_dec x y). Qed.

Lemma fgt_false x y : x <= y -> fgt (Some x) (Some y) = false.
Proof. intros H. unfold fgt. destruct (Rgt_dec x y); [lra|reflexivity]. Qed.

Lemma flt_true x y : x < y -> flt (Some x) (Some y) = true.
Proof. intros H. unfold flt. now destruct (Rlt_dec x y). Qed.

Lemma flt_false x y : y <= x -> flt (Some x) (Some y) = false.
Proof. intros H. unfold flt. destruct (Rlt_dec x y); [lra|reflexivity]. Qed.

#[local] Arguments fgt : simpl never.
#[local] Arguments flt : simpl never.

(** Run the next iteration of the loop on concrete cells. *)
Ltac run_step :=
  unfold trade_step; simpl;
  repeat (first [ rewrite fgt_true by lra | rewrite fgt_false by lra
                | rewrite flt_true by lra | rewrite flt_false by lra ];
          simpl).

Lemma still_short_run :
  exists st,
    track_trades_run TradeSamples.still_short 1000 = Ok st
    /\ current_position st = Some "short"%string
    /\ map trade_type (trade_logs st) = ["neither"; "short_entry"]%string
    /\ trades_tally st = 0%nat
    /\ stdout st = [ShortEntered (Some 160); FramePrinted; TotalTrades 0;
                    FinalRealizedBalance (Some 1000)].
Proof.
  eexists. split.
  - unfold track_trades_run. simpl. run_step. reflexivity.
  - repeat split.
Qed.

Lemma short_then_cover_run :
  exists st,
    track_trades_run TradeSamples.short_then_cover 1000 = Ok st
    /\ current_position st = None
    /\ map trade_type (trade_logs st)
       = ["neither"; "short_entry"; "short_exit"; "neither"]%string
    /\ trades_tally st = 1%nat
    /\ get_floats "trade_pnl" (frame st) = Ok (replicate 4 (Some 0))
    /\ (exists pnl, get_floats "total_trade_pnl" (frame st)
                    = Ok [Some 1000; Some 1000; Some pnl; Some pnl]
                    /\ pnl = 1000 + 1000 / 160 * (160 - 95)).
Proof.
  eexists. split.
  - unfold track_trades_run. simpl. do 3 run_step. reflexivity.
  - repeat split. eexists. split; [reflexivity|]. lra.
Qed.

(** ** The report of an open position *)

Lemma trade_step_position st i st' :
  trade_step st i = Ok st' ->
  (current_position st' = current_position st
   \/ current_position st' = None
   \/ current_position st' = Some "short"%string
   \/ current_position st' = Some "long"%string)
  /\ (PositionStillOpen ∉ stdout st -> PositionStillOpen ∉ stdout st').
Proof.
  intros H. step_cases H; simpl; (split; [tauto|]); try tauto;
    intros Hout; apply not_elem_of_app; (split; [assumption|]);
    apply not_elem_of_cons; (split; [discriminate|apply not_elem_of_nil]).
Qed.

Lemma trade_loop_position todo : forall st st',
  trade_loop st todo = Ok st' ->
  (current_position st = None
   \/ current_position st = Some "short"%string
   \/ current_position st = Some "long"%string) ->
  PositionStillOpen ∉ stdout st ->
  (current_position st' = None
   \/ current_position st' = Some "short"%string
   \/ current_position st' = Some "long"%string)
  /\ PositionStillOpen ∉ stdout st'.
Proof.
  induction todo as [|i todo IH]; intros st st' H Hpos Hout; simpl in H.
  - injection H as <-. auto.
  - inv_bind H. destruct (trade_step_position _ _ _ Ha) as [Hpos' Hout'].
    apply (IH _ _ H); [|auto].
    destruct Hpos' as [-> | Hpos']; tauto.
Qed.

(** The message of the final test is never printed: the position is only
    ever [None], ['short'] or ['long'], and the test compares it with
    ['Open']. *)
Lemma still_open_never_printed df initial_investment st :
  track_trades_run df initial_investment = Ok st ->
  PositionStillOpen ∉ stdout st.
Proof.
  unfold track_trades_run. intros H. inv_bind H. inv_bind H.
  injection H as <-.
  destruct (trade_init_log _ _ _ Ha) as (_ & _ & _ & Hpos & Hout).
  destruct (trade_loop_position _ _ _ Ha0) as [Hpos' Hout'];
    [auto|rewrite Hout; apply not_elem_of_nil|].
  unfold trade_report. simpl.
  rewrite (bool_decide_eq_false_2 (current_position a0 = Some "Open"%string))
    by (destruct Hpos' as [-> | [-> | ->]]; discriminate).
  simpl. apply not_elem_of_app. split; [assumption|].
  repeat (apply not_elem_of_cons; split; [discriminate|]).
  apply not_elem_of_nil.
Qed.

(** C4 on a series that ends while the position entered on the last date is
    still open: the final locals hold the position ['short'], the message
    about an open position is not among the printed lines, and the value
    returned is the pair of the log and the tally, without any flag.  On no
    input at all is the message printed. *)
Theorem open_position_is_not_reported :
  (exists st logs,
     track_trades_run TradeSamples.still_short 1000 = Ok st
     /\ current_position st = Some "short"%string
     /\ stdout st = [ShortEntered (Some 160); FramePrinted; TotalTrades 0;
                     FinalRealizedBalance (Some 1000)]
     /\ track_trades TradeSamples.still_short 1000 = Ok (logs, 0%nat)
     /\ map trade_type logs = ["neither"; "short_entry"]%string)
  /\ (forall df initial_investment st,
        track_trades_run df initial_investment = Ok st ->
        PositionStillOpen ∉ stdout st).
Proof.
  split; [|exact still_open_never_printed].
  destruct still_short_run as (st & Hrun & Hpos & Htypes & Htally & Hout).
  exists st, (trade_logs st). repeat split; try assumption.
  unfold track_trades. rewrite Hrun. simpl. now rewrite Htally.
Qed.

(** ** Columns of a frame *)

Lemma lookup_assign_ne name name' c cols :
  name <> name' ->
  lookup_column name (assign name' c cols) = lookup_column name cols.
Proof.
  intros Hne. induction cols as [|[k c'] cols IH]; simpl.
  - now rewrite decide_False by congruence.
  - destruct (decide (k = name')) as [->|Hk]; simpl.
    + now rewrite !decide_False by congruence.
    + destruct (decide (k = name)); [reflexivity|assumption].
Qed.

Lemma lookup_assign_eq name c cols :
  lookup_column name (assign name c cols) = Some c.
Proof.
  induction cols as [|[k c'] cols IH]; simpl.
  - now rewrite decide_True.
  - destruct (decide (k = name)) as [->|Hk]; simpl.
    + now rewrite decide_True.
    + now rewrite decide_False.
Qed.

Lemma lookup_update_ne name name' f cols :
  name <> name' ->
  lookup_column name (update_column name' f cols) = lookup_column name cols.
Proof.
  intros Hne. induction cols as [|[k c] cols IH]; simpl; [reflexivity|].
  destruct (decide (k = name')) as [->|Hk]; simpl.
  - now rewrite !decide_False by congruence.
  - destruct (decide (k = name)); [reflexivity|assumption].
Qed.

Lemma lookup_update_eq name f cols :
  lookup_column name (update_column name f cols)
  = f <$> lookup_column name cols.
Proof.
  induction cols as [|[k c] cols IH]; simpl; [reflexivity|].
  destruct (decide (k = name)) as [->|Hk]; simpl.
  - now rewrite decide_True.
  - now rewrite decide_False.
Qed.





(** ** What the simulator does to the frame of its caller *)











(** ** The simulator reads the values and the bands only *)

Lemma loc_same names df1 df2 i name :
  same_on names df1 df2 -> name ∈ names ->
  loc df1 i name = loc df2 i name.
Proof.
  intros [Hidx Hcols] Hin. unfold loc, get_floats.
  now rewrite Hidx, (Hcols name Hin).
Qed.




(** Membership in an explicit list of column names. *)
Ltac in_names :=
  apply list_elem_of_In; unfold band_columns, trade_columns; simpl; auto 10.









(** ** The simulator returns on every frame of bands *)

Lemma loc_Ok n names df j name :
  float_columns n names df -> name ∈ names -> (j < n)%nat ->
  exists x, loc df j name = Ok x.
Proof.
  intros [Hidx Hcols] Hname Hj.
  destruct (Hcols name Hname) as (cells & Hcells & Hlen).
  destruct (lookup_lt_is_Some_2 (df_index df) j) as [d Hd]; [lia|].
  destruct (lookup_lt_is_Some_2 cells j) as [x Hx]; [lia|].
  exists x. unfold loc, get_floats. now rewrite Hd, Hcells, bind_Ok, Hx.
Qed.

Lemma float_columns_set_loc n names df i name x :
  float_columns n names df -> float_columns n names (set_loc df i name x).
Proof.
  intros [Hidx Hcols]. split; [exact Hidx|]. intros k Hk. simpl.
  destruct (Hcols k Hk) as (cells & Hcells & Hlen).
  destruct (decide (k = name)) as [->|Hne].
  - rewrite lookup_update_eq, Hcells. simpl. eexists. split; [reflexivity|].
    now rewrite length_insert.
  - rewrite lookup_update_ne by done. eauto.
Qed.

Lemma float_columns_set_loc_object n names df i name s :
  float_columns n names df ->
  float_columns n names (set_loc_object df i name s).
Proof.
  intros [Hidx Hcols]. split; [exact Hidx|]. intros k Hk. simpl.
  destruct (Hcols k Hk) as (cells & Hcells & Hlen).
  destruct (decide (k = name)) as [->|Hne].
  - rewrite lookup_update_eq, Hcells. simpl. eauto.
  - rewrite lookup_update_ne by done. eauto.
Qed.

Lemma relabel_Ok (logs : list TradeRecord) r i tag pnl :
  length logs = i ->
  exists r', relabel (logs ++ [r]) i tag pnl = Ok (logs ++ [r']).
Proof.
  intros <-. unfold relabel.
  rewrite lookup_app_r, Nat.sub_diag by lia. simpl.
  rewrite insert_app_r_alt, Nat.sub_diag by lia. simpl. eauto.
Qed.

Lemma trade_step_ready n st i :
  trade_ready n st i -> (0 < i < n)%nat ->
  exists st', trade_step st i = Ok st' /\ trade_ready n st' (S i).
Proof.
  intros (Hcols & Hlogs & Hpos) [Hi0 Hin].
  unfold trade_step. cbv zeta.
  destruct (loc_Ok _ _ _ i "portfolio_value" Hcols) as [price ->];
    [in_names|lia|].
  destruct (loc_Ok _ _ _ i "ewma" Hcols) as [ewma ->]; [in_names|lia|].
  destruct (loc_Ok _ _ _ i "bollinger_upper" Hcols) as [upper ->];
    [in_names|lia|].
  destruct (loc_Ok _ _ _ i "bollinger_lower" Hcols) as [lower ->];
    [in_names|lia|].
  rewrite !bind_Ok. cbv beta.
  destruct (Nat.ltb_spec 0 i) as [_|]; [|lia].
  destruct (loc_Ok _ _ _ (i - 1) "total_trade_pnl" Hcols) as [carried ->];
    [in_names|lia|].
  rewrite !bind_Ok. cbv beta.
  pose proof (float_columns_set_loc _ _ _ i "total_trade_pnl" carried Hcols)
    as Hcols'.
  set (d := set_loc (frame st) i "total_trade_pnl" carried) in *.
  destruct (lookup_lt_is_Some_2 (df_index d) i) as [date Hdate];
    [rewrite (proj1 Hcols'); lia|].
  rewrite Hdate. simpl from_option. rewrite bind_Ok. cbv beta.
  destruct (loc_Ok _ _ _ i "total_trade_pnl" Hcols') as [running Hrunning];
    [in_names|lia|].
  rewrite !Hrunning, !bind_Ok. cbv beta.
  set (r := {| trade_date := date |}).
  destruct (bool_decide (current_position st = None) && fgt price upper).
  { destruct (relabel_Ok (trade_logs st) r i "short_entry" None Hlogs)
      as [r' ->].
    rewrite bind_Ok. eexists. split; [reflexivity|].
    split; [now apply float_columns_set_loc_object|].
    split; [simpl; rewrite length_app; simpl; lia|].
    right. simpl. eauto. }
  destruct (bool_decide (current_position st = None) && flt price lower).
  { destruct (relabel_Ok (trade_logs st) r i "long_entry" None Hlogs)
      as [r' ->].
    rewrite bind_Ok. eexists. split; [reflexivity|].
    split; [now apply float_columns_set_loc_object|].
    split; [simpl; rewrite length_app; simpl; lia|].
    right. simpl. eauto. }
  destruct (bool_decide (current_position st = Some "short"%string)
            && flt price ewma) eqn:Hshort.
  { apply andb_true_iff in Hshort as [Hshort _].
    apply bool_decide_eq_true in Hshort.
    destruct Hpos as [Hnone|[_ [units Hunits]]]; [congruence|].
    rewrite Hunits. simpl bound. rewrite bind_Ok. cbv beta.
    rewrite bind_Ok. cbv beta.
    set (pnl := fmul units _).
    pose proof (float_columns_set_loc _ _ _ i "total_trade_pnl"
                  (fadd running pnl) Hcols') as Hcols''.
    destruct (loc_Ok _ _ _ i "total_trade_pnl" Hcols'') as [running' ->];
      [in_names|lia|].
    rewrite bind_Ok. cbv beta.
    destruct (relabel_Ok (trade_logs st) r i "short_exit" (Some running') Hlogs)
      as [r' ->].
    rewrite bind_Ok. eexists. split; [reflexivity|].
    split; [exact Hcols''|].
    split; [simpl; rewrite length_app; simpl; lia|now left]. }
  destruct (bool_decide (current_position st = Some "long"%string)
            && fgt price ewma) eqn:Hlong.
  { apply andb_true_iff in Hlong as [Hlong _].
    apply bool_decide_eq_true in Hlong.
    destruct Hpos as [Hnone|[_ [units Hunits]]]; [congruence|].
    rewrite Hunits. simpl bound. rewrite bind_Ok. cbv beta.
    rewrite bind_Ok. cbv beta.
    set (pnl := fmul units _).
    pose proof (float_columns_set_loc _ _ _ i "total_trade_pnl"
                  (fadd running pnl) Hcols') as Hcols''.
    destruct (loc_Ok _ _ _ i "total_trade_pnl" Hcols'') as [running' ->];
      [in_names|lia|].
    rewrite bind_Ok. cbv beta.
    destruct (relabel_Ok (trade_logs st) r i "long_exit" (Some running') Hlogs)
      as [r' ->].
    rewrite bind_Ok. eexists. split; [reflexivity|].
    split; [exact Hcols''|].
    split; [simpl; rewrite length_app; simpl; lia|now left]. }
  eexists. split; [reflexivity|].
  split; [exact Hcols'|].
  split; [simpl; rewrite length_app; simpl; lia|exact Hpos].
Qed.

Lemma trade_loop_ready n k : forall i st,
  trade_ready n st i -> (0 < i)%nat -> (i + k <= n)%nat ->
  exists st', trade_loop st (seq i k) = Ok st' /\ trade_ready n st' (i + k).
Proof.
  induction k as [|k IH]; intros i st Hready Hi Hik; simpl.
  - exists st. now rewrite Nat.add_0_r.
  - destruct (trade_step_ready n st i Hready) as (st' & -> & Hready'); [lia|].
    rewrite bind_Ok.
    destruct (IH (S i) st' Hready') as (st'' & -> & Hready''); [lia..|].
    exists st''. split; [reflexivity|].
    now replace (i + S k)%nat with (S i + k)%nat by lia.
Qed.

Lemma float_columns_add_trade_columns df :
  float_columns (len df) band_columns df ->
  float_columns (len df) (band_columns ++ ["total_trade_pnl"%string])
                (add_trade_columns df).
Proof.
  intros [Hidx Hcols]. split; [exact Hidx|]. intros name Hname.
  unfold add_trade_columns, set_column, len. simpl.
  apply elem_of_app in Hname as [Hname|Hname].
  - destruct (Hcols name Hname) as (cells & Hcells & Hlen).
    exists cells. split; [|exact Hlen].
    unfold band_columns in Hname. rewrite !elem_of_cons, elem_of_nil in Hname.
    destruct Hname as [-> | [-> | [-> | [-> | []]]]];
      now rewrite !lookup_assign_ne by done.
  - apply list_elem_of_singleton in Hname as ->.
    rewrite lookup_assign_ne, lookup_assign_eq by done.
    eexists. split; [reflexivity|]. now rewrite length_replicate.
Qed.

Lemma trade_init_ready df initial_investment :
  band_frame df ->
  exists st, trade_init df initial_investment = Ok st
             /\ trade_ready (len df) st 1.
Proof.
  intros [Hne Hcols]. unfold trade_init. cbv zeta.
  pose proof (float_columns_add_trade_columns df Hcols) as Hcols'.
  assert (Hlen : (0 < len df)%nat)
    by (unfold len; destruct (df_index df); [congruence|simpl; lia]).
  destruct (lookup_lt_is_Some_2 (df_index (add_trade_columns df)) 0)
    as [first Hfirst]; [exact Hlen|].
  rewrite Hfirst. simpl from_option. rewrite bind_Ok. cbv beta.
  pose proof (float_columns_set_loc _ _ _ 0 "total_trade_pnl"
                (Some initial_investment) Hcols') as Hcols''.
  destruct (loc_Ok _ _ _ 0 "portfolio_value" Hcols'') as [price ->];
    [in_names|exact Hlen|].
  rewrite bind_Ok. eexists. split; [reflexivity|].
  split; [exact Hcols''|]. split; [reflexivity|now left].
Qed.

(** On a frame of bands the simulator returns a log with one record per
    date. *)
Lemma track_trades_returns df initial_investment :
  band_frame df ->
  exists logs tally,
    track_trades df initial_investment = Ok (logs, tally)
    /\ length logs = len df.
Proof.
  intros Hframe. unfold track_trades, track_trades_run.
  destruct (trade_init_ready df initial_investment Hframe) as (st0 & -> & Hready).
  rewrite bind_Ok.
  assert (Hlen : (0 < len df)%nat).
  { destruct Hframe as [Hne _]. unfold len.
    destruct (df_index df); [congruence|simpl; lia]. }
  destruct (trade_loop_ready (len df) (len df - 1) 1 st0 Hready)
    as (st & -> & Hready'); [lia..|].
  rewrite !bind_Ok. eexists. eexists. split; [reflexivity|].
  destruct Hready' as (_ & Hlogs & _). simpl. rewrite Hlogs. lia.
Qed.

(** The frame of the band estimator on a series with at least one value is
    a frame of bands: the whole pipeline returns. *)
Lemma estimator_returns_band_frame portfolio_values halflife_days :
  portfolio_values <> [] -> (0 < halflife_days)%nat ->
  exists df, add_ewma_bollinger_bands portfolio_values halflife_days = Ok df
             /\ band_frame df /\ len df = length portfolio_values.
Proof.
  intros Hne Hh.
  destruct (ewm_mean_Ok halflife_days (map snd portfolio_values) Hh)
    as (ewma & Hewma & Hlen).
  rewrite length_map in Hlen.
  rewrite (add_ewma_bollinger_bands_Ok _ _ _ Hewma).
  eexists. split; [reflexivity|].
  assert (Hzip : forall f : float -> float -> float,
    length (zip_with f (map Some ewma)
              (map (fmul (Some 2))
                 (rolling_std halflife_days (map snd portfolio_values))))
    = length portfolio_values).
  { intros f. rewrite length_zip_with, !length_map, rolling_std_length,
      length_map. lia. }
  unfold band_frame, float_columns, len. simpl. rewrite !length_map.
  split; [|reflexivity].
  split; [destruct portfolio_values; [congruence|discriminate]|].
  split; [reflexivity|].
  intros name Hname. unfold band_columns in Hname.
  rewrite !elem_of_cons, elem_of_nil in Hname.
  destruct Hname as [-> | [-> | [-> | [-> | []]]]];
    eexists; (split; [reflexivity|]); rewrite ?length_map; auto.
Qed.

(** The pipeline from a value series to the trade log returns whenever the
    series has a value and the halflife is positive. *)
Lemma pipeline_returns portfolio_values halflife_days initial_investment :
  portfolio_values <> [] -> (0 < halflife_days)%nat ->
  exists df logs tally,
    add_ewma_bollinger_bands portfolio_values halflife_days = Ok df
    /\ track_trades df initial_investment = Ok (logs, tally)
    /\ length logs = length portfolio_values.
Proof.
  intros Hne Hh.
  destruct (estimator_returns_band_frame _ _ Hne Hh) as (df & Hdf & Hframe & Hlen).
  destruct (track_trades_returns df initial_investment Hframe)
    as (logs & tally & Hrun & Hlogs).
  exists df, logs, tally. repeat split; [assumption..|congruence].
Qed.

(** ** The tally of completed trades *)

(** C8: on every frame of bands the simulator returns; whenever it returns,
    the tally returned is the number of [long_exit] and [short_exit] records
    in the returned log, and along the scan no step lowers the running
    tally, which stays below the returned one. *)
Theorem tally_counts_exits df initial_investment :
  (band_frame df ->
   exists logs tally,
     track_trades df initial_investment = Ok (logs, tally)
     /\ length logs = len df)
  /\ forall logs tally,
       track_trades df initial_investment = Ok (logs, tally) ->
       tally = count_exits logs
       /\ forall st0 visited i todo st st',
            trade_init df initial_investment = Ok st0 ->
            seq 1 (len df - 1) = visited ++ i :: todo ->
            trade_loop st0 visited = Ok st ->
            trade_step st i = Ok st' ->
            (trades_tally st <= trades_tally st' <= tally)%nat.
Proof.
  split; [apply track_trades_returns|].
  unfold track_trades, track_trades_run. intros logs tally H.
  inv_bind H. injection H as <- <-. inv_bind Ha. inv_bind Ha.
  injection Ha as <-. simpl. rename a0 into st0, a1 into stN.
  destruct (trade_init_log _ _ _ Ha0) as (Hlen0 & Hexits0 & Htally0 & _).
  split.
  - rewrite <- Hlen0 in Ha1. apply trade_loop_log in Ha1. lia.
  - intros st0' visited i todo st st' Hinit Hsplit Hvisited Hstep.
    rewrite Ha0 in Hinit. injection Hinit as <-.
    rewrite Hsplit, trade_loop_app, Hvisited in Ha1. simpl in Ha1.
    rewrite Hstep in Ha1. simpl in Ha1.
    apply seq_split in Hsplit as [Hv Hrest].
    rewrite Hv, <- Hlen0 in Hvisited. apply trade_loop_log in Hvisited.
    assert (Hi : i = length (trade_logs st)).
    { destruct Hvisited as [-> _]. rewrite Hlen0.
      destruct (len df - 1 - length visited)%nat; [discriminate|].
      now injection Hrest. }
    subst i.
    destruct (trade_step_log _ _ _ eq_refl Hstep) as (r & Hlogs & Htally).
    assert (Htodo : todo = seq (length (trade_logs st'))
                               (len df - 1 - length visited - 1)).
    { rewrite Hlogs, length_app. simpl.
      destruct Hvisited as [Hl _]. rewrite Hl, Hlen0.
      destruct (len df - 1 - length visited)%nat; [discriminate|].
      injection Hrest as _ ->. simpl. f_equal; lia. }
    rewrite Htodo in Ha1. apply trade_loop_log in Ha1.
    destruct (is_exit r); lia.
Qed.

Lemma tally_counts_exits_witness :
  exists logs tally,
    track_trades TradeSamples.short_then_cover 1000 = Ok (logs, tally)
    /\ tally = 1%nat
    /\ (tally = count_exits logs
        /\ forall st0 visited i todo st st',
             trade_init TradeSamples.short_then_cover 1000 = Ok st0 ->
             seq 1 (len TradeSamples.short_then_cover - 1) = visited ++ i :: todo ->
             trade_loop st0 visited = Ok st ->
             trade_step st i = Ok st' ->
             (trades_tally st <= trades_tally st' <= tally)%nat).
Proof.
  destruct short_then_cover_run as (st & Hrun & _ & _ & Htally & _).
  exists (trade_logs st), (trades_tally st).
  assert (Hret : track_trades TradeSamples.short_then_cover 1000
                 = Ok (trade_logs st, trades_tally st))
    by (unfold track_trades; rewrite Hrun; reflexivity).
  split; [exact Hret|]. split; [exact Htally|].
  exact (proj2 (tally_counts_exits _ _) _ _ Hret).
Defined.

(** * Further properties *)

(** ** The valuation without rebalancing *)

Lemma retained_weights_allocations df weights inv :
  initial_investment_per_stock df weights inv
  = map (fun '(stock, w) => (stock, inv * w)) (retained_weights df weights).
Proof.
  unfold initial_investment_per_stock, retained_weights.
  induction weights as [|[stock w] weights IH]; [reflexivity|].
  cbn [omap list_omap List.filter].
  destruct (decide (stock ∈ columns df)) as [Hin|Hin].
  - rewrite (bool_decide_eq_true_2 _ Hin). cbn [map]. f_equal. exact IH.
  - rewrite (bool_decide_eq_false_2 _ Hin). exact IH.
Qed.

Lemma retained_weights_idem df weights :
  retained_weights df (retained_weights df weights) = retained_weights df weights.
Proof.
  unfold retained_weights.
  induction weights as [|[stock w] weights IH]; [reflexivity|].
  simpl. destruct (bool_decide (stock ∈ columns df)) eqn:Hin; [|exact IH].
  simpl. now rewrite Hin, IH.
Qed.

(** X1: the valuation without rebalancing never raises, whatever the table
    and the weights: it returns one value per record, under the dates of the
    table in their order, and the weights of instruments without a column
    play no part in it. *)
Theorem no_rebalancing_always_returns df weights initial_investment :
  exists values : Series,
    calculate_portfolio_value_no_rebalancing df weights initial_investment
      = Ok values
    /\ map fst values = index df
    /\ calculate_portfolio_value_no_rebalancing
         df (retained_weights df weights) initial_investment = Ok values.
Proof.
  assert (Hiips : initial_investment_per_stock
                    df (retained_weights df weights) initial_investment
                  = initial_investment_per_stock df weights initial_investment)
    by now rewrite !retained_weights_allocations, retained_weights_idem.
  destruct (rows df) as [|[d0 p0] rest] eqn:Hrows.
  - exists []. unfold calculate_portfolio_value_no_rebalancing, index.
    rewrite Hrows. repeat split.
  - rewrite !(no_rebalancing_cons _ _ _ _ _ _ Hrows), Hiips.
    eexists. split; [reflexivity|]. split; [|reflexivity].
    apply (fst_zip (index df)). unfold index. now rewrite !length_map.
Qed.

(** ** Rebalance indices *)

Lemma rebalance_due_false_before f i :
  (f <= 0 \/ Z.of_nat i < f)%Z -> rebalance_due f i = false.
Proof.
  intros H. destruct i as [|i]; [apply rebalance_due_first|].
  unfold rebalance_due.
  destruct (Z.ltb_spec 0 f) as [Hpos|_]; [|reflexivity].
  destruct H as [H|H]; [lia|].
  rewrite Z.mod_small by lia.
  destruct (Z.eqb_spec (Z.of_nat (S i)) 0); [lia|reflexivity].
Qed.

Lemma rebalance_due_at f :
  (0 < f)%Z -> rebalance_due f (Z.to_nat f) = true.
Proof.
  intros Hf. unfold rebalance_due.
  rewrite Z2Nat.id, Z.mod_same by lia.
  destruct (Z.ltb_spec 0 f); [|lia].
  destruct (Nat.eqb_spec (Z.to_nat f) 0); [lia|reflexivity].
Qed.

Lemma elem_of_enumerate {A} (l : list A) i x :
  (i, x) ∈ enumerate l -> (i < length l)%nat.
Proof.
  unfold enumerate. change (@combine nat A) with (@zip_with nat A _ pair).
  intros Hin. apply elem_of_zip_l in Hin. simpl in Hin.
  apply elem_of_seq in Hin. lia.
Qed.

(** Where no rebalance is due the loop keeps its shares and values every
    record with them. *)
Lemma rebalancing_loop_no_due df weights f (held : dict) todo : forall values,
  (forall i row, (i, row) ∈ todo -> rebalance_due f i = false) ->
  (forall stock n, (stock, n) ∈ held -> stock ∈ columns df) ->
  rebalancing_loop df weights f values held todo =
  Ok (values ++
      map (fun '(_, (_, prices)) =>
             Py.sum (map (fun '(stock, n) => prices stock * n) held)) todo,
      held).
Proof.
  induction todo as [|[i [date prices]] todo IH]; intros values Hdue Hcols; simpl.
  - now rewrite app_nil_r.
  - unfold rebalancing_step.
    rewrite holdings_value_retained by assumption. simpl.
    rewrite (Hdue i (date, prices)) by apply list_elem_of_here.
    simpl. rewrite IH; [now rewrite <- app_assoc| |assumption].
    intros j row Hin. apply (Hdue j row). now apply list_elem_of_further.
Qed.

Lemma initial_shares_held df weights inv d0 p0 rest :
  rows df = (d0, p0) :: rest ->
  exists held0 : dict,
    initial_shares df weights inv = Ok held0
    /\ held0 = map (fun '(stock, alloc) => (stock, alloc / p0 stock))
                   (initial_investment_per_stock df weights inv)
    /\ forall stock n, (stock, n) ∈ held0 -> stock ∈ columns df.
Proof.
  intros Hrows. rewrite (initial_shares_cons _ _ _ _ _ _ Hrows).
  eexists. split; [reflexivity|]. split; [reflexivity|].
  intros s n. rewrite list_elem_of_fmap.
  intros [[s' a] [[= -> ->] Hin]]. eauto using retained_in_columns.
Qed.

(** X2: with a frequency that puts no rebalance index inside the table (a
    frequency that is zero or negative, or at least the number of records),
    the valuation with rebalancing returns, on a table with at least one
    record, exactly what the valuation without rebalancing returns, missing
    instruments included. *)
Theorem no_rebalance_index_in_table df weights initial_investment f :
  rows df <> [] ->
  (f <= 0 \/ Z.of_nat (length (rows df)) <= f)%Z ->
  calculate_portfolio_value_with_rebalancing df weights initial_investment f
  = calculate_portfolio_value_no_rebalancing df weights initial_investment.
Proof.
  intros Hne Hf. destruct (rows df) as [|[d0 p0] rest] eqn:Hrows; [congruence|].
  rewrite (no_rebalancing_cons _ _ _ _ _ _ Hrows).
  unfold calculate_portfolio_value_with_rebalancing.
  destruct (initial_shares_held df weights initial_investment _ _ _ Hrows)
    as (held0 & -> & Hheld0 & Hcols).
  rewrite bind_Ok, rebalancing_loop_no_due.
  - rewrite bind_Ok. simpl. do 2 f_equal.
    rewrite (map_enumerate (fun '(_, prices) => Py.sum _)).
    apply map_ext. intros [date prices]. f_equal.
    rewrite Hheld0, map_map. apply map_ext. now intros [stock alloc].
  - intros i row Hin. apply elem_of_enumerate in Hin.
    apply rebalance_due_false_before. rewrite <- Hrows in Hf. lia.
  - exact Hcols.
Qed.

Lemma no_rebalance_index_in_table_witness :
  calculate_portfolio_value_with_rebalancing
    Samples.two_days Samples.A_and_missing_B 1000 5
  = calculate_portfolio_value_no_rebalancing
      Samples.two_days Samples.A_and_missing_B 1000.
Proof.
  apply no_rebalance_index_in_table; [discriminate|right; simpl; lia].
Defined.

Lemma mapM_first_error {A B} (f : A -> result B) (l1 l2 : list A) x e :
  (forall y, y ∈ l1 -> exists b, f y = Ok b) -> f x = Err e ->
  mapM f (l1 ++ x :: l2) = Err e.
Proof.
  intros Hl1 Hx. induction l1 as [|y l1 IH]; simpl.
  - now rewrite Hx.
  - destruct (Hl1 y) as [b ->]; [apply list_elem_of_here|]. simpl.
    rewrite IH; [reflexivity|].
    intros z Hz. apply Hl1. now apply list_elem_of_further.
Qed.

(** A rebalance reads the price of every instrument of [weights]. *)
Lemma missing_column_raises
    df weights initial_investment f present stock w others :
  weights = present ++ (stock, w) :: others ->
  (forall s x, (s, x) ∈ present -> s ∈ columns df) ->
  stock ∉ columns df ->
  (0 < f)%Z -> (Z.to_nat f < length (rows df))%nat ->
  calculate_portfolio_value_with_rebalancing df weights initial_investment f
  = Err (KeyError stock).
Proof.
  intros Hweights Hpresent Hmissing Hf Hlen.
  destruct (rows df) as [|[d0 p0] rest] eqn:Hrows; [simpl in Hlen; lia|].
  unfold calculate_portfolio_value_with_rebalancing.
  destruct (initial_shares_held df weights initial_investment _ _ _ Hrows)
    as (held0 & -> & _ & Hcols).
  rewrite bind_Ok. rewrite <- Hrows in Hlen.
  rewrite <- (take_drop (Z.to_nat f) (rows df)).
  destruct (drop (Z.to_nat f) (rows df)) as [|[date prices] post] eqn:Hdrop.
  { apply (f_equal length) in Hdrop. rewrite length_drop in Hdrop.
    simpl in Hdrop. lia. }
  rewrite enumerate_app, rebalancing_loop_app.
  rewrite rebalancing_loop_no_due; [|
    intros i row Hin; apply elem_of_enumerate in Hin;
    rewrite length_take in Hin; apply rebalance_due_false_before; lia
    |exact Hcols].
  rewrite bind_Ok. simpl.
  rewrite length_take, Nat.min_l by lia.
  unfold rebalancing_step. rewrite holdings_value_retained by exact Hcols.
  rewrite bind_Ok, rebalance_due_at by exact Hf.
  unfold rebalance. rewrite Hweights, map_app. simpl.
  rewrite (mapM_first_error _ _ _ _ (KeyError stock)); [reflexivity| |].
  - intros [s a]. rewrite list_elem_of_fmap. intros [[s' x] [[= -> ->] Hin]].
    rewrite getitem_Ok by eauto. simpl. eauto.
  - unfold getitem. now rewrite decide_False.
Qed.

(** X3: when the weights name an instrument without a column and the
    frequency is positive and smaller than the number of records, the
    valuation with rebalancing raises [KeyError] on the first such
    instrument of the weight map: the first rebalance, at the index equal to
    the frequency, reads its price. *)
Theorem rebalancing_raises_on_missing_column
    df weights initial_investment f present stock w others :
  weights = present ++ (stock, w) :: others ->
  (forall s x, (s, x) ∈ present -> s ∈ columns df) ->
  stock ∉ columns df ->
  (0 < f)%Z -> (Z.to_nat f < length (rows df))%nat ->
  calculate_portfolio_value_with_rebalancing df weights initial_investment f
  = Err (KeyError stock).
Proof.
  exact (missing_column_raises df weights initial_investment f present stock
           w others).
Qed.

Lemma rebalancing_raises_on_missing_column_witness :
  calculate_portfolio_value_with_rebalancing
    Samples.two_days Samples.A_and_missing_B 1000 1
  = Err (KeyError "B").
Proof.
  apply (rebalancing_raises_on_missing_column Samples.two_days
           Samples.A_and_missing_B 1000 1 [("A"%string, 0.5)] "B" 0.5 []).
  - reflexivity.
  - intros s x Hin. apply list_elem_of_singleton in Hin.
    injection Hin as -> _. apply list_elem_of_here.
  - intros Hin. apply list_elem_of_singleton in Hin. discriminate.
  - lia.
  - simpl. lia.
Defined.

(** ** Values at the prices of the first day *)

Lemma rebalancing_loop_extends df weights f todo : forall acc held vals held',
  rebalancing_loop df weights f acc held todo = Ok (vals, held') ->
  exists vs, vals = acc ++ vs /\ length vs = length todo.
Proof.
  induction todo as [|[i [date prices]] todo IH]; intros acc held vals held'; simpl.
  - intros [= <- <-]. exists []. now rewrite app_nil_r.
  - destruct (rebalancing_step df weights f held i prices) as [[v h]|e];
      simpl; [|discriminate].
    intros H. apply IH in H as (vs & -> & Hlen).
    exists (v :: vs). rewrite <- app_assoc. simpl. auto.
Qed.

Lemma sum_at_first_prices (p0 prices : string -> R) (inv : R) (ws : dict) :
  (forall stock w, (stock, w) ∈ ws -> prices stock = p0 stock /\ p0 stock <> 0) ->
  Py.sum (map (fun '(stock, alloc) => prices stock * (alloc / p0 stock))
              (map (fun '(stock, w) => (stock, inv * w)) ws))
  = inv * Py.sum (map snd ws).
Proof.
  intros Hp. rewrite map_map, <- (sum_rebalanced p0).
  - f_equal. apply map_ext_in. intros [stock w] Hin.
    apply list_elem_of_In in Hin. destruct (Hp stock w Hin) as [-> _].
    reflexivity.
  - intros stock w Hin. now destruct (Hp stock w Hin).
Qed.

(** X4: at every date at which the instruments that have a column trade at
    their first-day prices (the first date is always one), the value without
    rebalancing is the initial investment times the total weight of those
    instruments, which is the whole investment only when no weighted
    instrument is missing; the valuation with rebalancing, when it returns,
    starts from the same value. *)
Theorem value_at_first_day_prices
    df weights initial_investment d0 p0 rest t date prices :
  rows df = (d0, p0) :: rest ->
  rows df !! t = Some (date, prices) ->
  (forall stock w, (stock, w) ∈ retained_weights df weights ->
                   prices stock = p0 stock /\ p0 stock <> 0) ->
  let invested :=
    initial_investment * Py.sum (map snd (retained_weights df weights)) in
  (exists values,
     calculate_portfolio_value_no_rebalancing df weights initial_investment
       = Ok values
     /\ values !! t = Some (date, invested))
  /\ forall f values,
       calculate_portfolio_value_with_rebalancing df weights initial_investment f
         = Ok values ->
       values !! 0%nat = Some (d0, invested).
Proof.
  intros Hrows Ht Hp invested.
  assert (Hp0 : forall stock w, (stock, w) ∈ retained_weights df weights ->
                  p0 stock = p0 stock /\ p0 stock <> 0)
    by (intros s w Hin; now destruct (Hp s w Hin)).
  split.
  - rewrite (no_rebalancing_cons _ _ _ _ _ _ Hrows).
    eexists. split; [reflexivity|].
    change (@combine string R) with (@zip_with string R _ pair).
    apply lookup_zip_Some. unfold index. rewrite !list_lookup_fmap, Ht. simpl.
    split; [reflexivity|]. f_equal.
    rewrite retained_weights_allocations. now apply sum_at_first_prices.
  - intros f values. unfold calculate_portfolio_value_with_rebalancing.
    destruct (initial_shares_held df weights initial_investment _ _ _ Hrows)
      as (held0 & -> & Hheld0 & Hcols).
    rewrite bind_Ok. unfold enumerate, index. rewrite Hrows. simpl.
    unfold rebalancing_step. rewrite holdings_value_retained by exact Hcols.
    rewrite bind_Ok, rebalance_due_first, bind_Ok.
    match goal with
    | |- context [rebalancing_loop ?a ?b ?c ?d ?e ?g] =>
        destruct (rebalancing_loop a b c d e g) as [[vals held']|e'] eqn:Hloop
    end; [|discriminate].
    apply rebalancing_loop_extends in Hloop as (vs & -> & _).
    rewrite bind_Ok. intros [= <-]. simpl. do 2 f_equal. subst invested.
    rewrite Hheld0, map_map, retained_weights_allocations.
    rewrite <- (sum_at_first_prices p0 p0 _ _ Hp0), !map_map.
    f_equal. apply map_ext. now intros [stock w].
Qed.

Lemma value_at_first_day_prices_witness :
  let invested :=
    1000 * Py.sum (map snd (retained_weights Samples.two_days
                                             Samples.A_and_missing_B)) in
  (exists values,
     calculate_portfolio_value_no_rebalancing
       Samples.two_days Samples.A_and_missing_B 1000 = Ok values
     /\ values !! 0%nat = Some ("2024-01-02"%string, invested))
  /\ forall f values,
       calculate_portfolio_value_with_rebalancing
         Samples.two_days Samples.A_and_missing_B 1000 f = Ok values ->
       values !! 0%nat = Some ("2024-01-02"%string, invested).
Proof.
  apply (value_at_first_day_prices Samples.two_days Samples.A_and_missing_B
           1000 "2024-01-02"%string (fun _ => 100)
           [("2024-01-03"%string, fun _ => 110)] 0
           "2024-01-02"%string (fun _ => 100)).
  - reflexivity.
  - reflexivity.
  - intros stock w _. split; [reflexivity|lra].
Defined.

(** ** A portfolio of a single instrument *)

Lemma single_instrument_loop df stock f (h : R) todo : forall acc,
  stock ∈ columns df ->
  (forall i date prices, (i, (date, prices)) ∈ todo -> prices stock <> 0) ->
  rebalancing_loop df [(stock, 1)] f acc [(stock, h)] todo
  = Ok (acc ++ map (fun '(_, (_, prices)) => h * prices stock) todo,
        [(stock, h)]).
Proof.
  intros acc Hcol. revert acc.
  induction todo as [|[i [date prices]] todo IH]; intros acc Hp; simpl.
  - now rewrite app_nil_r.
  - assert (Hprice : prices stock <> 0)
      by (apply (Hp i date), list_elem_of_here).
    unfold rebalancing_step. rewrite holdings_value_retained.
    2:{ intros s n Hin. apply list_elem_of_singleton in Hin.
        now injection Hin as -> _. }
    rewrite bind_Ok. simpl map.
    replace (Py.sum [prices stock * h]) with (h * prices stock)
      by (unfold Py.sum; simpl; ring).
    assert (Hnext : forall held',
      held' = [(stock, h)] ->
      rebalancing_loop df [(stock, 1)] f (acc ++ [h * prices stock]) held' todo
      = Ok (acc ++ h * prices stock
                   :: map (fun '(_, (_, prices)) => h * prices stock) todo,
            [(stock, h)])).
    { intros held' ->. rewrite IH.
      - now rewrite <- app_assoc.
      - intros j d p Hin. apply (Hp j d). now apply list_elem_of_further. }
    destruct (rebalance_due f i).
    + rewrite rebalance_Ok.
      2:{ intros s w Hin. apply list_elem_of_singleton in Hin.
          now injection Hin as -> _. }
      rewrite !bind_Ok. apply Hnext. simpl. do 2 f_equal. now field.
    + rewrite bind_Ok. now apply Hnext.
Qed.

Lemma combine_map_fst {A B C} (g : A * B -> C) (l : list (A * B)) :
  combine (map fst l) (map g l) = map (fun row => (fst row, g row)) l.
Proof.
  induction l as [|row l IH]; [reflexivity|]. simpl. now rewrite IH.
Qed.

(** The two valuations of a portfolio of one instrument. *)
Lemma single_instrument_values
    df stock initial_investment f d0 p0 rest :
  rows df = (d0, p0) :: rest ->
  stock ∈ columns df ->
  (forall date prices, (date, prices) ∈ rows df -> prices stock <> 0) ->
  let followed :=
    map (fun '(date, prices) =>
           (date, initial_investment * (prices stock / p0 stock))) (rows df) in
  calculate_portfolio_value_with_rebalancing
    df [(stock, 1)] initial_investment f = Ok followed
  /\ calculate_portfolio_value_no_rebalancing
       df [(stock, 1)] initial_investment = Ok followed.
Proof.
  intros Hrows Hcol Hp followed.
  assert (Hp0 : p0 stock <> 0)
    by (apply (Hp d0); rewrite Hrows; apply list_elem_of_here).
  assert (Hiips : initial_investment_per_stock df [(stock, 1)] initial_investment
                  = [(stock, initial_investment * 1)]).
  { unfold initial_investment_per_stock. cbn [omap list_omap].
    now rewrite decide_True by exact Hcol. }
  assert (Hzip : forall g : string * (string -> R) -> R,
    combine (index df) (map g (rows df))
    = map (fun row => (fst row, g row)) (rows df))
    by (intros g; apply combine_map_fst).
  split.
  - unfold calculate_portfolio_value_with_rebalancing.
    destruct (initial_shares_held df [(stock, 1)] initial_investment _ _ _ Hrows)
      as (held0 & -> & Hheld0 & _).
    rewrite Hiips in Hheld0. simpl in Hheld0. subst held0.
    rewrite bind_Ok, single_instrument_loop; [|exact Hcol|].
    + rewrite bind_Ok. simpl app.
      rewrite (map_enumerate (fun '(_, prices) => _ * prices stock)), Hzip.
      f_equal. apply map_ext. intros [date prices]. simpl. f_equal.
      now field.
    + intros i date prices Hin. apply (Hp date).
      unfold enumerate in Hin.
      change (@combine nat (string * (string -> R)))
        with (@zip_with nat (string * (string -> R)) _ pair) in Hin.
      now apply elem_of_zip_r in Hin.
  - rewrite (no_rebalancing_cons _ _ _ _ _ _ Hrows), Hiips, Hzip.
    f_equal. apply map_ext. intros [date prices]. simpl. f_equal.
    unfold Py.sum. simpl. now field.
Qed.

(** X5: a portfolio with all of its weight, 1, on one instrument that has a
    column and never a zero price follows the price of the instrument: under
    rebalancing at any frequency and without rebalancing its value at every
    date is the initial investment times the price over the first price. *)
Theorem single_instrument_follows_price
    df stock initial_investment f d0 p0 rest :
  rows df = (d0, p0) :: rest ->
  stock ∈ columns df ->
  (forall date prices, (date, prices) ∈ rows df -> prices stock <> 0) ->
  let followed :=
    map (fun '(date, prices) =>
           (date, initial_investment * (prices stock / p0 stock))) (rows df) in
  calculate_portfolio_value_with_rebalancing
    df [(stock, 1)] initial_investment f = Ok followed
  /\ calculate_portfolio_value_no_rebalancing
       df [(stock, 1)] initial_investment = Ok followed.
Proof.
  exact (single_instrument_values df stock initial_investment f d0 p0 rest).
Qed.

Lemma single_instrument_follows_price_witness :
  let followed :=
    map (fun '(date, prices) => (date, 1000 * (prices "A"%string / 100)))
        (rows Samples.two_days) in
  calculate_portfolio_value_with_rebalancing
    Samples.two_days [("A"%string, 1)] 1000 1 = Ok followed
  /\ calculate_portfolio_value_no_rebalancing
       Samples.two_days [("A"%string, 1)] 1000 = Ok followed.
Proof.
  apply (single_instrument_follows_price Samples.two_days "A" 1000 1
           "2024-01-02"%string (fun _ => 100)
           [("2024-01-03"%string, fun _ => 110)]).
  - reflexivity.
  - apply list_elem_of_here.
  - intros date prices Hin. simpl in Hin.
    rewrite !elem_of_cons, elem_of_nil in Hin.
    destruct Hin as [[= _ ->] | [[= _ ->] | []]]; lra.
Defined.

(** ** The size of the investment *)

Lemma sum_scale (k : R) (l : list R) : Py.sum (map (Rmult k) l) = k * Py.sum l.
Proof.
  induction l as [|x l IH]; [unfold Py.sum; simpl; ring|].
  simpl. rewrite !sum_cons, IH. ring.
Qed.

(** Shares bought for scaled allocations are the scaled shares. *)
Lemma shares_scale (g : string -> result R) (k : R) (allocs : dict) :
  mapM (fun '(stock, alloc) => p ← g stock; Ok (stock, alloc / p))
       (scale_dict k allocs)
  = on_ok (scale_dict k)
      (mapM (fun '(stock, alloc) => p ← g stock; Ok (stock, alloc / p)) allocs).
Proof.
  induction allocs as [|[stock alloc] allocs IH]; [reflexivity|].
  simpl. destruct (g stock) as [p|e]; [|reflexivity].
  rewrite !bind_Ok, IH.
  destruct (mapM _ allocs) as [held|e]; [|reflexivity].
  simpl. do 3 f_equal. unfold Rdiv. ring.
Qed.

Lemma holdings_value_scale df prices (k : R) (held : dict) :
  holdings_value df prices (scale_dict k held)
  = on_ok (Rmult k) (holdings_value df prices held).
Proof.
  unfold holdings_value.
  assert (Hterms :
    mapM (fun '(stock, n) => p ← getitem df prices stock; Ok (p * n))
         (scale_dict k held)
    = on_ok (map (Rmult k))
        (mapM (fun '(stock, n) => p ← getitem df prices stock; Ok (p * n)) held)).
  { induction held as [|[stock n] held IH]; [reflexivity|].
    simpl. destruct (getitem df prices stock) as [p|e]; [|reflexivity].
    rewrite !bind_Ok, IH.
    destruct (mapM _ held) as [terms|e]; [|reflexivity].
    simpl. do 2 f_equal. ring. }
  rewrite Hterms. destruct (mapM _ held) as [terms|e]; [|reflexivity].
  simpl. now rewrite sum_scale.
Qed.

Lemma rebalance_scale df weights prices (k v : R) :
  rebalance df weights prices (k * v)
  = on_ok (scale_dict k) (rebalance df weights prices v).
Proof.
  unfold rebalance. cbv zeta.
  rewrite <- (shares_scale (getitem df prices)). f_equal.
  unfold scale_dict. rewrite map_map. apply map_ext.
  intros [stock w]. f_equal. ring.
Qed.

Lemma rebalancing_step_scale df weights f (k : R) (held : dict) i prices :
  rebalancing_step df weights f (scale_dict k held) i prices
  = on_ok (fun '(v, held') => (k * v, scale_dict k held'))
      (rebalancing_step df weights f held i prices).
Proof.
  unfold rebalancing_step. rewrite holdings_value_scale.
  destruct (holdings_value df prices held) as [v|e]; [|reflexivity].
  simpl on_ok. rewrite !bind_Ok.
  destruct (rebalance_due f i); [|reflexivity].
  rewrite rebalance_scale.
  now destruct (rebalance df weights prices v).
Qed.

Lemma rebalancing_loop_scale df weights f (k : R) todo : forall acc held,
  rebalancing_loop df weights f (map (Rmult k) acc) (scale_dict k held) todo
  = on_ok (fun '(vals, held') => (map (Rmult k) vals, scale_dict k held'))
      (rebalancing_loop df weights f acc held todo).
Proof.
  induction todo as [|[i [date prices]] todo IH]; intros acc held;
    [reflexivity|].
  simpl. rewrite rebalancing_step_scale.
  destruct (rebalancing_step df weights f held i prices) as [[v held']|e];
    [|reflexivity].
  simpl on_ok. rewrite !bind_Ok.
  rewrite <- IH. now rewrite map_app.
Qed.

Lemma allocations_scale df weights (k inv : R) :
  initial_investment_per_stock df weights (k * inv)
  = scale_dict k (initial_investment_per_stock df weights inv).
Proof.
  rewrite !retained_weights_allocations. unfold scale_dict.
  rewrite map_map. apply map_ext. intros [stock w]. f_equal. ring.
Qed.

Lemma combine_scale (k : R) (dates : list string) (vals : list R) :
  combine dates (map (Rmult k) vals) = scale_series k (combine dates vals).
Proof.
  revert vals. induction dates as [|d dates IH]; intros [|v vals];
    try reflexivity.
  simpl. now rewrite IH.
Qed.

(** X6: both valuations are linear in the initial investment: an investment
    [k] times as large gives [k] times the value at every date, and the
    valuation with rebalancing raises the same exception as before when it
    raises. *)
Theorem valuation_scales_with_investment df weights initial_investment f k :
  calculate_portfolio_value_no_rebalancing df weights (k * initial_investment)
  = on_ok (scale_series k)
      (calculate_portfolio_value_no_rebalancing df weights initial_investment)
  /\ calculate_portfolio_value_with_rebalancing
       df weights (k * initial_investment) f
     = on_ok (scale_series k)
         (calculate_portfolio_value_with_rebalancing
            df weights initial_investment f).
Proof.
  split.
  - destruct (rows df) as [|[d0 p0] rest] eqn:Hrows.
    + unfold calculate_portfolio_value_no_rebalancing, index.
      now rewrite Hrows.
    + rewrite !(no_rebalancing_cons _ _ _ _ _ _ Hrows). simpl.
      rewrite <- combine_scale, map_map. do 2 f_equal.
      apply map_ext. intros [date prices].
      rewrite <- sum_scale, allocations_scale. f_equal.
      unfold scale_dict. rewrite !map_map. apply map_ext.
      intros [stock alloc]. unfold Rdiv. ring.
  - unfold calculate_portfolio_value_with_rebalancing, initial_shares.
    rewrite allocations_scale, shares_scale.
    destruct (mapM _ (initial_investment_per_stock df weights initial_investment))
      as [held0|e]; [|reflexivity].
    simpl on_ok. rewrite !bind_Ok.
    change (@nil R) with (map (Rmult k) []) at 1.
    rewrite rebalancing_loop_scale.
    destruct (rebalancing_loop df weights f [] held0 _) as [[vals held]|e];
      [|reflexivity].
    simpl. now rewrite combine_scale.
Qed.

(** ** The weights handed to the valuations *)

Lemma with_rebalancing_returns df weights inv f :
  rows df <> [] ->
  (forall stock w, (stock, w) ∈ weights -> stock ∈ columns df) ->
  exists values : Series,
    calculate_portfolio_value_with_rebalancing df weights inv f = Ok values
    /\ map fst values = index df.
Proof.
  intros Hne Hcols. destruct (rows df) as [|[d0 p0] rest] eqn:Hrows; [congruence|].
  unfold calculate_portfolio_value_with_rebalancing.
  destruct (initial_shares_held df weights inv _ _ _ Hrows)
    as (held0 & -> & _ & Hheld0).
  rewrite bind_Ok.
  destruct (rebalancing_loop_Ok df weights f (enumerate (rows df)) [] held0
              Hcols Hheld0) as (vs & held & -> & Hlen & _).
  rewrite bind_Ok. simpl app. eexists. split; [reflexivity|].
  apply (fst_zip (index df)). unfold index, enumerate in *.
  rewrite length_combine, length_seq, Nat.min_id in Hlen.
  rewrite length_map. lia.
Qed.

Lemma no_rebalancing_returns df weights inv :
  exists values : Series,
    calculate_portfolio_value_no_rebalancing df weights inv = Ok values
    /\ map fst values = index df.
Proof.
  destruct (rows df) as [|[d0 p0] rest] eqn:Hrows.
  - exists []. unfold calculate_portfolio_value_no_rebalancing, index.
    now rewrite Hrows.
  - rewrite (no_rebalancing_cons _ _ _ _ _ _ Hrows).
    eexists. split; [reflexivity|].
    apply (fst_zip (index df)). unfold index. now rewrite !length_map.
Qed.

Lemma add_ewma_bollinger_bands_index portfolio_values halflife_days :
  (0 < halflife_days)%nat ->
  exists bands,
    add_ewma_bollinger_bands portfolio_values halflife_days = Ok bands
    /\ df_index bands = map fst portfolio_values.
Proof.
  intros Hh.
  destruct (ewm_mean_Ok halflife_days (map snd portfolio_values) Hh)
    as (ewma & Hewma & _).
  rewrite (add_ewma_bollinger_bands_Ok _ _ _ Hewma). eauto.
Qed.

Lemma sum_normalised (total : R) (weights : dict) :
  Py.sum (map snd (map (fun '(ticker, weight) => (ticker, weight / total))
                       weights))
  = Py.sum (map snd weights) / total.
Proof.
  rewrite map_map.
  rewrite (map_ext _ (fun tw => Rmult (/ total) (snd tw)))
    by (intros [ticker weight]; simpl; unfold Rdiv; ring).
  rewrite <- (map_map snd (Rmult (/ total))), sum_scale.
  unfold Rdiv. ring.
Qed.

(** X7: on a table with at least one record, with a positive halflife and a
    column for every weighted instrument, [index_compiler] returns under
    either policy; the frame it returns has the dates of the table, the
    title is the one given, and the weights it returns are the given
    tickers in their order with weights that sum to 1 whenever the given
    weights do not sum to 0 (they are the given weights when those already
    sum to 1). *)
Theorem index_compiler_normalises
    df weights title halflife_days initial_investment rebalance f :
  rows df <> [] -> (0 < halflife_days)%nat ->
  (forall stock w, (stock, w) ∈ weights -> stock ∈ columns df) ->
  Py.sum (map snd weights) <> 0 ->
  exists bands weights',
    index_compiler df weights title halflife_days initial_investment
                   rebalance f = Ok (bands, weights', title)
    /\ df_index bands = index df
    /\ map fst weights' = map fst weights
    /\ Py.sum (map snd weights') = 1
    /\ (Py.sum (map snd weights) = 1 -> weights' = weights).
Proof.
  intros Hne Hh Hcols Hsum. unfold index_compiler.
  rewrite (normalised_weights_Ok weights (or_intror Hsum)), bind_Ok.
  set (total := Py.sum (map snd weights)) in *.
  set (weights' := if Req_dec_T _ 1 then _ else _).
  assert (Hkeys : map fst weights' = map fst weights).
  { subst weights'. fold total. destruct (Req_dec_T total 1); [reflexivity|].
    rewrite map_map. apply map_ext. now intros [ticker weight]. }
  assert (Hcols' : forall stock w, (stock, w) ∈ weights' -> stock ∈ columns df).
  { intros stock w Hin.
    assert (Hk : stock ∈ map fst weights')
      by (apply list_elem_of_fmap; exists (stock, w); auto).
    rewrite Hkeys in Hk. apply list_elem_of_fmap in Hk as [[s x] [-> Hin']].
    eauto. }
  assert (Hvalued : exists values : Series,
    (if rebalance
     then calculate_portfolio_value_with_rebalancing
            df weights' initial_investment f
     else calculate_portfolio_value_no_rebalancing
            df weights' initial_investment) = Ok values
    /\ map fst values = index df).
  { destruct rebalance;
      [now apply with_rebalancing_returns|apply no_rebalancing_returns]. }
  destruct Hvalued as (values & -> & Hdates).
  rewrite bind_Ok.
  destruct (add_ewma_bollinger_bands_index values halflife_days Hh)
    as (bands & -> & Hindex).
  rewrite bind_Ok. exists bands, weights'.
  split; [reflexivity|]. split; [congruence|]. split; [exact Hkeys|].
  subst weights'. fold total. destruct (Req_dec_T total 1) as [Hone|Hnot].
  - split; [exact Hone|reflexivity].
  - split; [|contradiction]. rewrite sum_normalised. fold total. now field.
Qed.

Lemma index_compiler_normalises_witness :
  exists bands weights',
    index_compiler Samples.two_days [("A"%string, 0.5)] "half" 2 1000 true 1
      = Ok (bands, weights', "half"%string)
    /\ df_index bands = index Samples.two_days
    /\ map fst weights' = map fst [("A"%string, 0.5)]
    /\ Py.sum (map snd weights') = 1
    /\ (Py.sum (map snd [("A"%string, 0.5)]) = 1
        -> weights' = [("A"%string, 0.5)]).
Proof.
  apply (index_compiler_normalises Samples.two_days [("A"%string, 0.5)]
           "half" 2 1000 true 1).
  - discriminate.
  - lia.
  - intros stock w Hin. apply list_elem_of_singleton in Hin.
    injection Hin as -> _. apply list_elem_of_here.
  - unfold Py.sum. simpl. lra.
Defined.

(** ** Mean and bands inside the values *)

(** The cells of the frame of the band estimator. *)
Lemma band_frame_cells portfolio_values halflife_days :
  (0 < halflife_days)%nat ->
  exists df ewma,
    add_ewma_bollinger_bands portfolio_values halflife_days = Ok df
    /\ ewm_mean halflife_days (map snd portfolio_values) = Ok ewma
    /\ forall t,
         (length portfolio_values <= t)%nat /\ df_index df !! t = None
         \/ exists e sd,
              ewma !! t = Some e
              /\ rolling_std halflife_days (map snd portfolio_values) !! t
                 = Some sd
              /\ loc df t "ewma" = Ok (Some e)
              /\ loc df t "bollinger_upper"
                 = Ok (fadd (Some e) (fmul (Some 2) sd))
              /\ loc df t "bollinger_lower"
                 = Ok (fsub (Some e) (fmul (Some 2) sd)).
Proof.
  intros Hh.
  destruct (ewm_mean_Ok halflife_days (map snd portfolio_values) Hh)
    as (ewma & Hewma & Hlen).
  rewrite length_map in Hlen.
  rewrite (add_ewma_bollinger_bands_Ok _ _ _ Hewma).
  eexists. exists ewma. split; [reflexivity|]. split; [exact Hewma|].
  intros t. destruct (Nat.le_gt_cases (length portfolio_values) t) as [Hge|Hlt].
  - left. split; [exact Hge|]. simpl. apply lookup_ge_None_2.
    now rewrite length_map.
  - right.
    destruct (lookup_lt_is_Some_2 ewma t) as [e He]; [lia|].
    assert (Hvals : (t < length (map snd portfolio_values))%nat)
      by now rewrite length_map.
    pose proof (rolling_std_lookup halflife_days _ _ Hvals) as Hsd.
    destruct (lookup_lt_is_Some_2 (map fst portfolio_values) t) as [d Hd];
      [now rewrite length_map|].
    eexists e, _. split; [exact He|]. split; [exact Hsd|].
    unfold loc, get_floats. simpl. rewrite Hd. simpl.
    rewrite !lookup_zip_with, !list_lookup_fmap, He, Hsd. simpl.
    repeat split.
Qed.

Lemma loc_index_None df t name : df_index df !! t = None -> loc df t name = Err IndexError.
Proof. intros H. unfold loc. now rewrite H. Qed.

Lemma ewm_scan_bounds alpha lo hi vals : forall weighted old_wt,
  alpha <= 1 -> 0 <= old_wt -> lo <= weighted <= hi ->
  Forall (fun v => lo <= v <= hi) vals ->
  Forall (fun e => lo <= e <= hi) (ewm_scan alpha weighted old_wt vals).
Proof.
  induction vals as [|cur vals IH]; intros weighted old_wt Ha Hwt Hw Hvals;
    [constructor|].
  apply Forall_cons_1 in Hvals as [Hcur Hvals]. simpl.
  assert (Hq : 0 <= old_wt * (1 - alpha)) by nra.
  set (a := old_wt * (1 - alpha)) in *.
  assert (Hmean : lo <= (a * weighted + 1 * cur) / (a + 1) <= hi).
  { split.
    - apply (Rmult_le_reg_r (a + 1)); [lra|].
      unfold Rdiv. rewrite Rmult_assoc, Rinv_l by lra. nra.
    - apply (Rmult_le_reg_r (a + 1)); [lra|].
      unfold Rdiv. rewrite Rmult_assoc, Rinv_l by lra. nra. }
  constructor; [exact Hmean|].
  apply IH; [exact Ha|lra|exact Hmean|exact Hvals].
Qed.

Lemma ewm_mean_bounds halflife lo hi vals ewma :
  ewm_mean halflife vals = Ok ewma ->
  Forall (fun v => lo <= v <= hi) vals ->
  Forall (fun e => lo <= e <= hi) ewma.
Proof.
  unfold ewm_mean. destruct (Nat.eqb_spec halflife 0) as [|Hh]; [discriminate|].
  intros [= <-] Hvals. destruct vals as [|first vals]; [constructor|].
  apply Forall_cons_1 in Hvals as [Hfirst Hvals].
  constructor; [exact Hfirst|].
  apply ewm_scan_bounds; [|lra|exact Hfirst|exact Hvals].
  destruct (halflife_decay halflife) as [Hq _]; [lia|]. lra.
Qed.

(** X8: the exponentially weighted mean never leaves the range of the
    values: when every value of the series lies between two bounds, so does
    every cell of the [ewma] column of the frame the estimator returns. *)
Theorem ewma_within_values portfolio_values halflife_days lo hi :
  (0 < halflife_days)%nat ->
  (forall date v, (date, v) ∈ portfolio_values -> lo <= v <= hi) ->
  exists df,
    add_ewma_bollinger_bands portfolio_values halflife_days = Ok df
    /\ forall t e, loc df t "ewma" = Ok (Some e) -> lo <= e <= hi.
Proof.
  intros Hh Hrange.
  destruct (band_frame_cells portfolio_values halflife_days Hh)
    as (df & ewma & Hdf & Hewma & Hcells).
  exists df. split; [exact Hdf|]. intros t e Hloc.
  destruct (Hcells t) as [[_ Hnone]|(e' & sd & He' & _ & Hloc' & _)].
  - rewrite (loc_index_None _ _ _ Hnone) in Hloc. discriminate.
  - rewrite Hloc' in Hloc. injection Hloc as <-.
    assert (Hvals : Forall (fun v => lo <= v <= hi) (map snd portfolio_values)).
    { apply Forall_forall. intros v Hv. apply list_elem_of_fmap in Hv
        as [[date v'] [-> Hin]]. now apply (Hrange date). }
    pose proof (ewm_mean_bounds _ _ _ _ _ Hewma Hvals) as Hall.
    rewrite Forall_lookup in Hall. exact (Hall t e' He').
Qed.

Lemma ewma_within_values_witness :
  exists df,
    add_ewma_bollinger_bands ValueSamples.one_two 2 = Ok df
    /\ forall t e, loc df t "ewma" = Ok (Some e) -> 1 <= e <= 2.
Proof.
  apply (ewma_within_values ValueSamples.one_two 2 1 2); [lia|].
  intros date v Hin. unfold ValueSamples.one_two in Hin.
  rewrite !elem_of_cons, elem_of_nil in Hin.
  destruct Hin as [[= _ ->] | [[= _ ->] | []]]; lra.
Defined.

Lemma sample_std_nonneg window s : sample_std window = Some s -> 0 <= s.
Proof.
  unfold sample_std. destruct (length window <=? 1)%nat; [discriminate|].
  intros [= <-]. apply sqrt_pos.
Qed.

Lemma rolling_std_nonneg window vals t s :
  rolling_std window vals !! t = Some (Some s) -> 0 <= s.
Proof.
  unfold rolling_std. rewrite list_lookup_fmap.
  destruct (seq 0 (length vals) !! t) as [j|]; [|discriminate]. simpl.
  destruct (S j <? window)%nat; [discriminate|].
  intros [= H]. exact (sample_std_nonneg _ _ H).
Qed.

(** X9: wherever the returned frame has both bands, the lower band is at
    most the mean, the mean at most the upper band, and the two bands lie
    at the same distance from the mean. *)
Theorem bands_enclose_ewma portfolio_values halflife_days :
  (0 < halflife_days)%nat ->
  exists df,
    add_ewma_bollinger_bands portfolio_values halflife_days = Ok df
    /\ forall t e upper lower,
         loc df t "ewma" = Ok (Some e) ->
         loc df t "bollinger_upper" = Ok (Some upper) ->
         loc df t "bollinger_lower" = Ok (Some lower) ->
         lower <= e <= upper /\ upper - e = e - lower.
Proof.
  intros Hh.
  destruct (band_frame_cells portfolio_values halflife_days Hh)
    as (df & ewma & Hdf & _ & Hcells).
  exists df. split; [exact Hdf|]. intros t e upper lower He Hup Hlo.
  destruct (Hcells t) as [[_ Hnone]|(e' & sd & _ & Hsd & He' & Hup' & Hlo')].
  - rewrite (loc_index_None _ _ _ Hnone) in He. discriminate.
  - rewrite He' in He. injection He as ->.
    rewrite Hup' in Hup. rewrite Hlo' in Hlo.
    destruct sd as [s|]; [|discriminate].
    simpl in Hup, Hlo. injection Hup as <-. injection Hlo as <-.
    pose proof (rolling_std_nonneg _ _ _ _ Hsd). lra.
Qed.

Lemma bands_enclose_ewma_witness :
  exists df,
    add_ewma_bollinger_bands ValueSamples.one_two 2 = Ok df
    /\ forall t e upper lower,
         loc df t "ewma" = Ok (Some e) ->
         loc df t "bollinger_upper" = Ok (Some upper) ->
         loc df t "bollinger_lower" = Ok (Some lower) ->
         lower <= e <= upper /\ upper - e = e - lower.
Proof. apply (bands_enclose_ewma ValueSamples.one_two 2). lia. Defined.

Lemma sum_constant c window :
  Forall (fun v => v = c) window -> Py.sum window = INR (length window) * c.
Proof.
  induction 1 as [|v window -> _ IH].
  - unfold Py.sum. simpl. ring.
  - rewrite sum_cons, IH. change (length (c :: window)) with (S (length window)).
    rewrite S_INR. ring.
Qed.

Lemma sum_zeros window :
  Forall (fun v => v = 0) window -> Py.sum window = 0.
Proof. intros H. rewrite (sum_constant 0 _ H). ring. Qed.

Lemma sample_std_constant c window :
  (1 < length window)%nat -> Forall (fun v => v = c) window ->
  sample_std window = Some 0.
Proof.
  intros Hlen Hc. unfold sample_std.
  destruct (Nat.leb_spec (length window) 1) as [|_]; [lia|].
  rewrite (sum_constant c _ Hc).
  replace (INR (length window) * c / INR (length window)) with c
    by (field; apply not_0_INR; lia).
  rewrite sum_zeros.
  - unfold Rdiv. rewrite Rmult_0_l, sqrt_0. reflexivity.
  - apply Forall_fmap. eapply Forall_impl; [exact Hc|].
    intros v ->. simpl. ring.
Qed.

(** X10: on a series that never moves the mean is the value itself at every
    date and, for a halflife of at least 2, both bands collapse onto it
    from the date the window is full. *)
Theorem flat_series_has_flat_bands portfolio_values halflife_days c :
  (0 < halflife_days)%nat ->
  (forall date v, (date, v) ∈ portfolio_values -> v = c) ->
  exists df,
    add_ewma_bollinger_bands portfolio_values halflife_days = Ok df
    /\ forall t, (t < length portfolio_values)%nat ->
         loc df t "ewma" = Ok (Some c)
         /\ ((2 <= halflife_days)%nat -> (halflife_days - 1 <= t)%nat ->
             loc df t "bollinger_upper" = Ok (Some c)
             /\ loc df t "bollinger_lower" = Ok (Some c)).
Proof.
  intros Hh Hflat.
  destruct (band_frame_cells portfolio_values halflife_days Hh)
    as (df & ewma & Hdf & Hewma & Hcells).
  exists df. split; [exact Hdf|]. intros t Ht.
  destruct (Hcells t) as [[Hge _]|(e & sd & He & Hsd & Hloc & Hup & Hlo)];
    [lia|].
  assert (Hvals : Forall (fun v => v = c) (map snd portfolio_values)).
  { apply Forall_forall. intros v Hv. apply list_elem_of_fmap in Hv
      as [[date v'] [-> Hin]]. now apply (Hflat date). }
  assert (e = c) as ->.
  { assert (Hb : Forall (fun v => c <= v <= c) (map snd portfolio_values)).
    { eapply Forall_impl; [exact Hvals|]. intros v ->. lra. }
    pose proof (ewm_mean_bounds _ _ _ _ _ Hewma Hb) as Hall.
    rewrite Forall_lookup in Hall. specialize (Hall t e He). lra. }
  split; [exact Hloc|]. intros Hh2 Hfull.
  rewrite rolling_std_lookup in Hsd by now rewrite length_map.
  destruct (Nat.ltb_spec (S t) halflife_days) as [|_]; [lia|].
  rewrite (sample_std_constant c) in Hsd.
  - injection Hsd as <-. rewrite Hup, Hlo. simpl.
    split; do 2 f_equal; ring.
  - rewrite length_take, length_drop, length_map. lia.
  - apply Forall_take, Forall_drop, Hvals.
Qed.

Lemma flat_series_has_flat_bands_witness :
  exists df,
    add_ewma_bollinger_bands [("d0", 5); ("d1", 5); ("d2", 5)]%string 2 = Ok df
    /\ forall t, (t < 3)%nat ->
         loc df t "ewma" = Ok (Some 5)
         /\ ((2 <= 2)%nat -> (2 - 1 <= t)%nat ->
             loc df t "bollinger_upper" = Ok (Some 5)
             /\ loc df t "bollinger_lower" = Ok (Some 5)).
Proof.
  apply (flat_series_has_flat_bands [("d0", 5); ("d1", 5); ("d2", 5)]%string 2 5);
    [lia|].
  intros date v Hin. rewrite !elem_of_cons, elem_of_nil in Hin.
  destruct Hin as [[= _ ->] | [[= _ ->] | [[= _ ->] | []]]]; reflexivity.
Defined.

(** ** One iteration of the simulator, case by case *)

Lemma same_on_refl names df : same_on names df df.
Proof. split; [reflexivity|]. intros; reflexivity. Qed.

Lemma same_on_trans names df1 df2 df3 :
  same_on names df1 df2 -> same_on names df2 df3 -> same_on names df1 df3.
Proof.
  intros [Hi1 Hc1] [Hi2 Hc2]. split; [congruence|].
  intros name Hname. now rewrite Hc1, Hc2.
Qed.

Lemma same_on_set_loc_r names df i name x :
  name ∉ names -> same_on names df (set_loc df i name x).
Proof.
  intros Hname. split; [reflexivity|]. intros n Hn. simpl.
  rewrite lookup_update_ne; [reflexivity|]. intros ->. contradiction.
Qed.

Lemma same_on_set_loc_object_r names df i name s :
  name ∉ names -> same_on names df (set_loc_object df i name s).
Proof.
  intros Hname. split; [reflexivity|]. intros n Hn. simpl.
  rewrite lookup_update_ne; [reflexivity|]. intros ->. contradiction.
Qed.

Lemma trade_columns_not_band name :
  name ∈ trade_columns -> name ∉ band_columns.
Proof.
  unfold trade_columns, band_columns. intros Hname.
  rewrite !elem_of_cons, elem_of_nil in Hname. rewrite !not_elem_of_cons.
  destruct Hname as [-> | [-> | [-> | []]]]; repeat split; try discriminate;
    apply not_elem_of_nil.
Qed.

Lemma same_on_band_add_trade_columns df :
  same_on band_columns df (add_trade_columns df).
Proof.
  split; [reflexivity|]. intros name Hname.
  unfold add_trade_columns, set_column. simpl.
  assert (Hne : forall n, n ∈ trade_columns -> name <> n).
  { intros n Hn ->. now apply (trade_columns_not_band n). }
  rewrite !lookup_assign_ne; [reflexivity|..]; apply Hne; in_names.
Qed.

Lemma loc_set_loc_eq df i name x y :
  loc (set_loc df i name x) i name = Ok y -> y = x.
Proof.
  unfold loc, get_floats. simpl.
  destruct (df_index df !! i); [|discriminate].
  rewrite lookup_update_eq.
  destruct (lookup_column name (df_columns df)) as [[cells|cells]|];
    simpl; try discriminate.
  destruct (Nat.lt_ge_cases i (length cells)) as [Hlt|Hge].
  - rewrite list_lookup_insert_eq by exact Hlt. now intros [= <-].
  - rewrite lookup_ge_None_2 by (now rewrite length_insert). discriminate.
Qed.

Lemma loc_set_loc_object df i name s j name' :
  name' <> name ->
  loc (set_loc_object df i name s) j name' = loc df j name'.
Proof.
  intros Hne. unfold loc, get_floats. simpl.
  now rewrite lookup_update_ne.
Qed.

Lemma fgt_NaN x : fgt x NaN = false.
Proof. now destruct x. Qed.

Lemma flt_NaN x : flt x NaN = false.
Proof. now destruct x. Qed.

(** What one iteration at index [i > 0] does, in each of its five
    branches. *)
Lemma trade_step_cases st i st' :
  (0 < i)%nat -> length (trade_logs st) = i -> trade_step st i = Ok st' ->
  exists date price ewma upper lower carried,
    df_index (frame st) !! i = Some date
    /\ loc (frame st) i "portfolio_value" = Ok price
    /\ loc (frame st) i "ewma" = Ok ewma
    /\ loc (frame st) i "bollinger_upper" = Ok upper
    /\ loc (frame st) i "bollinger_lower" = Ok lower
    /\ loc (frame st) (i - 1) "total_trade_pnl" = Ok carried
    /\ same_on band_columns (frame st) (frame st')
    /\ ((current_position st = None /\ fgt price upper = true
         /\ current_position st' = Some "short"%string
         /\ entry_price st' = price
         /\ realized_balance st' = realized_balance st
         /\ units_traded st' = Some (fdiv (realized_balance st) price)
         /\ trades_tally st' = trades_tally st
         /\ trade_logs st'
            = trade_logs st
              ++ [Build_TradeRecord date price "short_entry"
                    (fadd carried (Some 0))]
         /\ loc (frame st') i "total_trade_pnl" = Ok carried)
        \/ (current_position st = None /\ flt price lower = true
            /\ current_position st' = Some "long"%string
            /\ entry_price st' = price
            /\ realized_balance st' = realized_balance st
            /\ units_traded st' = Some (fdiv (realized_balance st) price)
            /\ trades_tally st' = trades_tally st
            /\ trade_logs st'
               = trade_logs st
                 ++ [Build_TradeRecord date price "long_entry"
                       (fadd carried (Some 0))]
            /\ loc (frame st') i "total_trade_pnl" = Ok carried)
        \/ (current_position st = Some "short"%string
            /\ flt price ewma = true
            /\ exists units,
                 units_traded st = Some units
                 /\ current_position st' = None
                 /\ entry_price st' = entry_price st
                 /\ realized_balance st'
                    = fadd (realized_balance st)
                           (fmul units (fsub (entry_price st) price))
                 /\ units_traded st' = units_traded st
                 /\ trades_tally st' = (trades_tally st + 1)%nat
                 /\ trade_logs st'
                    = trade_logs st
                      ++ [Build_TradeRecord date price "short_exit"
                            (fadd carried
                               (fmul units (fsub (entry_price st) price)))]
                 /\ loc (frame st') i "total_trade_pnl"
                    = Ok (fadd carried
                            (fmul units (fsub (entry_price st) price))))
        \/ (current_position st = Some "long"%string
            /\ fgt price ewma = true
            /\ exists units,
                 units_traded st = Some units
                 /\ current_position st' = None
                 /\ entry_price st' = entry_price st
                 /\ realized_balance st'
                    = fadd (realized_balance st)
                           (fmul units (fsub price (entry_price st)))
                 /\ units_traded st' = units_traded st
                 /\ trades_tally st' = (trades_tally st + 1)%nat
                 /\ trade_logs st'
                    = trade_logs st
                      ++ [Build_TradeRecord date price "long_exit"
                            (fadd carried
                               (fmul units (fsub price (entry_price st))))]
                 /\ loc (frame st') i "total_trade_pnl"
                    = Ok (fadd carried
                            (fmul units (fsub price (entry_price st)))))
        \/ (current_position st' = current_position st
            /\ entry_price st' = entry_price st
            /\ realized_balance st' = realized_balance st
            /\ units_traded st' = units_traded st
            /\ trades_tally st' = trades_tally st
            /\ (exists pnl,
                  trade_logs st'
                  = trade_logs st
                    ++ [Build_TradeRecord date price "neither" pnl]
                  /\ (current_position st = None
                      -> pnl = fadd carried (Some 0)))
            /\ loc (frame st') i "total_trade_pnl" = Ok carried)).
Proof.
  intros Hi Hlen H. unfold trade_step in H. cbv zeta in H.
  apply bind_Ok_inv in H as (price & Hprice & H).
  apply bind_Ok_inv in H as (ewma & Hewma & H).
  apply bind_Ok_inv in H as (upper & Hupper & H).
  apply bind_Ok_inv in H as (lower & Hlower & H).
  apply bind_Ok_inv in H as (df1 & Hdf1 & H).
  rewrite (proj2 (Nat.ltb_lt 0 i) Hi) in Hdf1.
  apply bind_Ok_inv in Hdf1 as (carried & Hcarried & Hdf1).
  injection Hdf1 as <-.
  apply bind_Ok_inv in H as (date & Hdate & H).
  change (df_index (set_loc (frame st) i "total_trade_pnl" carried))
    with (df_index (frame st)) in Hdate.
  destruct (df_index (frame st) !! i) as [date'|] eqn:Hidx; [|discriminate].
  injection Hdate as ->.
  apply bind_Ok_inv in H as (running & Hrunning & H).
  pose proof (loc_set_loc_eq _ _ _ _ _ Hrunning) as ->.
  assert (Hband : "total_trade_pnl"%string ∉ band_columns)
    by (apply trade_columns_not_band; in_names).
  assert (Hband' : "position"%string ∉ band_columns)
    by (apply trade_columns_not_band; in_names).
  exists date, price, ewma, upper, lower, carried.
  do 6 (split; [assumption || reflexivity|]).
  destruct (bool_decide (current_position st = None) && fgt price upper)
    eqn:Hshort_entry.
  { apply andb_true_iff in Hshort_entry as [Hpos Hgt].
    apply bool_decide_eq_true in Hpos.
    apply bind_Ok_inv in H as (logs & Hlogs & H).
    apply relabel_last in Hlogs; [|exact Hlen]. simpl in Hlogs.
    injection H as <-. simpl. split.
    - eapply same_on_trans; [apply same_on_set_loc_r, Hband|].
      apply same_on_set_loc_object_r, Hband'.
    - left. rewrite Hpos in Hlogs.
      rewrite !bool_decide_eq_false_2 in Hlogs by discriminate.
      repeat split; try assumption.
      now rewrite loc_set_loc_object by discriminate. }
  destruct (bool_decide (current_position st = None) && flt price lower)
    eqn:Hlong_entry.
  { apply andb_true_iff in Hlong_entry as [Hpos Hlt].
    apply bool_decide_eq_true in Hpos.
    apply bind_Ok_inv in H as (logs & Hlogs & H).
    apply relabel_last in Hlogs; [|exact Hlen]. simpl in Hlogs.
    injection H as <-. simpl. split.
    - eapply same_on_trans; [apply same_on_set_loc_r, Hband|].
      apply same_on_set_loc_object_r, Hband'.
    - right; left. rewrite Hpos in Hlogs.
      rewrite !bool_decide_eq_false_2 in Hlogs by discriminate.
      repeat split; try assumption.
      now rewrite loc_set_loc_object by discriminate. }
  destruct (bool_decide (current_position st = Some "short"%string)
            && flt price ewma) eqn:Hshort_exit.
  { apply andb_true_iff in Hshort_exit as [Hpos Hlt].
    apply bool_decide_eq_true in Hpos.
    apply bind_Ok_inv in H as (units & Hunits & H).
    apply bind_Ok_inv in H as (running & Hrunning' & H).
    pose proof (loc_set_loc_eq _ _ _ _ _ Hrunning') as ->.
    apply bind_Ok_inv in H as (running & Hrunning'' & H).
    pose proof (loc_set_loc_eq _ _ _ _ _ Hrunning'') as ->.
    apply bind_Ok_inv in H as (logs & Hlogs & H).
    apply relabel_last in Hlogs; [|exact Hlen]. simpl in Hlogs.
    injection H as <-. simpl. split.
    - eapply same_on_trans; apply same_on_set_loc_r, Hband.
    - right; right; left. split; [exact Hpos|]. split; [exact Hlt|].
      exists units. destruct (units_traded st) as [u|]; [|discriminate].
      injection Hunits as ->. repeat split; assumption. }
  destruct (bool_decide (current_position st = Some "long"%string)
            && fgt price ewma) eqn:Hlong_exit.
  { apply andb_true_iff in Hlong_exit as [Hpos Hgt].
    apply bool_decide_eq_true in Hpos.
    apply bind_Ok_inv in H as (units & Hunits & H).
    apply bind_Ok_inv in H as (running & Hrunning' & H).
    pose proof (loc_set_loc_eq _ _ _ _ _ Hrunning') as ->.
    apply bind_Ok_inv in H as (running & Hrunning'' & H).
    pose proof (loc_set_loc_eq _ _ _ _ _ Hrunning'') as ->.
    apply bind_Ok_inv in H as (logs & Hlogs & H).
    apply relabel_last in Hlogs; [|exact Hlen]. simpl in Hlogs.
    injection H as <-. simpl. split.
    - eapply same_on_trans; apply same_on_set_loc_r, Hband.
    - right; right; right; left. split; [exact Hpos|]. split; [exact Hgt|].
      exists units. destruct (units_traded st) as [u|]; [|discriminate].
      injection Hunits as ->. repeat split; assumption. }
  injection H as <-. simpl. split; [apply same_on_set_loc_r, Hband|].
  do 4 right. repeat split; try assumption.
  eexists. split; [reflexivity|]. intros ->.
  now rewrite !bool_decide_eq_false_2 by discriminate.
Qed.

(** What happens before the loop. *)
Lemma trade_init_cases df initial_investment st0 :
  trade_init df initial_investment = Ok st0 ->
  exists first price,
    df_index df !! 0%nat = Some first
    /\ loc df 0 "portfolio_value" = Ok price
    /\ same_on band_columns df (frame st0)
    /\ current_position st0 = None
    /\ realized_balance st0 = Some initial_investment
    /\ units_traded st0 = None
    /\ trades_tally st0 = 0%nat
    /\ trade_logs st0
       = [Build_TradeRecord first price "neither" (Some initial_investment)]
    /\ loc (frame st0) 0 "total_trade_pnl" = Ok (Some initial_investment).
Proof.
  unfold trade_init. cbv zeta. intros H.
  apply bind_Ok_inv in H as (first & Hfirst & H).
  change (df_index (add_trade_columns df)) with (df_index df) in Hfirst.
  destruct (df_index df !! 0%nat) as [first'|] eqn:Hidx; [|discriminate].
  injection Hfirst as ->.
  apply bind_Ok_inv in H as (price & Hprice & H). injection H as <-. simpl.
  assert (Hband : "total_trade_pnl"%string ∉ band_columns)
    by (apply trade_columns_not_band; in_names).
  assert (Hsame : same_on band_columns df
                    (set_loc (add_trade_columns df) 0 "total_trade_pnl"
                       (Some initial_investment))).
  { eapply same_on_trans; [apply same_on_band_add_trade_columns|].
    apply same_on_set_loc_r, Hband. }
  exists first, price. split; [reflexivity|]. split.
  { rewrite (loc_same _ _ _ 0 "portfolio_value" Hsame) by in_names.
    exact Hprice. }
  split; [exact Hsame|]. repeat split.
  unfold loc, get_floats. simpl. rewrite Hidx, lookup_update_eq.
  rewrite (lookup_assign_ne "total_trade_pnl" "position") by discriminate.
  rewrite lookup_assign_eq. simpl.
  destruct (df_index df) as [|d index] eqn:Hindex; [discriminate|].
  unfold len, set_column. simpl. rewrite Hindex. reflexivity.
Qed.

(** A property of the state that every iteration keeps holds after the
    loop. *)
Lemma trade_loop_invariant (I : state -> Prop) :
  (forall st i st',
      (0 < i)%nat -> length (trade_logs st) = i -> I st ->
      trade_step st i = Ok st' -> I st') ->
  forall n st st',
    (0 < length (trade_logs st))%nat ->
    trade_loop st (seq (length (trade_logs st)) n) = Ok st' ->
    I st -> I st'.
Proof.
  intros Hstep. induction n as [|n IH]; intros st st' Hpos Hloop HI.
  - simpl in Hloop. now injection Hloop as <-.
  - simpl in Hloop. apply bind_Ok_inv in Hloop as (st1 & Hst1 & Hloop).
    destruct (trade_step_log _ _ _ eq_refl Hst1) as (r & Hlogs & _).
    assert (Hlen : length (trade_logs st1) = S (length (trade_logs st)))
      by (rewrite Hlogs, length_app; simpl; lia).
    rewrite <- Hlen in Hloop.
    apply (IH st1 st'); [lia|exact Hloop|].
    exact (Hstep _ _ _ Hpos eq_refl HI Hst1).
Qed.

(** The same for a whole run: what holds after the set-up and is kept by
    every iteration holds for the state the run ends in. *)
Lemma track_trades_run_invariant (I : state -> Prop) df initial_investment st :
  (forall st0, trade_init df initial_investment = Ok st0 -> I st0) ->
  (forall st i st',
      (0 < i)%nat -> length (trade_logs st) = i -> I st ->
      trade_step st i = Ok st' -> I st') ->
  track_trades_run df initial_investment = Ok st ->
  exists st', I st' /\ st = trade_report st'
              /\ length (trade_logs st') = len df /\ (0 < len df)%nat.
Proof.
  intros Hinit Hstep Hrun. unfold track_trades_run in Hrun.
  apply bind_Ok_inv in Hrun as (st0 & Hst0 & Hrun).
  apply bind_Ok_inv in Hrun as (st' & Hst' & Hrun). injection Hrun as <-.
  destruct (trade_init_cases _ _ _ Hst0)
    as (first & price & Hidx & _ & _ & _ & _ & _ & _ & Hlogs & _).
  assert (Hlen0 : length (trade_logs st0) = 1%nat) by now rewrite Hlogs.
  assert (Hlen : (0 < len df)%nat).
  { unfold len. destruct (df_index df); [discriminate|simpl; lia]. }
  exists st'.
  replace (seq 1 (len df - 1))
    with (seq (length (trade_logs st0)) (len df - 1)) in Hst'
    by now rewrite Hlen0.
  split; [|split; [reflexivity|split; [|exact Hlen]]].
  - apply (trade_loop_invariant I Hstep (len df - 1) st0 st');
      [lia|exact Hst'|apply Hinit, Hst0].
  - apply trade_loop_log in Hst'. lia.
Qed.

Lemma track_trades_inv df initial_investment logs tally :
  track_trades df initial_investment = Ok (logs, tally) ->
  exists st, track_trades_run df initial_investment = Ok st
             /\ trade_logs st = logs /\ trades_tally st = tally.
Proof.
  unfold track_trades. intros H.
  apply bind_Ok_inv in H as (st & Hst & H). injection H as <- <-.
  now exists st.
Qed.

Lemma count_type_snoc tag logs r :
  count_type tag (logs ++ [r])
  = (count_type tag logs + if bool_decide (trade_type r = tag) then 1 else 0)%nat.
Proof.
  unfold count_type. rewrite List.filter_app, length_app. simpl.
  now destruct (bool_decide (trade_type r = tag)).
Qed.

(** ** The log, record by record *)

(** X11: the log of a run that returns has one record per date of the frame,
    in the order of the index; each record carries its date and the
    portfolio value of that date, and the first one is the baseline: no
    trade, and the initial investment as running value. *)
Theorem log_follows_index df initial_investment logs tally :
  track_trades df initial_investment = Ok (logs, tally) ->
  map trade_date logs = df_index df
  /\ (forall i r, logs !! i = Some r ->
        loc df i "portfolio_value" = Ok (trade_price r))
  /\ exists r0, logs !! 0%nat = Some r0
                /\ trade_type r0 = "neither"%string
                /\ total_trade_pnl r0 = Some initial_investment.
Proof.
  intros H. apply track_trades_inv in H as (st & Hrun & <- & _).
  pose (I := fun st : state =>
    same_on band_columns df (frame st)
    /\ map trade_date (trade_logs st)
       = take (length (trade_logs st)) (df_index df)
    /\ (forall i r, trade_logs st !! i = Some r ->
          loc df i "portfolio_value" = Ok (trade_price r))
    /\ exists r0, trade_logs st !! 0%nat = Some r0
                  /\ trade_type r0 = "neither"%string
                  /\ total_trade_pnl r0 = Some initial_investment).
  destruct (track_trades_run_invariant I df initial_investment st)
    as (st' & (_ & Hdates & Hprices & Hfirst) & -> & Hlen & _); [| |exact Hrun|].
  - intros st0 Hst0.
    destruct (trade_init_cases _ _ _ Hst0)
      as (first & price & Hidx & Hprice & Hsame & _ & _ & _ & _ & Hlogs & _).
    unfold I. rewrite Hlogs. split; [exact Hsame|]. split.
    { simpl. destruct (df_index df); [discriminate|].
      simpl. now injection Hidx as ->. }
    split.
    { intros [|i] r; [|discriminate]. now intros [= <-]. }
    eexists. repeat split.
  - intros st1 i st2 Hi Hleni (Hsame & Hdates & Hprices & Hfirst) Hstep.
    destruct (trade_step_cases _ _ _ Hi Hleni Hstep)
      as (date & price & ewma & upper & lower & carried
          & Hidx & Hprice & _ & _ & _ & _ & Hsame' & Hcases).
    assert (Hlogs : exists tag pnl,
               trade_logs st2
               = trade_logs st1 ++ [Build_TradeRecord date price tag pnl]).
    { destruct Hcases as
        [ (_ & _ & _ & _ & _ & _ & _ & Hl & _)
        | [ (_ & _ & _ & _ & _ & _ & _ & Hl & _)
          | [ (_ & _ & units & _ & _ & _ & _ & _ & _ & Hl & _)
            | [ (_ & _ & units & _ & _ & _ & _ & _ & _ & Hl & _)
              | (_ & _ & _ & _ & _ & (pnl & Hl & _) & _) ]]]];
        rewrite Hl; eauto. }
    destruct Hlogs as (tag & pnl & Hlogs).
    rewrite <- (proj1 Hsame) in Hidx. unfold I. rewrite Hlogs.
    split; [exact (same_on_trans _ _ _ _ Hsame Hsame')|]. split.
    { rewrite map_app, Hdates, length_app, Hleni. simpl.
      rewrite Nat.add_1_r. symmetry. now apply take_S_r. }
    split.
    { intros j r Hj. apply lookup_app_Some in Hj as [Hj|[Hge Hj]].
      - now apply Hprices.
      - rewrite Hleni in Hj, Hge.
        destruct (j - i)%nat as [|d] eqn:Hd; [|discriminate].
        injection Hj as <-. simpl. assert (j = i) as -> by lia.
        now rewrite (loc_same _ _ _ i "portfolio_value" Hsame) by in_names. }
    destruct Hfirst as (r0 & Hr0 & Hr0').
    exists r0. split; [|exact Hr0']. now apply lookup_app_l_Some.
  - simpl. split; [|split; assumption].
    rewrite Hdates, Hlen. apply firstn_all.
Qed.

Lemma log_follows_index_witness :
  exists logs tally,
    track_trades TradeSamples.short_then_cover 1000 = Ok (logs, tally)
    /\ map trade_date logs = df_index TradeSamples.short_then_cover
    /\ (forall i r, logs !! i = Some r ->
          loc TradeSamples.short_then_cover i "portfolio_value"
          = Ok (trade_price r))
    /\ exists r0, logs !! 0%nat = Some r0
                  /\ trade_type r0 = "neither"%string
                  /\ total_trade_pnl r0 = Some 1000.
Proof.
  destruct short_then_cover_run as (st & Hrun & _).
  exists (trade_logs st), (trades_tally st).
  assert (Hret : track_trades TradeSamples.short_then_cover 1000
                 = Ok (trade_logs st, trades_tally st))
    by (unfold track_trades; rewrite Hrun; reflexivity).
  split; [exact Hret|].
  exact (log_follows_index _ _ _ _ Hret).
Defined.

Lemma one_side_open (position : option string) :
  ((if bool_decide (position = Some "short"%string) then 1 else 0)
   + (if bool_decide (position = Some "long"%string) then 1 else 0) <= 1)%nat.
Proof. repeat case_bool_decide; simpl; try lia. congruence. Qed.

(** X12: at every point of the log at most one position is open: among the
    records up to any index, each kind of exit is matched by an earlier
    entry of its kind, and the entries exceed the exits by at most one. *)
Theorem at_most_one_position_open df initial_investment logs tally :
  track_trades df initial_investment = Ok (logs, tally) ->
  forall k,
    (count_type "short_exit" (take k logs)
     <= count_type "short_entry" (take k logs))%nat
    /\ (count_type "long_exit" (take k logs)
        <= count_type "long_entry" (take k logs))%nat
    /\ (count_type "short_entry" (take k logs)
        + count_type "long_entry" (take k logs)
        <= count_type "short_exit" (take k logs)
           + count_type "long_exit" (take k logs) + 1)%nat.
Proof.
  intros H. apply track_trades_inv in H as (st & Hrun & <- & _).
  pose (bounded := fun seen : list TradeRecord =>
    (count_type "short_exit" seen <= count_type "short_entry" seen)%nat
    /\ (count_type "long_exit" seen <= count_type "long_entry" seen)%nat
    /\ (count_type "short_entry" seen + count_type "long_entry" seen
        <= count_type "short_exit" seen + count_type "long_exit" seen + 1)%nat).
  pose (I := fun st : state =>
    count_type "short_entry" (trade_logs st)
    = (count_type "short_exit" (trade_logs st)
       + if bool_decide (current_position st = Some "short"%string)
         then 1 else 0)%nat
    /\ count_type "long_entry" (trade_logs st)
       = (count_type "long_exit" (trade_logs st)
          + if bool_decide (current_position st = Some "long"%string)
            then 1 else 0)%nat
    /\ forall k, bounded (take k (trade_logs st))).
  destruct (track_trades_run_invariant I df initial_investment st)
    as (st' & (_ & _ & Hall) & -> & _); [| |exact Hrun|exact Hall].
  - intros st0 Hst0.
    destruct (trade_init_cases _ _ _ Hst0)
      as (first & price & _ & _ & _ & Hpos & _ & _ & _ & Hlogs & _).
    unfold I. rewrite Hlogs, Hpos. repeat split;
      try (destruct k as [|[|k]]); unfold count_type; simpl; lia.
  - intros st1 i st2 Hi Hleni (Hshort & Hlong & Hall) Hstep.
    assert (Hnow : count_type "short_entry" (trade_logs st2)
                   = (count_type "short_exit" (trade_logs st2)
                      + if bool_decide (current_position st2 = Some "short"%string)
                        then 1 else 0)%nat
                   /\ count_type "long_entry" (trade_logs st2)
                      = (count_type "long_exit" (trade_logs st2)
                         + if bool_decide (current_position st2 = Some "long"%string)
                           then 1 else 0)%nat).
    { destruct (trade_step_cases _ _ _ Hi Hleni Hstep)
        as (date & price & ewma & upper & lower & carried
            & _ & _ & _ & _ & _ & _ & _ & Hcases).
      destruct Hcases as
        [ (Hpos & _ & Hpos' & _ & _ & _ & _ & Hl & _)
        | [ (Hpos & _ & Hpos' & _ & _ & _ & _ & Hl & _)
          | [ (Hpos & _ & units & _ & Hpos' & _ & _ & _ & _ & Hl & _)
            | [ (Hpos & _ & units & _ & Hpos' & _ & _ & _ & _ & Hl & _)
              | (Hpos' & _ & _ & _ & _ & (pnl & Hl & _) & _) ]]]];
        rewrite Hl, !count_type_snoc, Hpos'; try rewrite Hpos in Hshort, Hlong;
        simpl in *; lia. }
    destruct Hnow as [Hshort' Hlong'].
    split; [exact Hshort'|]. split; [exact Hlong'|]. intros k.
    destruct (trade_step_log _ _ _ Hleni Hstep) as (r & Hlogs & _).
    destruct (Nat.le_gt_cases k (length (trade_logs st1))) as [Hk|Hk].
    + rewrite Hlogs, take_app_le by exact Hk. apply Hall.
    + rewrite take_ge by (rewrite Hlogs, length_app; simpl; lia).
      pose proof (one_side_open (current_position st2)).
      unfold bounded. lia.
Qed.

Lemma at_most_one_position_open_witness :
  exists logs tally,
    track_trades TradeSamples.short_then_cover 1000 = Ok (logs, tally)
    /\ forall k,
         (count_type "short_exit" (take k logs)
          <= count_type "short_entry" (take k logs))%nat
         /\ (count_type "long_exit" (take k logs)
             <= count_type "long_entry" (take k logs))%nat
         /\ (count_type "short_entry" (take k logs)
             + count_type "long_entry" (take k logs)
             <= count_type "short_exit" (take k logs)
                + count_type "long_exit" (take k logs) + 1)%nat.
Proof.
  destruct short_then_cover_run as (st & Hrun & _).
  exists (trade_logs st), (trades_tally st).
  assert (Hret : track_trades TradeSamples.short_then_cover 1000
                 = Ok (trade_logs st, trades_tally st))
    by (unfold track_trades; rewrite Hrun; reflexivity).
  split; [exact Hret|].
  exact (at_most_one_position_open _ _ _ _ Hret).
Defined.

(** ** The running total and the balance *)

(** X13: when a run returns, the running total in the last row of the frame
    is the realized balance the run ends with (the one it prints), and that
    balance is still the initial investment when no trade was completed. *)
Theorem running_total_is_realized_balance df initial_investment st :
  track_trades_run df initial_investment = Ok st ->
  loc (frame st) (len df - 1) "total_trade_pnl" = Ok (realized_balance st)
  /\ FinalRealizedBalance (realized_balance st) ∈ stdout st
  /\ (trades_tally st = 0%nat ->
      realized_balance st = Some initial_investment).
Proof.
  intros Hrun.
  pose (I := fun st : state =>
    loc (frame st) (length (trade_logs st) - 1) "total_trade_pnl"
    = Ok (realized_balance st)
    /\ (trades_tally st = 0%nat ->
        realized_balance st = Some initial_investment)).
  destruct (track_trades_run_invariant I df initial_investment st)
    as (st' & (Hcell & Hflat) & -> & Hlen & _); [| |exact Hrun|].
  - intros st0 Hst0.
    destruct (trade_init_cases _ _ _ Hst0)
      as (first & price & _ & _ & _ & _ & Hrb & _ & _ & Hlogs & Hcell).
    unfold I. rewrite Hlogs, Hrb. simpl. split; [exact Hcell|reflexivity].
  - intros st1 i st2 Hi Hleni (Hcell & Hflat) Hstep.
    destruct (trade_step_log _ _ _ Hleni Hstep) as (r & Hlogs & _).
    assert (Hlen2 : (length (trade_logs st2) - 1 = i)%nat)
      by (rewrite Hlogs, length_app; simpl; lia).
    destruct (trade_step_cases _ _ _ Hi Hleni Hstep)
      as (date & price & ewma & upper & lower & carried
          & _ & _ & _ & _ & _ & Hcarried & _ & Hcases).
    rewrite Hleni, Hcarried in Hcell. injection Hcell as ->.
    unfold I. rewrite Hlen2.
    destruct Hcases as
      [ (_ & _ & _ & _ & Hrb & _ & Htally & _ & Hcell)
      | [ (_ & _ & _ & _ & Hrb & _ & Htally & _ & Hcell)
        | [ (_ & _ & units & _ & _ & _ & Hrb & _ & Htally & _ & Hcell)
          | [ (_ & _ & units & _ & _ & _ & Hrb & _ & Htally & _ & Hcell)
            | (_ & _ & Hrb & _ & Htally & _ & Hcell) ]]]];
      rewrite Hrb, Htally; (split; [exact Hcell|]);
      first [exact Hflat | intros; lia].
  - simpl. rewrite Hlen in Hcell. split; [exact Hcell|]. split; [|exact Hflat].
    rewrite elem_of_app. right. rewrite !elem_of_cons. auto.
Qed.

Lemma running_total_is_realized_balance_witness :
  exists st,
    track_trades_run TradeSamples.short_then_cover 1000 = Ok st
    /\ loc (frame st) (len TradeSamples.short_then_cover - 1) "total_trade_pnl"
       = Ok (realized_balance st)
    /\ FinalRealizedBalance (realized_balance st) ∈ stdout st
    /\ (trades_tally st = 0%nat -> realized_balance st = Some 1000).
Proof.
  destruct short_then_cover_run as (st & Hrun & _).
  exists st. split; [exact Hrun|].
  exact (running_total_is_realized_balance _ _ _ Hrun).
Defined.

(** ** Dates without bands *)

(** While the bands are NaN the simulator stays out of the market. *)
Lemma quiet_while_bands_missing df initial_investment st k :
  track_trades_run df initial_investment = Ok st ->
  (forall t, (0 < t < k)%nat ->
     loc df t "bollinger_upper" = Ok NaN
     /\ loc df t "bollinger_lower" = Ok NaN) ->
  (forall t r, (t < k)%nat -> trade_logs st !! t = Some r ->
     trade_type r = "neither"%string
     /\ total_trade_pnl r = Some initial_investment)
  /\ ((len df <= k)%nat ->
      trades_tally st = 0%nat /\ current_position st = None).
Proof.
  intros Hrun Hnan.
  pose (I := fun st : state =>
    same_on band_columns df (frame st)
    /\ ((length (trade_logs st) <= k)%nat ->
        current_position st = None /\ trades_tally st = 0%nat
        /\ loc (frame st) (length (trade_logs st) - 1) "total_trade_pnl"
           = Ok (Some initial_investment))
    /\ forall t r, (t < k)%nat -> trade_logs st !! t = Some r ->
         trade_type r = "neither"%string
         /\ total_trade_pnl r = Some initial_investment).
  destruct (track_trades_run_invariant I df initial_investment st)
    as (st' & (_ & Hflat & Hquiet) & -> & Hlen & _); [| |exact Hrun|].
  - intros st0 Hst0.
    destruct (trade_init_cases _ _ _ Hst0)
      as (first & price & _ & _ & Hsame & Hpos & _ & _ & Htally & Hlogs & Hcell).
    unfold I. rewrite Hlogs. split; [exact Hsame|]. split.
    + intros _. now simpl.
    + intros [|t] r _; [|discriminate]. now intros [= <-].
  - intros st1 i st2 Hi Hleni (Hsame & Hflat & Hquiet) Hstep.
    destruct (trade_step_log _ _ _ Hleni Hstep) as (r & Hlogs & _).
    assert (Hlen2 : length (trade_logs st2) = S i)
      by (rewrite Hlogs, length_app; simpl; lia).
    destruct (trade_step_cases _ _ _ Hi Hleni Hstep)
      as (date & price & ewma & upper & lower & carried
          & _ & _ & _ & Hupper & Hlower & Hcarried & Hsame' & Hcases).
    unfold I. split; [exact (same_on_trans _ _ _ _ Hsame Hsame')|].
    destruct (Nat.le_gt_cases k i) as [Hout|Hin].
    + split; [rewrite Hlen2; lia|].
      intros t r' Ht. rewrite Hlogs, lookup_app_l by lia. now apply Hquiet.
    + destruct Hflat as (Hpos & Htally & Hcell); [lia|].
      rewrite Hleni, Hcarried in Hcell. injection Hcell as ->.
      destruct (Hnan i) as [Hup Hlo]; [lia|].
      rewrite (loc_same _ _ _ i "bollinger_upper" Hsame), Hupper in Hup
        by in_names.
      rewrite (loc_same _ _ _ i "bollinger_lower" Hsame), Hlower in Hlo
        by in_names.
      injection Hup as ->. injection Hlo as ->.
      destruct Hcases as
        [ (_ & Hgt & _)
        | [ (_ & Hlt & _)
          | [ (Hpos' & _)
            | [ (Hpos' & _)
              | (Hpos2 & _ & _ & _ & Htally2 & (pnl & Hl & Hpnl) & Hcell) ]]]].
      * rewrite fgt_NaN in Hgt. discriminate.
      * rewrite flt_NaN in Hlt. discriminate.
      * congruence.
      * congruence.
      * rewrite Hlen2, Hpos2, Htally2. simpl. rewrite Nat.sub_0_r.
        split; [now intros _|].
        intros t r' Ht. rewrite Hl. intros Hr'.
        apply lookup_app_Some in Hr' as [Hr'|[Hge Hr']];
          [now apply (Hquiet t)|].
        destruct (t - length (trade_logs st1))%nat; [|discriminate].
        injection Hr' as <-. simpl. split; [reflexivity|].
        rewrite (Hpnl Hpos). simpl. f_equal. ring.
  - simpl. split; [exact Hquiet|]. intros Hk.
    destruct Hflat as (Hpos & Htally & _); [lia|]. now split.
Qed.

(** X14: the simulator does not trade on a date whose bands are NaN: when
    both bands are NaN at every date before [k] (the first date is never
    examined), the first [k] records of the log are all [neither] and carry
    the initial investment as running value. *)
Theorem no_trade_without_bands df initial_investment logs tally k :
  track_trades df initial_investment = Ok (logs, tally) ->
  (forall t, (0 < t < k)%nat ->
     loc df t "bollinger_upper" = Ok NaN
     /\ loc df t "bollinger_lower" = Ok NaN) ->
  forall t r, (t < k)%nat -> logs !! t = Some r ->
    trade_type r = "neither"%string
    /\ total_trade_pnl r = Some initial_investment.
Proof.
  intros H Hnan. apply track_trades_inv in H as (st & Hrun & <- & _).
  exact (proj1 (quiet_while_bands_missing _ _ _ _ Hrun Hnan)).
Qed.

Lemma warm_up_run :
  exists st,
    track_trades_run TradeSamples.warm_up 1000 = Ok st
    /\ map trade_type (trade_logs st)
       = ["neither"; "neither"; "short_entry"]%string.
Proof.
  eexists. split.
  - unfold track_trades_run. simpl. do 2 run_step. reflexivity.
  - reflexivity.
Qed.

Lemma no_trade_without_bands_witness :
  exists logs tally,
    track_trades TradeSamples.warm_up 1000 = Ok (logs, tally)
    /\ forall t r, (t < 2)%nat -> logs !! t = Some r ->
         trade_type r = "neither"%string
         /\ total_trade_pnl r = Some 1000.
Proof.
  destruct warm_up_run as (st & Hrun & _).
  exists (trade_logs st), (trades_tally st).
  assert (Hret : track_trades TradeSamples.warm_up 1000
                 = Ok (trade_logs st, trades_tally st))
    by (unfold track_trades; rewrite Hrun; reflexivity).
  split; [exact Hret|].
  apply (no_trade_without_bands _ _ _ _ 2 Hret). intros t Ht.
  assert (t = 1%nat) as -> by lia. split; reflexivity.
Defined.

(** X15: the estimator and the simulator together: on the frame the
    estimator makes of a series, the simulator returns, and it does not
    trade before the window of the standard deviation is full: the records
    of the dates before [halflife_days - 1] are [neither] at the initial
    investment.  With a halflife of 1, or a series shorter than the
    halflife, no trade is made at all. *)
Theorem no_trade_before_window_fills
    portfolio_values halflife_days initial_investment :
  portfolio_values <> [] -> (0 < halflife_days)%nat ->
  exists df logs tally,
    add_ewma_bollinger_bands portfolio_values halflife_days = Ok df
    /\ track_trades df initial_investment = Ok (logs, tally)
    /\ (forall t r,
          (halflife_days = 1 \/ t < halflife_days - 1)%nat ->
          logs !! t = Some r ->
          trade_type r = "neither"%string
          /\ total_trade_pnl r = Some initial_investment)
    /\ ((halflife_days = 1 \/ length portfolio_values < halflife_days)%nat ->
        tally = 0%nat).
Proof.
  intros Hne Hh.
  destruct (pipeline_returns portfolio_values halflife_days initial_investment
              Hne Hh) as (df & logs & tally & Hdf & Htrades & Hlen).
  exists df, logs, tally. split; [exact Hdf|]. split; [exact Htrades|].
  destruct (band_frame_cells portfolio_values halflife_days Hh)
    as (df' & ewma & Hdf' & _ & Hcells).
  rewrite Hdf in Hdf'. injection Hdf' as <-.
  destruct (estimator_returns_band_frame _ _ Hne Hh) as (df' & Hdf' & _ & Hlendf).
  rewrite Hdf in Hdf'. injection Hdf' as <-.
  apply track_trades_inv in Htrades as (st & Hrun & <- & <-).
  set (k := if decide (halflife_days = 1%nat) then length portfolio_values
            else Nat.min (halflife_days - 1) (length portfolio_values)).
  assert (Hnan : forall t, (0 < t < k)%nat ->
            loc df t "bollinger_upper" = Ok NaN
            /\ loc df t "bollinger_lower" = Ok NaN).
  { intros t Ht.
    assert (Ht' : (t < length portfolio_values)%nat
                  /\ (halflife_days = 1 \/ t < halflife_days - 1)%nat).
    { unfold k in Ht. destruct (decide (halflife_days = 1%nat)); lia. }
    destruct (Hcells t) as [[Hge _]|(e & sd & _ & Hsd & _ & Hup & Hlo)];
      [lia|].
    assert (sd = NaN) as ->.
    { eapply rolling_std_NaN; [exact Hh| |exact Hsd|exact (proj2 Ht')].
      rewrite length_map. exact (proj1 Ht'). }
    now rewrite Hup, Hlo. }
  destruct (quiet_while_bands_missing _ _ _ _ Hrun Hnan) as [Hquiet Hflat].
  split.
  - intros t r Ht Hr. apply (Hquiet t r); [|exact Hr].
    apply lookup_lt_Some in Hr. rewrite Hlen in Hr.
    unfold k. destruct (decide (halflife_days = 1%nat)); lia.
  - intros Hshort. apply Hflat. rewrite Hlendf.
    unfold k. destruct (decide (halflife_days = 1%nat)); lia.
Qed.

Lemma no_trade_before_window_fills_witness :
  exists df logs tally,
    add_ewma_bollinger_bands ValueSamples.one_two 1 = Ok df
    /\ track_trades df 1000 = Ok (logs, tally)
    /\ (forall t r,
          (1 = 1 \/ t < 1 - 1)%nat ->
          logs !! t = Some r ->
          trade_type r = "neither"%string
          /\ total_trade_pnl r = Some 1000)
    /\ ((1 = 1 \/ length ValueSamples.one_two < 1)%nat -> tally = 0%nat).
Proof.
  apply (no_trade_before_window_fills ValueSamples.one_two 1 1000);
    [discriminate|lia].
Defined.

(** ** A round trip *)

(** The entry a position was opened at, as the loop remembers it. *)
Lemma open_position_invariant df initial_investment st :
  track_trades_run df initial_investment = Ok st ->
  forall a b ra rb,
    (a < b)%nat ->
    trade_logs st !! a = Some ra -> trade_logs st !! b = Some rb ->
    (forall j r, (a < j < b)%nat -> trade_logs st !! j = Some r ->
                 trade_type r = "neither"%string) ->
    (trade_type ra = "long_entry"%string ->
     trade_type rb = "long_exit"%string ->
     exists balance,
       total_trade_pnl ra = fadd balance (Some 0)
       /\ total_trade_pnl rb
          = fadd balance
              (fmul (fdiv balance (trade_price ra))
                    (fsub (trade_price rb) (trade_price ra))))
    /\ (trade_type ra = "short_entry"%string ->
        trade_type rb = "short_exit"%string ->
        exists balance,
          total_trade_pnl ra = fadd balance (Some 0)
          /\ total_trade_pnl rb
             = fadd balance
                 (fmul (fdiv balance (trade_price ra))
                       (fsub (trade_price ra) (trade_price rb)))).
Proof.
  intros Hrun.
  pose (Q := fun logs : list TradeRecord =>
    forall a b ra rb,
      (a < b)%nat -> logs !! a = Some ra -> logs !! b = Some rb ->
      (forall j r, (a < j < b)%nat -> logs !! j = Some r ->
                   trade_type r = "neither"%string) ->
      (trade_type ra = "long_entry"%string ->
       trade_type rb = "long_exit"%string ->
       exists balance,
         total_trade_pnl ra = fadd balance (Some 0)
         /\ total_trade_pnl rb
            = fadd balance
                (fmul (fdiv balance (trade_price ra))
                      (fsub (trade_price rb) (trade_price ra))))
      /\ (trade_type ra = "short_entry"%string ->
          trade_type rb = "short_exit"%string ->
          exists balance,
            total_trade_pnl ra = fadd balance (Some 0)
            /\ total_trade_pnl rb
               = fadd balance
                   (fmul (fdiv balance (trade_price ra))
                         (fsub (trade_price ra) (trade_price rb))))).
  pose (opened := fun st : state =>
    current_position st = None
    \/ exists a ra,
         trade_logs st !! a = Some ra
         /\ (forall j r, (a < j)%nat -> trade_logs st !! j = Some r ->
                         trade_type r = "neither"%string)
         /\ entry_price st = trade_price ra
         /\ units_traded st
            = Some (fdiv (realized_balance st) (trade_price ra))
         /\ total_trade_pnl ra = fadd (realized_balance st) (Some 0)
         /\ ((current_position st = Some "long"%string
              /\ trade_type ra = "long_entry"%string)
             \/ (current_position st = Some "short"%string
                 /\ trade_type ra = "short_entry"%string))).
  pose (I := fun st : state =>
    loc (frame st) (length (trade_logs st) - 1) "total_trade_pnl"
    = Ok (realized_balance st)
    /\ opened st /\ Q (trade_logs st)).
  destruct (track_trades_run_invariant I df initial_investment st)
    as (st' & (_ & _ & HQ) & -> & _); [| |exact Hrun|exact HQ].
  - intros st0 Hst0.
    destruct (trade_init_cases _ _ _ Hst0)
      as (first & price & _ & _ & _ & Hpos & Hrb & _ & _ & Hlogs & Hcell).
    unfold I. rewrite Hlogs, Hrb. simpl. split; [exact Hcell|].
    split; [left; exact Hpos|].
    intros a b ra rb Hab Ha Hb. apply lookup_lt_Some in Hb. simpl in Hb. lia.
  - intros st1 i st2 Hi Hleni (Hcell & Hopen & HQ) Hstep.
    destruct (trade_step_log _ _ _ Hleni Hstep) as (rnew & Hlogs & _).
    assert (Hlen2 : length (trade_logs st2) = S i)
      by (rewrite Hlogs, length_app; simpl; lia).
    destruct (trade_step_cases _ _ _ Hi Hleni Hstep)
      as (date & price & ewma & upper & lower & carried
          & _ & _ & _ & _ & _ & Hcarried & _ & Hcases).
    rewrite Hleni, Hcarried in Hcell. injection Hcell as ->.
    (* pairs that end before the new record *)
    assert (Hbefore : forall a b ra rb,
              (a < b)%nat -> (b < i)%nat ->
              trade_logs st2 !! a = Some ra -> trade_logs st2 !! b = Some rb ->
              (forall j r, (a < j < b)%nat -> trade_logs st2 !! j = Some r ->
                           trade_type r = "neither"%string) ->
              trade_logs st1 !! a = Some ra /\ trade_logs st1 !! b = Some rb
              /\ forall j r, (a < j < b)%nat -> trade_logs st1 !! j = Some r ->
                             trade_type r = "neither"%string).
    { intros a b ra rb Hab Hb Hra Hrb Hbetween.
      rewrite Hlogs in Hra, Hrb. rewrite lookup_app_l in Hra, Hrb by lia.
      split; [exact Hra|]. split; [exact Hrb|].
      intros j r Hj Hr. apply (Hbetween j r Hj).
      rewrite Hlogs. now apply lookup_app_l_Some. }
    assert (Hlast : forall b rb, trade_logs st2 !! b = Some rb ->
              (b < i)%nat \/ (b = i /\ rb = rnew)).
    { intros b rb Hrb. pose proof (lookup_lt_Some _ _ _ Hrb) as Hb.
      rewrite Hlen2 in Hb. destruct (decide (b = i)) as [->|Hne]; [|lia].
      right. split; [reflexivity|].
      rewrite Hlogs, list_lookup_middle in Hrb by (symmetry; exact Hleni).
      now injection Hrb. }
    (* a new record that is no exit closes no pair *)
    assert (Hkeep : trade_type rnew <> "long_exit"%string ->
                    trade_type rnew <> "short_exit"%string ->
                    Q (trade_logs st2)).
    { intros Hnl Hns a b ra rb Hab Hra Hrb Hbetween.
      destruct (Hlast b rb Hrb) as [Hb|[-> ->]].
      - destruct (Hbefore a b ra rb Hab Hb Hra Hrb Hbetween)
          as (Hra' & Hrb' & Hbetween').
        exact (HQ a b ra rb Hab Hra' Hrb' Hbetween').
      - split; intros _ Hexit; contradiction. }
    unfold I. rewrite Hlen2. simpl. rewrite Nat.sub_0_r.
    destruct Hcases as
      [ (Hpos & _ & Hpos' & Hentry & Hbal & Hunits & _ & Hl & Hcell)
      | [ (Hpos & _ & Hpos' & Hentry & Hbal & Hunits & _ & Hl & Hcell)
        | [ (Hpos & _ & units & Hunits & Hpos' & _ & Hbal & _ & _ & Hl & Hcell)
          | [ (Hpos & _ & units & Hunits & Hpos' & _ & Hbal & _ & _ & Hl & Hcell)
            | (Hpos' & Hentry & Hbal & Hunits & _ & (pnl & Hl & _) & Hcell)
            ]]]];
      rewrite Hl in Hlogs; apply app_inj_tail in Hlogs as [_ Hnew].
    + (* short entry *)
      rewrite Hbal. split; [exact Hcell|]. split.
      * right. eexists i, _. split.
        { rewrite Hl. apply list_lookup_middle. now symmetry. }
        split.
        { intros j r Hj Hr. apply lookup_lt_Some in Hr. lia. }
        simpl. rewrite Hunits, Hbal. repeat split; auto.
      * apply Hkeep; rewrite <- Hnew; discriminate.
    + (* long entry *)
      rewrite Hbal. split; [exact Hcell|]. split.
      * right. eexists i, _. split.
        { rewrite Hl. apply list_lookup_middle. now symmetry. }
        split.
        { intros j r Hj Hr. apply lookup_lt_Some in Hr. lia. }
        simpl. rewrite Hunits, Hbal. repeat split; auto.
      * apply Hkeep; rewrite <- Hnew; discriminate.
    + (* short exit *)
      rewrite Hbal. split; [exact Hcell|]. split; [left; exact Hpos'|].
      destruct Hopen as [Hnone|(a0 & ra0 & Hra0 & Hafter & He & Hu & Htot & Hkind)];
        [congruence|].
      destruct Hkind as [[Hlong _]|[_ Hkind]]; [congruence|].
      rewrite Hunits in Hu. injection Hu as ->.
      pose proof (lookup_lt_Some _ _ _ Hra0) as Ha0.
      intros a b ra rb Hab Hra Hrb Hbetween.
      destruct (Hlast b rb Hrb) as [Hb|[-> ->]].
      { destruct (Hbefore a b ra rb Hab Hb Hra Hrb Hbetween)
          as (Hra' & Hrb' & Hbetween').
        exact (HQ a b ra rb Hab Hra' Hrb' Hbetween'). }
      rewrite <- Hnew. simpl.
      split; [intros _ Hexit; discriminate|]. intros Hentry _.
      rewrite Hl, lookup_app_l in Hra by lia.
      assert (a = a0) as ->.
      { destruct (Nat.lt_trichotomy a a0) as [Hlt|[Heq|Hgt]]; [|exact Heq|].
        - assert (Hn : trade_type ra0 = "neither"%string).
          { apply (Hbetween a0 ra0); [lia|].
            rewrite Hl. now apply lookup_app_l_Some. }
          congruence.
        - pose proof (Hafter a ra Hgt Hra). congruence. }
      rewrite Hra0 in Hra. injection Hra as <-.
      exists (realized_balance st1). split; [exact Htot|]. now rewrite He.
    + (* long exit *)
      rewrite Hbal. split; [exact Hcell|]. split; [left; exact Hpos'|].
      destruct Hopen as [Hnone|(a0 & ra0 & Hra0 & Hafter & He & Hu & Htot & Hkind)];
        [congruence|].
      destruct Hkind as [[_ Hkind]|[Hshort _]]; [|congruence].
      rewrite Hunits in Hu. injection Hu as ->.
      pose proof (lookup_lt_Some _ _ _ Hra0) as Ha0.
      intros a b ra rb Hab Hra Hrb Hbetween.
      destruct (Hlast b rb Hrb) as [Hb|[-> ->]].
      { destruct (Hbefore a b ra rb Hab Hb Hra Hrb Hbetween)
          as (Hra' & Hrb' & Hbetween').
        exact (HQ a b ra rb Hab Hra' Hrb' Hbetween'). }
      rewrite <- Hnew. simpl.
      split; [|intros _ Hexit; discriminate]. intros Hentry _.
      rewrite Hl, lookup_app_l in Hra by lia.
      assert (a = a0) as ->.
      { destruct (Nat.lt_trichotomy a a0) as [Hlt|[Heq|Hgt]]; [|exact Heq|].
        - assert (Hn : trade_type ra0 = "neither"%string).
          { apply (Hbetween a0 ra0); [lia|].
            rewrite Hl. now apply lookup_app_l_Some. }
          congruence.
        - pose proof (Hafter a ra Hgt Hra). congruence. }
      rewrite Hra0 in Hra. injection Hra as <-.
      exists (realized_balance st1). split; [exact Htot|]. now rewrite He.
    + (* no trade *)
      rewrite Hbal. split; [exact Hcell|]. split.
      * destruct Hopen
          as [Hnone|(a0 & ra0 & Hra0 & Hafter & He & Hu & Htot & Hkind)];
          [left; congruence|].
        right. exists a0, ra0. split.
        { rewrite Hl. now apply lookup_app_l_Some. }
        split.
        { intros j r Hj Hr. rewrite Hl in Hr.
          apply lookup_app_Some in Hr as [Hr|[_ Hr]]; [now apply (Hafter j)|].
          destruct (j - length (trade_logs st1))%nat; [|discriminate].
          now injection Hr as <-. }
        rewrite Hentry, Hunits, Hbal, Hpos'. auto.
      * apply Hkeep; rewrite <- Hnew; discriminate.
Qed.

(** X16: what a completed trade does to the running value.  Between the
    record of an entry and the record of the exit that follows it (no other
    trade in between), a long position multiplies the running value by the
    exit price over the entry price, and a short position by 2 minus that
    ratio. *)
Theorem round_trip_return df initial_investment logs tally :
  track_trades df initial_investment = Ok (logs, tally) ->
  forall a b ra rb x pa pb,
    (a < b)%nat -> logs !! a = Some ra -> logs !! b = Some rb ->
    (forall j r, (a < j < b)%nat -> logs !! j = Some r ->
                 trade_type r = "neither"%string) ->
    total_trade_pnl ra = Some x ->
    trade_price ra = Some pa -> trade_price rb = Some pb -> pa <> 0 ->
    (trade_type ra = "long_entry"%string ->
     trade_type rb = "long_exit"%string ->
     total_trade_pnl rb = Some (x * (pb / pa)))
    /\ (trade_type ra = "short_entry"%string ->
        trade_type rb = "short_exit"%string ->
        total_trade_pnl rb = Some (x * (2 - pb / pa))).
Proof.
  intros H a b ra rb x pa pb Hab Hra Hrb Hbetween Hx Hpa Hpb Hne.
  apply track_trades_inv in H as (st & Hrun & <- & _).
  destruct (open_position_invariant _ _ _ Hrun a b ra rb Hab Hra Hrb Hbetween)
    as [Hlong Hshort].
  split; intros Hentry Hexit.
  - destruct (Hlong Hentry Hexit) as (balance & Hin & Hout).
    rewrite Hx in Hin. rewrite Hout, Hpa, Hpb.
    destruct balance as [y|]; [|discriminate]. simpl in *.
    injection Hin as ->. f_equal. field. exact Hne.
  - destruct (Hshort Hentry Hexit) as (balance & Hin & Hout).
    rewrite Hx in Hin. rewrite Hout, Hpa, Hpb.
    destruct balance as [y|]; [|discriminate]. simpl in *.
    injection Hin as ->. f_equal. field. exact Hne.
Qed.

Lemma short_then_cover_records :
  exists logs tally x y,
    track_trades TradeSamples.short_then_cover 1000 = Ok (logs, tally)
    /\ logs !! 1%nat
       = Some (Build_TradeRecord "2024-01-03" (Some 160) "short_entry" (Some x))
    /\ x = 1000
    /\ logs !! 2%nat
       = Some (Build_TradeRecord "2024-01-04" (Some 95) "short_exit" y).
Proof.
  do 4 eexists. split.
  - unfold track_trades, track_trades_run. simpl. do 3 run_step. reflexivity.
  - split; [reflexivity|]. split; [lra|reflexivity].
Qed.

Lemma round_trip_return_witness :
  exists logs tally ra rb,
    track_trades TradeSamples.short_then_cover 1000 = Ok (logs, tally)
    /\ logs !! 1%nat = Some ra /\ logs !! 2%nat = Some rb
    /\ trade_type ra = "short_entry"%string
    /\ trade_type rb = "short_exit"%string
    /\ total_trade_pnl rb = Some (1000 * (2 - 95 / 160)).
Proof.
  destruct short_then_cover_records
    as (logs & tally & x & y & Hret & Hentry & -> & Hexit).
  eexists logs, tally, _, _.
  split; [exact Hret|]. split; [exact Hentry|]. split; [exact Hexit|].
  split; [reflexivity|]. split; [reflexivity|].
  assert (Hbetween : forall j r, (1 < j < 2)%nat -> logs !! j = Some r ->
                       trade_type r = "neither"%string)
    by (intros j r Hj; lia).
  assert (Hprice : 160 <> 0) by lra.
  exact (proj2 (round_trip_return _ _ _ _ Hret 1%nat 2%nat _ _ 1000 160 95
                  (Nat.lt_succ_diag_r 1) Hentry Hexit Hbetween
                  eq_refl eq_refl eq_refl Hprice)
           eq_refl eq_refl).
Defined.

(** ** A table without records *)

Lemma track_trades_empty df initial_investment :
  df_index df = [] -> track_trades df initial_investment = Err IndexError.
Proof.
  intros Hidx. unfold track_trades, track_trades_run, trade_init. cbv zeta.
  change (df_index (add_trade_columns df)) with (df_index df).
  now rewrite Hidx.
Qed.

Lemma initial_shares_empty df weights initial_investment stock w :
  rows df = [] -> (stock, w) ∈ weights -> stock ∈ columns df ->
  initial_shares df weights initial_investment = Err IndexError.
Proof.
  intros Hrows Hin Hcol. unfold initial_shares.
  rewrite retained_weights_allocations.
  assert (Hkept : (stock, w) ∈ retained_weights df weights).
  { unfold retained_weights. apply list_elem_of_In, filter_In.
    split; [now apply list_elem_of_In|]. now apply bool_decide_eq_true_2. }
  destruct (retained_weights df weights) as [|[s x] kept];
    [now apply elem_of_nil in Hkept|].
  simpl. unfold iloc0. now rewrite Hrows.
Qed.

(** X17: a price table without records.  Without rebalancing the compiler
    still returns: a frame without dates, on which the trade simulator
    raises [IndexError].  With rebalancing the compiler itself raises
    [IndexError] as soon as one weighted instrument has a column. *)
Theorem empty_table_ends_in_index_error
    df weights title halflife_days initial_investment f :
  rows df = [] -> (0 < halflife_days)%nat ->
  Py.sum (map snd weights) <> 0 ->
  (exists bands weights',
      index_compiler df weights title halflife_days initial_investment
                     false f = Ok (bands, weights', title)
      /\ df_index bands = []
      /\ forall investment, track_trades bands investment = Err IndexError)
  /\ ((exists stock w, (stock, w) ∈ weights /\ stock ∈ columns df) ->
      index_compiler df weights title halflife_days initial_investment
                     true f = Err IndexError).
Proof.
  intros Hrows Hh Hsum. unfold index_compiler.
  rewrite (normalised_weights_Ok weights (or_intror Hsum)), !bind_Ok.
  set (weights' := if Req_dec_T _ 1 then _ else _). split.
  - destruct (no_rebalancing_returns df weights' initial_investment)
      as (values & -> & Hdates).
    rewrite bind_Ok.
    destruct (add_ewma_bollinger_bands_index values halflife_days Hh)
      as (bands & -> & Hindex).
    rewrite bind_Ok. exists bands, weights'. split; [reflexivity|].
    assert (Hnone : df_index bands = []).
    { rewrite Hindex, Hdates. unfold index. now rewrite Hrows. }
    split; [exact Hnone|]. intros investment.
    now apply track_trades_empty.
  - intros (stock & w & Hin & Hcol).
    assert (Hin' : exists w', (stock, w') ∈ weights').
    { subst weights'. destruct (Req_dec_T _ 1); [now exists w|].
      eexists. apply list_elem_of_fmap. exists (stock, w).
      split; [reflexivity|exact Hin]. }
    destruct Hin' as [w' Hin'].
    unfold calculate_portfolio_value_with_rebalancing.
    rewrite (initial_shares_empty _ _ _ _ _ Hrows Hin' Hcol).
    reflexivity.
Qed.

Lemma empty_table_ends_in_index_error_witness :
  (exists bands weights',
      index_compiler Samples.header_only [("A"%string, 2)] "none" 2 1000
                     false 1 = Ok (bands, weights', "none"%string)
      /\ df_index bands = []
      /\ forall investment, track_trades bands investment = Err IndexError)
  /\ ((exists stock w, (stock, w) ∈ [("A"%string, 2)]
                       /\ stock ∈ columns Samples.header_only) ->
      index_compiler Samples.header_only [("A"%string, 2)] "none" 2 1000
                     true 1 = Err IndexError).
Proof.
  apply (empty_table_ends_in_index_error
           Samples.header_only [("A"%string, 2)] "none" 2 1000 1);
    [reflexivity|lia|].
  unfold Py.sum. simpl. lra.
Defined.

(** ** From the price table to the log *)

(** The compiler on a table with records and weights that all have a
    column: the series it values and the frame it hands back. *)
Lemma index_compiler_returns
    df weights title halflife_days initial_investment rebalance f :
  rows df <> [] -> (0 < halflife_days)%nat ->
  (forall stock w, (stock, w) ∈ weights -> stock ∈ columns df) ->
  Py.sum (map snd weights) <> 0 ->
  exists (values : Series) bands weights',
    index_compiler df weights title halflife_days initial_investment
                   rebalance f = Ok (bands, weights', title)
    /\ add_ewma_bollinger_bands values halflife_days = Ok bands
    /\ map fst values = index df
    /\ map fst weights' = map fst weights.
Proof.
  intros Hne Hh Hcols Hsum. unfold index_compiler.
  rewrite (normalised_weights_Ok weights (or_intror Hsum)), bind_Ok.
  set (weights' := if Req_dec_T _ 1 then _ else _).
  assert (Hkeys : map fst weights' = map fst weights).
  { subst weights'. destruct (Req_dec_T _ 1); [reflexivity|].
    rewrite map_map. apply map_ext. now intros [ticker weight]. }
  assert (Hcols' : forall stock w, (stock, w) ∈ weights' -> stock ∈ columns df).
  { intros stock w Hin.
    assert (Hk : stock ∈ map fst weights')
      by (apply list_elem_of_fmap; exists (stock, w); auto).
    rewrite Hkeys in Hk. apply list_elem_of_fmap in Hk as [[s x] [-> Hin']].
    eauto. }
  assert (Hvalued : exists values : Series,
    (if rebalance
     then calculate_portfolio_value_with_rebalancing
            df weights' initial_investment f
     else calculate_portfolio_value_no_rebalancing
            df weights' initial_investment) = Ok values
    /\ map fst values = index df).
  { destruct rebalance;
      [now apply with_rebalancing_returns|apply no_rebalancing_returns]. }
  destruct Hvalued as (values & -> & Hdates).
  rewrite bind_Ok.
  destruct (add_ewma_bollinger_bands_index values halflife_days Hh)
    as (bands & Hbands & Hindex).
  rewrite Hbands, bind_Ok. now exists values, bands, weights'.
Qed.

(** X18: the compiler and the simulator together.  On a table with at least
    one record, with a positive halflife and weights that all have a
    column, the frame the compiler returns can be handed to the simulator:
    the simulator returns, with one record per record of the table. *)
Theorem compiled_frame_is_traded
    df weights title halflife_days initial_investment rebalance f investment :
  rows df <> [] -> (0 < halflife_days)%nat ->
  (forall stock w, (stock, w) ∈ weights -> stock ∈ columns df) ->
  Py.sum (map snd weights) <> 0 ->
  exists bands weights' logs tally,
    index_compiler df weights title halflife_days initial_investment
                   rebalance f = Ok (bands, weights', title)
    /\ track_trades bands investment = Ok (logs, tally)
    /\ length logs = length (rows df).
Proof.
  intros Hne Hh Hcols Hsum.
  destruct (index_compiler_returns df weights title halflife_days
              initial_investment rebalance f Hne Hh Hcols Hsum)
    as (values & bands & weights' & Hcompiled & Hbands & Hdates & _).
  assert (Hvalues : values <> []).
  { intros ->. unfold index in Hdates. destruct (rows df); [congruence|].
    discriminate. }
  destruct (estimator_returns_band_frame values halflife_days Hvalues Hh)
    as (bands' & Hbands' & Hframe & Hlen).
  rewrite Hbands in Hbands'. injection Hbands' as <-.
  destruct (track_trades_returns bands investment Hframe)
    as (logs & tally & Htrades & Hlogs).
  exists bands, weights', logs, tally.
  split; [exact Hcompiled|]. split; [exact Htrades|].
  rewrite Hlogs, Hlen, <- (length_map fst values), Hdates.
  unfold index. now rewrite length_map.
Qed.

Lemma compiled_frame_is_traded_witness :
  exists bands weights' logs tally,
    index_compiler Samples.two_days [("A"%string, 0.5)] "half" 2 1000 true 1
    = Ok (bands, weights', "half"%string)
    /\ track_trades bands 500 = Ok (logs, tally)
    /\ length logs = length (rows Samples.two_days).
Proof.
  apply (compiled_frame_is_traded Samples.two_days [("A"%string, 0.5)]
           "half" 2 1000 true 1 500).
  - discriminate.
  - lia.
  - intros stock w Hin. apply list_elem_of_singleton in Hin.
    injection Hin as -> _. apply list_elem_of_here.
  - unfold Py.sum. simpl. lra.
Defined.

(** ** The callers of the compiler *)

Lemma list_remove_Ok x l : x ∈ l -> exists l', list_remove x l = Ok l'.
Proof.
  induction l as [|y l IH]; intros Hin; [now apply elem_of_nil in Hin|].
  simpl. destruct (decide (y = x)) as [->|Hne]; [eauto|].
  apply elem_of_cons in Hin as [->|Hin]; [congruence|].
  destruct (IH Hin) as [l' ->]. rewrite bind_Ok. eauto.
Qed.

Lemma list_remove_Err x l : x ∉ l -> list_remove x l = Err ValueError.
Proof.
  induction l as [|y l IH]; intros Hin; [reflexivity|].
  apply not_elem_of_cons in Hin as [Hne Hin]. simpl.
  rewrite decide_False by congruence. now rewrite (IH Hin).
Qed.

(** X19: [csv_weighted_portfolio] needs a column [SPY] in the file it loads:
    without one it raises [ValueError].  With one, on a table with at least
    one record, a positive halflife and weights that all have a column, it
    returns exactly one portfolio, the one rebalanced every 5 records: what
    the compiler returns for these weights under the weekly title. *)
Theorem csv_weighted_portfolio_returns_weekly
    loaded df weights halflife_days initial_investment :
  ("SPY"%string ∉ columns loaded ->
   csv_weighted_portfolio loaded df weights halflife_days initial_investment
   = Err ValueError)
  /\ ("SPY"%string ∈ columns loaded ->
      rows df <> [] -> (0 < halflife_days)%nat ->
      (forall stock w, (stock, w) ∈ weights -> stock ∈ columns df) ->
      Py.sum (map snd weights) <> 0 ->
      exists weekly,
        index_compiler df weights
          "Equally Weighted Portfolio (Rebalanced Weekly)"
          halflife_days initial_investment true 5 = Ok weekly
        /\ csv_weighted_portfolio loaded df weights halflife_days
                                  initial_investment = Ok [weekly]).
Proof.
  unfold csv_weighted_portfolio, load_data. cbv zeta. split.
  - intros Hspy. now rewrite (list_remove_Err _ _ Hspy).
  - intros Hspy Hne Hh Hcols Hsum.
    destruct (list_remove_Ok _ _ Hspy) as [adjusted ->]. rewrite bind_Ok.
    destruct (index_compiler_returns df weights
                "Equally Weighted Portfolio (Rebalanced Daily)"
                halflife_days initial_investment true 1 Hne Hh Hcols Hsum)
      as (v1 & b1 & w1 & -> & _).
    destruct (index_compiler_returns df weights
                "Equally Weighted Portfolio (No Rebalancing)"
                halflife_days initial_investment false 1 Hne Hh Hcols Hsum)
      as (v2 & b2 & w2 & -> & _).
    destruct (index_compiler_returns df weights
                "Equally Weighted Portfolio (Rebalanced Weekly)"
                halflife_days initial_investment true 5 Hne Hh Hcols Hsum)
      as (v3 & b3 & w3 & -> & _).
    rewrite !bind_Ok. eexists. split; reflexivity.
Qed.

Lemma csv_weighted_portfolio_returns_weekly_witness :
  exists weekly,
    index_compiler Samples.two_days [("A"%string, 0.5)]
      "Equally Weighted Portfolio (Rebalanced Weekly)" 2 1000 true 5
    = Ok weekly
    /\ csv_weighted_portfolio
         {| columns := ["A"; "SPY"]%string; rows := [] |}
         Samples.two_days [("A"%string, 0.5)] 2 1000 = Ok [weekly].
Proof.
  apply (proj2 (csv_weighted_portfolio_returns_weekly
                  {| columns := ["A"; "SPY"]%string; rows := [] |}
                  Samples.two_days [("A"%string, 0.5)] 2 1000)).
  - simpl. apply list_elem_of_further, list_elem_of_here.
  - discriminate.
  - lia.
  - intros stock w Hin. apply list_elem_of_singleton in Hin.
    injection Hin as -> _. apply list_elem_of_here.
  - unfold Py.sum. simpl. lra.
Defined.

(** The compiler with daily rebalancing on weights that name an instrument
    without a column. *)
Lemma index_compiler_missing_column
    df weights title halflife_days initial_investment present stock w others :
  weights = present ++ (stock, w) :: others ->
  (forall s x, (s, x) ∈ present -> s ∈ columns df) ->
  stock ∉ columns df ->
  (2 <= length (rows df))%nat ->
  Py.sum (map snd weights) <> 0 ->
  index_compiler df weights title halflife_days initial_investment true 1
  = Err (KeyError stock).
Proof.
  intros Hweights Hpresent Hmissing Hlen Hsum. unfold index_compiler.
  rewrite (normalised_weights_Ok weights (or_intror Hsum)), bind_Ok.
  set (weights' := if Req_dec_T _ 1 then _ else _).
  assert (Hsplit : exists present' w' others',
             weights' = present' ++ (stock, w') :: others'
             /\ forall s x, (s, x) ∈ present' -> s ∈ columns df).
  { subst weights'. destruct (Req_dec_T _ 1); [now eauto 6|].
    rewrite Hweights, map_app. simpl. eexists _, _, _.
    split; [reflexivity|]. intros s x Hin.
    apply list_elem_of_fmap in Hin as [[s' x'] [[= -> ->] Hin]]. eauto. }
  destruct Hsplit as (present' & w' & others' & Hweights' & Hpresent').
  rewrite (missing_column_raises df weights' initial_investment 1
             present' stock w' others' Hweights' Hpresent' Hmissing);
    [reflexivity|lia|simpl; lia].
Qed.

(** X20: [csv_weighted_portfolio] raises [KeyError] when one of the weights
    names an instrument without a column and the table has at least two
    records: the daily run, whose result is thrown away, rebalances at the
    second record and reads the missing price. *)
Theorem csv_weighted_portfolio_needs_every_column
    loaded df weights halflife_days initial_investment present stock w others :
  "SPY"%string ∈ columns loaded ->
  weights = present ++ (stock, w) :: others ->
  (forall s x, (s, x) ∈ present -> s ∈ columns df) ->
  stock ∉ columns df ->
  (2 <= length (rows df))%nat ->
  Py.sum (map snd weights) <> 0 ->
  csv_weighted_portfolio loaded df weights halflife_days initial_investment
  = Err (KeyError stock).
Proof.
  intros Hspy Hweights Hpresent Hmissing Hlen Hsum.
  unfold csv_weighted_portfolio, load_data. cbv zeta.
  destruct (list_remove_Ok _ _ Hspy) as [adjusted ->]. rewrite bind_Ok.
  now rewrite (index_compiler_missing_column df weights _ halflife_days
                 initial_investment present stock w others
                 Hweights Hpresent Hmissing Hlen Hsum).
Qed.

Lemma csv_weighted_portfolio_needs_every_column_witness :
  csv_weighted_portfolio {| columns := ["A"; "SPY"]%string; rows := [] |}
    Samples.two_days Samples.A_and_missing_B 2 1000
  = Err (KeyError "B").
Proof.
  apply (csv_weighted_portfolio_needs_every_column
           {| columns := ["A"; "SPY"]%string; rows := [] |}
           Samples.two_days Samples.A_and_missing_B 2 1000
           [("A"%string, 0.5)] "B" 0.5 []).
  - simpl. apply list_elem_of_further, list_elem_of_here.
  - reflexivity.
  - intros s x Hin. apply list_elem_of_singleton in Hin.
    injection Hin as -> _. apply list_elem_of_here.
  - intros Hin. apply list_elem_of_singleton in Hin. discriminate.
  - simpl. lia.
  - unfold Py.sum. simpl. lra.
Defined.

Lemma mapM_cons {A B} (f : A -> result B) x l :
  mapM f (x :: l) = (y ← f x; ys ← mapM f l; Ok (y :: ys)).
Proof. reflexivity. Qed.

(** The compiler on all of the weight on one instrument. *)
Lemma index_compiler_single
    df ticker halflife_days initial_investment d0 p0 rest :
  rows df = (d0, p0) :: rest ->
  ticker ∈ columns df ->
  (forall date prices, (date, prices) ∈ rows df -> prices ticker <> 0) ->
  index_compiler df [(ticker, 1)] ticker halflife_days initial_investment
                 true 1
  = (bands ← add_ewma_bollinger_bands
               (map (fun '(date, prices) =>
                       (date, initial_investment
                              * (prices ticker / p0 ticker))) (rows df))
               halflife_days;
     Ok (bands, [(ticker, 1)], ticker)).
Proof.
  intros Hrows Hcol Hp. unfold index_compiler.
  assert (Hone : Py.sum (map snd [(ticker, 1)]) <> 0)
    by (unfold Py.sum; simpl; lra).
  rewrite (normalised_weights_Ok _ (or_intror Hone)), bind_Ok.
  set (weights' := if Req_dec_T _ 1 then _ else _).
  assert (weights' = [(ticker, 1)]) as ->.
  { subst weights'. destruct (Req_dec_T _ 1) as [|Hne]; [reflexivity|].
    exfalso. apply Hne. unfold Py.sum. simpl. lra. }
  rewrite (proj1 (single_instrument_values df ticker initial_investment 1
                    d0 p0 rest Hrows Hcol Hp)).
  now rewrite bind_Ok.
Qed.

(** X21: [individual_stock_prep_plot] on tickers that all have a column
    with prices that are never 0: it returns one portfolio per ticker, in
    the order given, titled by the ticker, with the weights [{ticker: 1}],
    and its frame is the estimator's frame of the series that follows the
    price of the ticker, scaled to the initial investment at the first
    record. *)
Theorem individual_stocks_follow_prices
    df tickers_recieved halflife_days initial_investment d0 p0 rest :
  rows df = (d0, p0) :: rest -> (0 < halflife_days)%nat ->
  (forall ticker, ticker ∈ tickers_recieved ->
     ticker ∈ columns df
     /\ forall date prices, (date, prices) ∈ rows df -> prices ticker <> 0) ->
  exists ticker_data,
    individual_stock_prep_plot df tickers_recieved halflife_days
                               initial_investment = Ok ticker_data
    /\ Forall2
         (fun ticker '(bands, weights, title) =>
            title = ticker /\ weights = [(ticker, 1)]
            /\ add_ewma_bollinger_bands
                 (map (fun '(date, prices) =>
                         (date, initial_investment
                                * (prices ticker / p0 ticker))) (rows df))
                 halflife_days = Ok bands)
         tickers_recieved ticker_data.
Proof.
  intros Hrows Hh. unfold individual_stock_prep_plot. cbv zeta.
  induction tickers_recieved as [|ticker tickers IH]; intros Hall.
  - exists []. split; [reflexivity|constructor].
  - destruct (Hall ticker) as [Hcol Hp]; [apply list_elem_of_here|].
    destruct IH as (ticker_data & Hdata & Hforall).
    { intros t Ht. apply Hall. now apply list_elem_of_further. }
    rewrite mapM_cons.
    rewrite (index_compiler_single df ticker halflife_days initial_investment
               d0 p0 rest Hrows Hcol Hp).
    destruct (add_ewma_bollinger_bands_index
                (map (fun '(date, prices) =>
                        (date, initial_investment
                               * (prices ticker / p0 ticker))) (rows df))
                halflife_days Hh) as (bands & Hbands & _).
    rewrite Hbands, !bind_Ok, Hdata, bind_Ok.
    eexists. split; [reflexivity|]. constructor; [|exact Hforall].
    repeat split. exact Hbands.
Qed.

Lemma individual_stocks_follow_prices_witness :
  exists ticker_data,
    individual_stock_prep_plot Samples.two_days ["A"%string] 2 1000
    = Ok ticker_data
    /\ Forall2
         (fun ticker '(bands, weights, title) =>
            title = ticker /\ weights = [(ticker, 1)]
            /\ add_ewma_bollinger_bands
                 (map (fun '(date, prices) =>
                         (date, 1000 * (prices ticker / 100)))
                      (rows Samples.two_days))
                 2 = Ok bands)
         ["A"%string] ticker_data.
Proof.
  apply (individual_stocks_follow_prices Samples.two_days ["A"%string] 2 1000
           "2024-01-02"%string (fun _ => 100)
           [("2024-01-03"%string, fun _ => 110)]).
  - reflexivity.
  - lia.
  - intros ticker Hin. apply list_elem_of_singleton in Hin. subst ticker.
    split; [apply list_elem_of_here|].
    intros date prices Hin. simpl in Hin.
    rewrite !elem_of_cons, elem_of_nil in Hin.
    destruct Hin as [[= _ ->] | [[= _ ->] | []]]; lra.
Defined.

(** X22: a ticker without a column stops [individual_stock_prep_plot]: when
    the table has at least two records and the tickers before it all have
    a column, the call raises [KeyError] for that ticker and returns no
    portfolio at all. *)
Theorem individual_stocks_need_a_column
    df tickers_recieved halflife_days initial_investment known ticker others :
  tickers_recieved = known ++ ticker :: others ->
  (forall t, t ∈ known -> t ∈ columns df) ->
  ticker ∉ columns df ->
  (2 <= length (rows df))%nat -> (0 < halflife_days)%nat ->
  individual_stock_prep_plot df tickers_recieved halflife_days
                             initial_investment
  = Err (KeyError ticker).
Proof.
  intros -> Hknown Hmissing Hlen Hh. unfold individual_stock_prep_plot.
  apply mapM_first_error.
  - intros t Ht. cbv zeta.
    assert (Hne : rows df <> []) by (destruct (rows df); [simpl in Hlen; lia|discriminate]).
    destruct (index_compiler_returns df [(t, 1)] t halflife_days
                initial_investment true 1 Hne Hh)
      as (values & bands & weights' & -> & _);
      [|unfold Py.sum; simpl; lra|eauto].
    intros stock w Hin. apply list_elem_of_singleton in Hin.
    injection Hin as -> _. now apply Hknown.
  - cbv zeta.
    apply (index_compiler_missing_column df [(ticker, 1)] ticker halflife_days
             initial_investment [] ticker 1 []);
      [reflexivity| |exact Hmissing|exact Hlen|unfold Py.sum; simpl; lra].
    intros s x Hin. now apply elem_of_nil in Hin.
Qed.

Lemma individual_stocks_need_a_column_witness :
  individual_stock_prep_plot Samples.two_days ["A"; "B"; "A"]%string 2 1000
  = Err (KeyError "B").
Proof.
  apply (individual_stocks_need_a_column Samples.two_days
           ["A"; "B"; "A"]%string 2 1000 ["A"%string] "B" ["A"%string]).
  - reflexivity.
  - intros t Hin. apply list_elem_of_singleton in Hin. subst t.
    apply list_elem_of_here.
  - intros Hin. apply list_elem_of_singleton in Hin. discriminate.
  - simpl. lia.
  - lia.
Defined.

(** ** The chart *)

Lemma marker_style_label tag color marker label :
  marker_style tag = Some (color, marker, label) -> label <> ""%string.
Proof.
  unfold marker_style. repeat case_decide; intros [= <- <- <-]; discriminate.
Qed.

Lemma trade_markers_labels logs : forall used_labels,
  let labels :=
    List.filter (fun l => negb (bool_decide (l = ""%string)))
                (map sc_label (trade_markers used_labels logs)) in
  NoDup labels /\ forall l, l ∈ labels -> l ∉ used_labels.
Proof.
  induction logs as [|r logs IH]; intros used_labels; simpl.
  - split; [constructor|]. intros l Hl. now apply elem_of_nil in Hl.
  - destruct (marker_style (trade_type r)) as [[[color marker] label]|] eqn:Hstyle;
      [|apply IH].
    destruct (IH (label :: used_labels)) as [Hnodup Hfresh].
    pose proof (marker_style_label _ _ _ _ Hstyle) as Hlabel.
    simpl. destruct (decide (label ∈ used_labels)) as [Hused|Hnew]; simpl.
    + split; [exact Hnodup|]. intros l Hl.
      apply Hfresh in Hl. now apply not_elem_of_cons in Hl.
    + rewrite bool_decide_eq_false_2 by exact Hlabel. simpl. split.
      * constructor; [|exact Hnodup]. intros Hin.
        apply Hfresh in Hin. apply Hin, list_elem_of_here.
      * intros l Hl. apply elem_of_cons in Hl as [->|Hl]; [exact Hnew|].
        apply Hfresh in Hl. now apply not_elem_of_cons in Hl.
Qed.

Lemma trade_markers_points logs : forall used_labels,
  map (fun m => (sc_x m, sc_y m)) (trade_markers used_labels logs)
  = map (fun r => (trade_date r, total_trade_pnl r))
        (List.filter (fun r => bool_decide (is_Some (marker_style (trade_type r))))
                     logs).
Proof.
  induction logs as [|r logs IH]; intros used_labels; simpl; [reflexivity|].
  destruct (marker_style (trade_type r)) as [[[color marker] label]|] eqn:Hstyle.
  - rewrite bool_decide_eq_true_2 by eauto. simpl. now rewrite IH.
  - rewrite bool_decide_eq_false_2 by (intros [? [=]]). apply IH.
Qed.

Lemma count_type_cons tag r logs :
  count_type tag (r :: logs)
  = ((if bool_decide (trade_type r = tag) then 1 else 0)
     + count_type tag logs)%nat.
Proof.
  unfold count_type. simpl. now destruct (bool_decide (trade_type r = tag)).
Qed.

Lemma trade_markers_length logs : forall used_labels,
  length (trade_markers used_labels logs)
  = (count_type "long_entry" logs + count_type "long_exit" logs
     + count_type "short_entry" logs + count_type "short_exit" logs)%nat.
Proof.
  induction logs as [|r logs IH]; intros used_labels; [reflexivity|].
  rewrite !count_type_cons. cbn [trade_markers]. unfold marker_style.
  repeat case_decide; cbn [length]; rewrite IH;
    repeat case_bool_decide; try congruence; lia.
Qed.

(** X23: the markers of the PnL chart.  One marker is drawn for each record
    of an entry or an exit, in the order of the log, at the date and the
    running value of its record, and none for any other record; and no
    legend label is given twice: the labels that are not empty are
    pairwise distinct. *)
Theorem trade_markers_follow_log logs :
  map (fun m => (sc_x m, sc_y m)) (trade_markers [] logs)
  = map (fun r => (trade_date r, total_trade_pnl r))
        (List.filter (fun r => bool_decide (is_Some (marker_style (trade_type r))))
                     logs)
  /\ length (trade_markers [] logs)
     = (count_type "long_entry" logs + count_type "long_exit" logs
        + count_type "short_entry" logs + count_type "short_exit" logs)%nat
  /\ NoDup (List.filter (fun l => negb (bool_decide (l = ""%string)))
                        (map sc_label (trade_markers [] logs))).
Proof.
  split; [apply trade_markers_points|]. split.
  - apply trade_markers_length.
  - exact (proj1 (trade_markers_labels logs [])).
Qed.

(** X24: the ticks of the date axis.  The call of [range] never raises (its
    step is at least 1); the ticks are positions of the dates plotted,
    start at the first date and are at most 19. *)
Theorem xticks_are_positions pnl_dates :
  exists ticks,
    xticks pnl_dates = Ok ticks
    /\ (forall t, t ∈ ticks -> (t < length pnl_dates)%nat)
    /\ (length ticks <= 19)%nat
    /\ (pnl_dates <> [] -> ticks !! 0%nat = Some 0%nat).
Proof.
  unfold xticks, py_range.
  set (n := length pnl_dates). set (step := Nat.max 1 (n / 10)).
  assert (Hstep : (1 <= step)%nat) by (unfold step; lia).
  destruct (Nat.eqb_spec step 0) as [|_]; [lia|].
  eexists. split; [reflexivity|].
  pose proof (Nat.Div0.mul_div_le (n + step - 1) step) as Hdiv.
  split; [|split].
  - intros t Ht. apply list_elem_of_fmap in Ht as [j [-> Hj]].
    apply elem_of_seq in Hj. nia.
  - rewrite length_map, length_seq.
    assert (Hn : (n <= 19 * step)%nat).
    { pose proof (Nat.Div0.mul_div_le n 10).
      pose proof (Nat.mul_succ_div_gt n 10 ltac:(lia)).
      unfold step. lia. }
    assert ((n + step - 1) / step < 20)%nat; [|lia].
    apply Nat.Div0.div_lt_upper_bound. lia.
  - intros Hne.
    assert (Hpos : (0 < n)%nat).
    { unfold n. destruct pnl_dates; [congruence|simpl; lia]. }
    assert (Hcount : (0 < (n + step - 1) / step)%nat).
    { apply Nat.div_str_pos. lia. }
    destruct ((n + step - 1) / step)%nat; [lia|]. reflexivity.
Qed.

(** ** How many trades a run can complete *)

(** X25: a trade takes two dates, one to enter and a later one to exit, and
    the first date is never traded on: the tally returned is at most half
    the number of dates after the first. *)
Theorem tally_at_most_half_the_dates df initial_investment logs tally :
  track_trades df initial_investment = Ok (logs, tally) ->
  (2 * tally <= len df - 1)%nat.
Proof.
  intros H. apply track_trades_inv in H as (st & Hrun & _ & <-).
  pose (I := fun st : state =>
    (2 * trades_tally st
     + (if bool_decide (current_position st = None) then 0 else 1)
     <= length (trade_logs st) - 1)%nat).
  destruct (track_trades_run_invariant I df initial_investment st)
    as (st' & Hbound & -> & Hlen & _); [| |exact Hrun|].
  - intros st0 Hst0.
    destruct (trade_init_cases _ _ _ Hst0)
      as (first & price & _ & _ & _ & Hpos & _ & _ & Htally & Hlogs & _).
    unfold I. rewrite Hlogs, Hpos, Htally. simpl. lia.
  - intros st1 i st2 Hi Hleni Hbound Hstep. unfold I in *.
    destruct (trade_step_log _ _ _ Hleni Hstep) as (r & Hlogs & _).
    assert (Hlen2 : length (trade_logs st2) = S i)
      by (rewrite Hlogs, length_app; simpl; lia).
    destruct (trade_step_cases _ _ _ Hi Hleni Hstep)
      as (date & price & ewma & upper & lower & carried
          & _ & _ & _ & _ & _ & _ & _ & Hcases).
    rewrite Hlen2. rewrite Hleni in Hbound.
    destruct Hcases as
      [ (Hpos & _ & Hpos' & _ & _ & _ & Htally & _)
      | [ (Hpos & _ & Hpos' & _ & _ & _ & Htally & _)
        | [ (Hpos & _ & units & _ & Hpos' & _ & _ & _ & Htally & _)
          | [ (Hpos & _ & units & _ & Hpos' & _ & _ & _ & Htally & _)
            | (Hpos' & _ & _ & _ & Htally & _) ]]]];
      rewrite Hpos', Htally; try rewrite Hpos in Hbound; simpl in *;
      repeat case_bool_decide; try congruence; lia.
  - unfold I in Hbound. simpl. rewrite Hlen in Hbound.
    case_bool_decide; lia.
Qed.

Lemma tally_at_most_half_the_dates_witness :
  exists logs tally,
    track_trades TradeSamples.short_then_cover 1000 = Ok (logs, tally)
    /\ (2 * tally <= len TradeSamples.short_then_cover - 1)%nat.
Proof.
  destruct short_then_cover_run as (st & Hrun & _).
  exists (trade_logs st), (trades_tally st).
  assert (Hret : track_trades TradeSamples.short_then_cover 1000
                 = Ok (trade_logs st, trades_tally st))
    by (unfold track_trades; rewrite Hrun; reflexivity).
  split; [exact Hret|].
  exact (tally_at_most_half_the_dates _ _ _ _ Hret).
Defined.

(** ** Rebalancing at every record *)

Lemma rebalance_due_daily i : (0 < i)%nat -> rebalance_due 1 i = true.
Proof.
  intros Hi. unfold rebalance_due. rewrite Z.mod_1_r. simpl.
  destruct (Nat.eqb_spec i 0); [lia|reflexivity].
Qed.

Lemma retained_weights_all df weights :
  (forall stock w, (stock, w) ∈ weights -> stock ∈ columns df) ->
  retained_weights df weights = weights.
Proof.
  unfold retained_weights.
  induction weights as [|[stock w] weights IH]; intros Hcols; [reflexivity|].
  simpl. rewrite bool_decide_eq_true_2
    by (apply (Hcols stock w), list_elem_of_here).
  f_equal. apply IH. intros s x Hin. apply (Hcols s x).
  now apply list_elem_of_further.
Qed.

Lemma sum_weighted_returns (prices prices' : string -> R) (v : R)
    (weights : dict) :
  Py.sum (map (fun '(stock, w) => prices' stock * (v * w / prices stock))
              weights)
  = v * Py.sum (map (fun '(stock, w) => w * (prices' stock / prices stock))
                    weights).
Proof.
  rewrite <- sum_scale, map_map. f_equal. apply map_ext.
  intros [stock w]. unfold Rdiv. ring.
Qed.

Lemma sum_first_return (p0 prices : string -> R) (inv : R) (weights : dict) :
  Py.sum (map (fun '(stock, n) => prices stock * n)
              (map (fun '(stock, alloc) => (stock, alloc / p0 stock))
                   (map (fun '(stock, w) => (stock, inv * w)) weights)))
  = inv * Py.sum (map (fun '(stock, w) => w * (prices stock / p0 stock))
                      weights).
Proof.
  rewrite <- sum_scale, !map_map. f_equal. apply map_ext.
  intros [stock w]. unfold Rdiv. ring.
Qed.

Lemma sum_first_value (p0 : string -> R) (inv : R) (weights : dict) :
  (forall stock w, (stock, w) ∈ weights -> p0 stock <> 0) ->
  Py.sum (map (fun '(stock, n) => p0 stock * n)
              (map (fun '(stock, alloc) => (stock, alloc / p0 stock))
                   (map (fun '(stock, w) => (stock, inv * w)) weights)))
  = inv * Py.sum (map snd weights).
Proof.
  intros Hp. rewrite sum_first_return. f_equal. f_equal.
  apply map_ext_in. intros [stock w] Hin. simpl. field.
  apply (Hp stock w). now apply list_elem_of_In.
Qed.

(** The loop with frequency 1 from an index after the first: every record
    is valued at the shares bought at the record before. *)
Lemma daily_loop df weights :
  (forall stock w, (stock, w) ∈ weights -> stock ∈ columns df) ->
  forall rs i0 values (held : dict),
    (1 <= i0)%nat ->
    (forall stock n, (stock, n) ∈ held -> stock ∈ columns df) ->
    exists vs held',
      rebalancing_loop df weights 1 values held
                       (combine (seq i0 (length rs)) rs)
      = Ok (values ++ vs, held')
      /\ length vs = length rs
      /\ (forall date prices rest,
            rs = (date, prices) :: rest ->
            vs !! 0%nat
            = Some (Py.sum (map (fun '(stock, n) => prices stock * n) held)))
      /\ (forall k date prices date' prices' v,
            rs !! k = Some (date, prices) ->
            rs !! S k = Some (date', prices') ->
            vs !! k = Some v ->
            vs !! S k
            = Some (Py.sum (map (fun '(stock, w) =>
                                   prices' stock * (v * w / prices stock))
                                weights))).
Proof.
  intros Hcols. induction rs as [|[date prices] rest IH];
    intros i0 values held Hi0 Hheld.
  - exists [], held. simpl. rewrite app_nil_r.
    repeat split; intros; discriminate.
  - destruct (rebalancing_step_Ok df weights 1 held i0 prices Hcols Hheld)
      as [Hstep Hheld'].
    cbv zeta in Hstep, Hheld'.
    rewrite rebalance_due_daily in Hstep, Hheld' by lia.
    set (v := Py.sum (map (fun '(stock, n) => prices stock * n) held)) in *.
    set (held' := map (fun '(stock, w) => (stock, v * w / prices stock))
                      weights) in *.
    destruct (IH (S i0) (values ++ [v]) held' ltac:(lia) Hheld')
      as (vs & held'' & Hloop & Hlen & Hfirst & Hnext).
    exists (v :: vs), held''. split.
    { cbn [length seq combine rebalancing_loop].
      rewrite Hstep, bind_Ok, Hloop, <- app_assoc. reflexivity. }
    split; [simpl; now rewrite Hlen|]. split.
    { intros d p r [= _ <- _]. reflexivity. }
    intros [|k] d p d' p' x Hk HSk Hx.
    + simpl in Hk, Hx. injection Hk as <- <-. injection Hx as <-.
      destruct rest as [|[d1 p1] rest']; [discriminate|].
      simpl in HSk. injection HSk as <- <-.
      change ((v :: vs) !! 1%nat) with (vs !! 0%nat).
      rewrite (Hfirst d1 p1 rest' eq_refl). f_equal. f_equal.
      unfold held'. rewrite map_map. apply map_ext. now intros [stock w].
    + exact (Hnext k d p d' p' x Hk HSk Hx).
Qed.

(** X26: rebalancing at every record makes the portfolio earn the weighted
    mean of the returns of its instruments.  With weights that sum to 1
    and all have a column, and prices that are never 0, the first value is
    the initial investment and each later value is the value of the record
    before times the sum, over the instruments, of weight times price
    ratio. *)
Theorem daily_rebalancing_compounds df weights initial_investment :
  rows df <> [] ->
  (forall stock w, (stock, w) ∈ weights ->
     stock ∈ columns df
     /\ forall date prices, (date, prices) ∈ rows df -> prices stock <> 0) ->
  Py.sum (map snd weights) = 1 ->
  exists values,
    calculate_portfolio_value_with_rebalancing df weights initial_investment 1
    = Ok values
    /\ (exists date0, values !! 0%nat = Some (date0, initial_investment))
    /\ forall t date prices date' prices' v,
         rows df !! t = Some (date, prices) ->
         rows df !! S t = Some (date', prices') ->
         values !! t = Some (date, v) ->
         values !! S t
         = Some (date',
                 v * Py.sum (map (fun '(stock, w) =>
                                    w * (prices' stock / prices stock))
                                 weights)).
Proof.
  intros Hne Hall Hsum.
  assert (Hcols : forall stock w, (stock, w) ∈ weights -> stock ∈ columns df)
    by (intros stock w Hin; apply (Hall stock w Hin)).
  destruct (rows df) as [|[d0 p0] rest] eqn:Hrows; [congruence|].
  unfold calculate_portfolio_value_with_rebalancing.
  destruct (initial_shares_held df weights initial_investment _ _ _ Hrows)
    as (held0 & -> & Hheld0 & Hcols0).
  rewrite retained_weights_allocations, retained_weights_all in Hheld0
    by exact Hcols.
  rewrite bind_Ok. unfold enumerate, index. rewrite Hrows.
  cbn [length seq combine rebalancing_loop map fst].
  destruct (rebalancing_step_Ok df weights 1 held0 0 p0 Hcols Hcols0)
    as [Hstep _].
  cbv zeta in Hstep. rewrite rebalance_due_first in Hstep.
  rewrite Hstep, bind_Ok.
  set (v0 := Py.sum (map (fun '(stock, n) => p0 stock * n) held0)) in *.
  assert (Hv0 : v0 = initial_investment).
  { unfold v0. rewrite Hheld0. rewrite sum_first_value, Hsum; [ring|].
    intros stock w Hin.
    apply (proj2 (Hall stock w Hin) d0). apply list_elem_of_here. }
  destruct (daily_loop df weights Hcols rest 1 ([] ++ [v0]) held0
              ltac:(lia) Hcols0)
    as (vs & held' & -> & Hlen & Hfirst & Hnext).
  rewrite bind_Ok. cbn [app]. eexists. split; [reflexivity|]. split.
  { exists d0. simpl. now rewrite Hv0. }
  intros t date prices date' prices' v Ht HSt Hv.
  change (@combine string R) with (@zip_with string R _ pair) in *.
  destruct t as [|k].
  - simpl in Ht, Hv. injection Ht as <- <-. injection Hv as <-.
    destruct rest as [|[d1 p1] rest']; [discriminate|].
    simpl in HSt. injection HSt as <- <-.
    change ((?x :: ?l) !! 1%nat) with (l !! 0%nat).
    apply lookup_zip_with_Some. eexists _, _.
    split; [reflexivity|]. split; [reflexivity|].
    rewrite (Hfirst d1 p1 rest' eq_refl). f_equal.
    rewrite Hheld0, Hv0. apply sum_first_return.
  - change ((?x :: ?l) !! S ?n) with (l !! n) in *.
    apply lookup_zip_with_Some in Hv as (d & x & [= <- <-] & Hd & Hx).
    apply lookup_zip_with_Some. eexists _, _. split; [reflexivity|].
    split; [rewrite list_lookup_fmap, HSt; reflexivity|].
    rewrite (Hnext k date prices date' prices' v); [|assumption..].
    f_equal. apply sum_weighted_returns.
Qed.

Lemma daily_rebalancing_compounds_witness :
  exists values,
    calculate_portfolio_value_with_rebalancing
      Samples.two_days [("A"%string, 1)] 1000 1 = Ok values
    /\ (exists date0, values !! 0%nat = Some (date0, 1000))
    /\ forall t date prices date' prices' v,
         rows Samples.two_days !! t = Some (date, prices) ->
         rows Samples.two_days !! S t = Some (date', prices') ->
         values !! t = Some (date, v) ->
         values !! S t
         = Some (date',
                 v * Py.sum (map (fun '(stock, w) =>
                                    w * (prices' stock / prices stock))
                                 [("A"%string, 1)])).
Proof.
  apply (daily_rebalancing_compounds Samples.two_days [("A"%string, 1)] 1000).
  - discriminate.
  - intros stock w Hin. apply list_elem_of_singleton in Hin.
    injection Hin as -> _. split; [apply list_elem_of_here|].
    intros date prices Hin. simpl in Hin.
    rewrite !elem_of_cons, elem_of_nil in Hin.
    destruct Hin as [[= _ ->] | [[= _ ->] | []]]; lra.
  - unfold Py.sum. simpl. lra.
Defined.

(** ** Weights that sum to 0 *)

(** X27: the weights are validated before the table is looked at: a weight
    map that is not empty and sums to 0 makes [index_compiler] raise
    [ZeroDivisionError], whatever the table, the policy and the halflife,
    and [csv_weighted_portfolio] with it once the file it loads has a [SPY]
    column. *)
Theorem zero_total_weight_raises
    loaded df weights title halflife_days initial_investment rebalance f :
  weights <> [] -> Py.sum (map snd weights) = 0 ->
  index_compiler df weights title halflife_days initial_investment rebalance f
  = Err ZeroDivisionError
  /\ ("SPY"%string ∈ columns loaded ->
      csv_weighted_portfolio loaded df weights halflife_days initial_investment
      = Err ZeroDivisionError).
Proof.
  intros Hne Hsum.
  assert (Hraise : forall t r g,
             index_compiler df weights t halflife_days initial_investment r g
             = Err ZeroDivisionError).
  { intros t r g. unfold index_compiler.
    now rewrite (normalised_weights_Err weights Hne Hsum). }
  split; [apply Hraise|]. intros Hspy.
  unfold csv_weighted_portfolio, load_data. cbv zeta.
  destruct (list_remove_Ok _ _ Hspy) as [adjusted ->].
  rewrite bind_Ok.
  now rewrite (Hraise "Equally Weighted Portfolio (Rebalanced Daily)" true 1%Z).
Qed.

Lemma zero_total_weight_raises_witness :
  index_compiler Samples.two_days [("A"%string, 1); ("B"%string, -1)]
                 "hedged" 2 1000 false 1
  = Err ZeroDivisionError
  /\ ("SPY"%string ∈ ["A"; "SPY"]%string ->
      csv_weighted_portfolio {| columns := ["A"; "SPY"]%string; rows := [] |}
        Samples.two_days [("A"%string, 1); ("B"%string, -1)] 2 1000
      = Err ZeroDivisionError).
Proof.
  apply (zero_total_weight_raises
           {| columns := ["A"; "SPY"]%string; rows := [] |}
           Samples.two_days [("A"%string, 1); ("B"%string, -1)]
           "hedged" 2 1000 false 1).
  - discriminate.
  - unfold Py.sum. simpl. lra.
Defined.
